(** * Account tree and entity index (account-summaries/account_index.js)

    A shallow embedding of the account tree / entity index builder and of the
    six resolver functions, over a small model of the JavaScript object store.

    The script keeps two module-level objects, [accountTree] and
    [entityIndex].  The builder stores the objects of the response themselves
    in the tree (by reference) and then adds child entries to them, so the
    response objects are shared between the response and the tree.  The model
    therefore has an explicit heap of objects addressed by locations; an
    object is a finite map from property names to values, an array is an
    object whose keys are the decimal indices.

    Scope of the object model: own properties only (nothing is inherited from
    a prototype), numbers are the integer-valued ones, strings are strings of
    one-byte characters, and the script runs in sloppy mode (it has no
    strict-mode directive), where assigning a property of a primitive value
    is silently dropped.  The two module-level objects are never handed out
    by the script, so they are kept beside the heap.  Loops carry a bound on
    the number of their iterations ([fuel]); the results below say which
    bound suffices.

    Where the script and the model part: every object of the script inherits
    the members of [Object.prototype], so [obj[k]] is not [undefined] for a
    name [k] such as [constructor] or [toString] that [obj] does not own, and
    assigning [obj.__proto__] replaces the prototype of [obj].  A store of
    the model stands for a store of the script in which every object has
    the prototype it was created with.  A statement about a lookup that
    finds no own member, or about the markup cache, is therefore made for
    names outside [Object_prototype], on responses none of whose identifiers
    is such a name ([ordinary_ids]).  The string form
    [to_key] is the one of the script for the values in [printable]; a
    statement that depends on the string form of a value that the response
    does not fix is made for those.

    The source file carries a second script as well, a profile selector; its
    tree builder and its two cached selector functions are modelled in the
    same way, the functions that touch the page are not. *)

From stdpp Require Import base gmap strings list pretty fin_maps.

Local Open Scope string_scope.

(** ** Values and the object store *)

Definition loc := positive.

Inductive value : Type :=
| VUndefined
| VNull
| VBool (b : bool)
| VNum (n : Z)
| VStr (s : string)
| VObj (l : loc).

Global Instance value_eq_dec : EqDecision value.
Proof. solve_decision. Defined.

Global Instance value_inhabited : Inhabited value := populate VUndefined.

Record state : Type := State {
  heap : gmap loc (gmap string value);
  accountTree : gmap string value;
  entityIndex : gmap string value
}.

Inductive error : Type := TypeError.

Inductive outcome (A : Type) : Type :=
| Ret (a : A) (s : state)
| Throw (e : error) (s : state)
| OutOfFuel.

Arguments Ret {A} a s.
Arguments Throw {A} e s.
Arguments OutOfFuel {A}.

(** A computation of the script: it reads and updates the store and either
    returns, or throws leaving the store as it was at the throw. *)
Definition js (A : Type) : Type := state → outcome A.

Definition ret {A} (a : A) : js A := λ s, Ret a s.

Definition bind {A B} (m : js A) (f : A → js B) : js B :=
  λ s, match m s with
       | Ret a s' => f a s'
       | Throw e s' => Throw e s'
       | OutOfFuel => OutOfFuel
       end.

Notation "x <- m ;; k" := (bind m (λ x, k))
  (at level 100, m at next level, right associativity,
   format "'[v' x  <-  m  ;;  '/' k ']'").
Notation "m ;;; k" := (bind m (λ _, k))
  (at level 100, right associativity).

(** ToBoolean. *)
Definition truthy (v : value) : bool :=
  match v with
  | VUndefined | VNull => false
  | VBool b => b
  | VNum n => negb (Z.eqb n 0)
  | VStr s => negb (String.eqb s "")
  | VObj _ => true
  end.

(** ToString, as used for property keys and for [+] with a string operand.
    Every object reference is rendered as a plain object is, and every
    integer in decimal digits: this is the string form of the script for
    [undefined], [null], booleans, strings and the integers that a number
    holds exactly (the values in [printable] below), not for arrays and not
    for numbers from [1e21] on. *)
Definition to_key (v : value) : string :=
  match v with
  | VUndefined => "undefined"
  | VNull => "null"
  | VBool true => "true"
  | VBool false => "false"
  | VNum n => pretty n
  | VStr s => s
  | VObj _ => "[object Object]"
  end.

(** The key of the array element [i]. *)
Definition index_key (i : nat) : string := pretty i.

(** Own properties of a string: its characters by index, and its length. *)
Fixpoint string_char (i : nat) (s : string) (k : string) : value :=
  match s with
  | EmptyString => VUndefined
  | String c s' =>
      if String.eqb k (index_key i) then VStr (String c EmptyString)
      else string_char (S i) s' k
  end.

Definition string_prop (s : string) (k : string) : value :=
  if String.eqb k "length" then VNum (Z.of_nat (String.length s))
  else string_char 0 s k.

(** [field h l k]: the own property [k] of the object at [l], [undefined]
    when there is none.  For the names in [Object_prototype] (below) the
    script finds an inherited member where the object has no own one. *)
Definition field (h : gmap loc (gmap string value)) (l : loc) (k : string) : value :=
  default VUndefined (h !! l ≫= λ o, o !! k).

(** [base[k]] *)
Definition get_prop (base : value) (k : string) : js value :=
  λ s, match base with
       | VUndefined | VNull => Throw TypeError s
       | VBool _ | VNum _ => Ret VUndefined s
       | VStr str => Ret (string_prop str k) s
       | VObj l => Ret (field (heap s) l k) s
       end.

Definition heap_write (l : loc) (k : string) (v : value)
    (h : gmap loc (gmap string value)) : gmap loc (gmap string value) :=
  <[l := <[k := v]> (default ∅ (h !! l))]> h.

(** [base[k] = v] *)
Definition set_prop (base : value) (k : string) (v : value) : js unit :=
  λ s, match base with
       | VUndefined | VNull => Throw TypeError s
       | VBool _ | VNum _ | VStr _ => Ret tt s
       | VObj l => Ret tt (State (heap_write l k v (heap s)) (accountTree s) (entityIndex s))
       end.

(** [{}] *)
Definition new_object : js value :=
  λ s, let l := fresh (dom (heap s)) in
       Ret (VObj l) (State (<[l := ∅]> (heap s)) (accountTree s) (entityIndex s)).

(** [accountTree[k]], [entityIndex[k]] and their assignments: the own
    entries of the two module-level objects. *)
Definition get_accountTree (k : string) : js value :=
  λ s, Ret (default VUndefined (accountTree s !! k)) s.

Definition set_accountTree (k : string) (v : value) : js unit :=
  λ s, Ret tt (State (heap s) (<[k := v]> (accountTree s)) (entityIndex s)).

Definition get_entityIndex (k : string) : js value :=
  λ s, Ret (default VUndefined (entityIndex s !! k)) s.

Definition set_entityIndex (k : string) (v : value) : js unit :=
  λ s, Ret tt (State (heap s) (accountTree s) (<[k := v]> (entityIndex s))).

(** [for (var i = 0, x; x = next(i); ++i) body(x)], with the number of
    evaluations of the loop condition bounded by [fuel]. *)
Fixpoint for_each (fuel : nat) (next : nat → js value) (body : value → js unit)
    (i : nat) : js unit :=
  match fuel with
  | O => λ _, OutOfFuel
  | S fuel' =>
      x <- next i ;;
      if truthy x then body x ;;; for_each fuel' next body (S i)
      else ret tt
  end.

(** ** The script *)

Definition ACCOUNT_PREFIX : string := "a".
Definition PROPERTY_PREFIX : string := "p".
Definition PROFILE_PREFIX : string := "v".

(** Every member access and assignment of the source is one step here, in
    the order of evaluation of the source; the comments quote the source.
    All three loops get the same [fuel]. *)
Definition buildAccountTreeIndex (fuel : nat) (accountSummariesResponse : value) : js unit :=
  (* for (var i = 0, account; account = accountSummariesResponse.items[i]; ++i) *)
  for_each fuel
    (λ i, items <- get_prop accountSummariesResponse "items" ;;
          get_prop items (index_key i))
    (λ account,
      (* accountTree[account.id] = account; *)
      account_id <- get_prop account "id" ;;
      set_accountTree (to_key account_id) account ;;;
      (* for (var w = 0, property; property = account.webProperties[w]; ++w) *)
      for_each fuel
        (λ w, webProperties <- get_prop account "webProperties" ;;
              get_prop webProperties (index_key w))
        (λ property,
          (* if (property.profiles) *)
          profiles <- get_prop property "profiles" ;;
          if truthy profiles then
            (* accountTree[account.id][property.id] = property; *)
            account_id <- get_prop account "id" ;;
            tree_account <- get_accountTree (to_key account_id) ;;
            property_id <- get_prop property "id" ;;
            set_prop tree_account (to_key property_id) property ;;;
            (* entityIndex[ACCOUNT_PREFIX + PROPERTY_PREFIX + property.id] = account.id; *)
            property_id <- get_prop property "id" ;;
            account_id <- get_prop account "id" ;;
            set_entityIndex ((ACCOUNT_PREFIX +:+ PROPERTY_PREFIX) +:+ to_key property_id)
                            account_id ;;;
            (* for (var p = 0, profile; profile = property.profiles[p]; ++p) *)
            for_each fuel
              (λ p, profiles <- get_prop property "profiles" ;;
                    get_prop profiles (index_key p))
              (λ profile,
                (* accountTree[account.id][property.id][profile.id] = profile; *)
                account_id <- get_prop account "id" ;;
                tree_account <- get_accountTree (to_key account_id) ;;
                property_id <- get_prop property "id" ;;
                tree_property <- get_prop tree_account (to_key property_id) ;;
                profile_id <- get_prop profile "id" ;;
                set_prop tree_property (to_key profile_id) profile ;;;
                (* entityIndex[ACCOUNT_PREFIX + PROFILE_PREFIX + profile.id] = account.id; *)
                profile_id <- get_prop profile "id" ;;
                account_id <- get_prop account "id" ;;
                set_entityIndex ((ACCOUNT_PREFIX +:+ PROFILE_PREFIX) +:+ to_key profile_id)
                                account_id ;;;
                (* entityIndex[PROPERTY_PREFIX + PROFILE_PREFIX + profile.id] = property.id; *)
                profile_id <- get_prop profile "id" ;;
                property_id <- get_prop property "id" ;;
                set_entityIndex ((PROPERTY_PREFIX +:+ PROFILE_PREFIX) +:+ to_key profile_id)
                                property_id)
              0
          else ret tt)
        0)
    0.

Definition initSummaries (fuel : nat) (accountSummariesResponse : value) : js unit :=
  buildAccountTreeIndex fuel accountSummariesResponse.

(** [if (entityIndex[indexKey]) return entityIndex[indexKey]; return ''] *)
Definition _getEntityId (indexKey : string) : js value :=
  x <- get_entityIndex indexKey ;;
  if truthy x then get_entityIndex indexKey else ret (VStr "").

(** [if (accountTree[accountId]) return accountTree[accountId]; return {}] *)
Definition getAccount (accountId : value) : js value :=
  x <- get_accountTree (to_key accountId) ;;
  if truthy x then get_accountTree (to_key accountId) else new_object.

(** [if (accountTree[accountId] && accountTree[accountId][propertyId])
       return accountTree[accountId][propertyId];
     return {}] *)
Definition _getProperty (accountId propertyId : value) : js value :=
  a <- get_accountTree (to_key accountId) ;;
  if truthy a then
    a <- get_accountTree (to_key accountId) ;;
    p <- get_prop a (to_key propertyId) ;;
    if truthy p then
      a <- get_accountTree (to_key accountId) ;;
      get_prop a (to_key propertyId)
    else new_object
  else new_object.

Definition getAccountByPropertyId (propertyId : value) : js value :=
  let indexKey := (ACCOUNT_PREFIX +:+ PROPERTY_PREFIX) +:+ to_key propertyId in
  accountId <- _getEntityId indexKey ;;
  getAccount accountId.

Definition getAccountByProfileId (profileId : value) : js value :=
  let indexKey := (ACCOUNT_PREFIX +:+ PROFILE_PREFIX) +:+ to_key profileId in
  accountId <- _getEntityId indexKey ;;
  getAccount accountId.

Definition getPropertyByProfileId (profileId : value) : js value :=
  let accountIndexKey := (ACCOUNT_PREFIX +:+ PROFILE_PREFIX) +:+ to_key profileId in
  let propertyIndexKey := (PROPERTY_PREFIX +:+ PROFILE_PREFIX) +:+ to_key profileId in
  accountId <- _getEntityId accountIndexKey ;;
  propertyId <- _getEntityId propertyIndexKey ;;
  _getProperty accountId propertyId.

(** [var account = getAccountByPropertyId(propertyId);
     if (account) return account[propertyId];
     return {}] *)
Definition getProperty (propertyId : value) : js value :=
  account <- getAccountByPropertyId propertyId ;;
  if truthy account then get_prop account (to_key propertyId) else new_object.

(** [var property = getPropertyByProfileId(profileId);
     if (property) return property[profileId];
     return {}] *)
Definition getProfile (profileId : value) : js value :=
  property <- getPropertyByProfileId profileId ;;
  if truthy property then get_prop property (to_key profileId) else new_object.

(** ** Responses as JSON documents

    The Management API response reaches the script as a parsed JSON document:
    every object and array of the document is a fresh object of the heap. *)

#[warnings="-register-all"]
Inductive json : Type :=
| JNull
| JBool (b : bool)
| JNum (n : Z)
| JStr (s : string)
| JArr (elems : list json)
| JObj (members : list (string * json)).

Fixpoint alloc_json (j : json) (h : gmap loc (gmap string value))
    : value * gmap loc (gmap string value) :=
  match j with
  | JNull => (VNull, h)
  | JBool b => (VBool b, h)
  | JNum n => (VNum n, h)
  | JStr s => (VStr s, h)
  | JArr elems =>
      let l := fresh (dom h) in
      let fix go (i : nat) (js : list json) (h : gmap loc (gmap string value)) :=
        match js with
        | [] => h
        | j :: js' =>
            let '(v, h') := alloc_json j h in
            go (S i) js' (heap_write l (index_key i) v h')
        end in
      (VObj l, go 0 elems (heap_write l "length" (VNum (Z.of_nat (length elems))) h))
  | JObj members =>
      let l := fresh (dom h) in
      let fix go (ms : list (string * json)) (h : gmap loc (gmap string value)) :=
        match ms with
        | [] => h
        | (k, j) :: ms' =>
            let '(v, h') := alloc_json j h in
            go ms' (heap_write l k v h')
        end in
      (VObj l, go members (<[l := ∅]> h))
  end.

(** The store of a freshly loaded script that has been handed the document
    [j]: both module-level objects are empty. *)
Definition load (j : json) : value * state :=
  let '(v, h) := alloc_json j ∅ in (v, State h ∅ ∅).

Definition run_build (fuel : nat) (j : json) : outcome unit :=
  let '(v, s) := load j in buildAccountTreeIndex fuel v s.

(** ** Slots of the store and the writes of a build

    A slot is one place the script assigns: an entry of [accountTree], an
    entry of [entityIndex], or a property of a heap object. *)

Inductive slot : Type :=
| STree (k : string)
| SIndex (k : string)
| SHeap (l : loc) (k : string).

Global Instance slot_eq_dec : EqDecision slot.
Proof. solve_decision. Defined.

Definition read (sl : slot) (s : state) : value :=
  match sl with
  | STree k => default VUndefined (accountTree s !! k)
  | SIndex k => default VUndefined (entityIndex s !! k)
  | SHeap l k => field (heap s) l k
  end.

Definition store (w : slot * value) (s : state) : state :=
  match w.1 with
  | STree k => State (heap s) (<[k := w.2]> (accountTree s)) (entityIndex s)
  | SIndex k => State (heap s) (accountTree s) (<[k := w.2]> (entityIndex s))
  | SHeap l k => State (heap_write l k w.2 (heap s)) (accountTree s) (entityIndex s)
  end.

Definition replay (ws : list (slot * value)) (s : state) : state :=
  foldl (λ s w, store w s) s ws.

(** ** Well-formed responses

    The part of a response that a build visits, as data: for every sequence
    the records in front of its first falsy element, each with the location
    of its object and its identifier.  [p_profiles] is [None] for a Property
    whose [profiles] member is falsy (absent, in particular). *)

Record Profile : Type := { v_loc : loc; v_id : string }.

Record Property : Type := {
  p_loc : loc;
  p_id : string;
  p_profiles : option (loc * list Profile)
}.

Record Account : Type := {
  a_loc : loc;
  a_id : string;
  a_webProperties : loc;
  a_properties : list Property
}.

Record Summaries : Type := {
  r_loc : loc;
  r_items : loc;
  r_accounts : list Account
}.

Global Instance Profile_eq_dec : EqDecision Profile.
Proof. solve_decision. Defined.
Global Instance Property_eq_dec : EqDecision Property.
Proof. solve_decision. Defined.
Global Instance Account_eq_dec : EqDecision Account.
Proof. solve_decision. Defined.

(** What a build reads from the heap: [FIs l k v] says that property [k] of
    the object at [l] is [v], [FFalsy l k] that it is falsy. *)
Inductive fact : Type :=
| FIs (l : loc) (k : string) (v : value)
| FFalsy (l : loc) (k : string).

Definition holds (h : gmap loc (gmap string value)) (f : fact) : Prop :=
  match f with
  | FIs l k v => field h l k = v
  | FFalsy l k => truthy (field h l k) = false
  end.

Global Instance holds_dec h f : Decision (holds h f).
Proof. destruct f; simpl; apply _. Defined.

Definition fact_slot (f : fact) : slot :=
  match f with
  | FIs l k _ => SHeap l k
  | FFalsy l k => SHeap l k
  end.

(** The array at [l] holds the objects [xs] from index [i] on, and then a
    falsy element. *)
Fixpoint seq_facts (l : loc) (i : nat) (xs : list loc) : list fact :=
  match xs with
  | [] => [FFalsy l (index_key i)]
  | x :: xs' => FIs l (index_key i) (VObj x) :: seq_facts l (S i) xs'
  end.

(** The array at [l] holds the objects [xs] from index [i] on; what follows
    them is left open. *)
Fixpoint seq_elems (l : loc) (i : nat) (xs : list loc) : list fact :=
  match xs with
  | [] => []
  | x :: xs' => FIs l (index_key i) (VObj x) :: seq_elems l (S i) xs'
  end.

Definition profile_facts (v : Profile) : list fact :=
  [FIs (v_loc v) "id" (VStr (v_id v))].

Definition property_facts (p : Property) : list fact :=
  FIs (p_loc p) "id" (VStr (p_id p)) ::
  match p_profiles p with
  | None => [FFalsy (p_loc p) "profiles"]
  | Some (l, vs) =>
      FIs (p_loc p) "profiles" (VObj l) ::
      seq_facts l 0 (v_loc <$> vs) ++ (vs ≫= profile_facts)
  end.

Definition account_facts (a : Account) : list fact :=
  FIs (a_loc a) "id" (VStr (a_id a)) ::
  FIs (a_loc a) "webProperties" (VObj (a_webProperties a)) ::
  seq_facts (a_webProperties a) 0 (p_loc <$> a_properties a) ++
  (a_properties a ≫= property_facts).

(** The members read while the Accounts [r_accounts r] are visited.  They
    are the first elements of [items]; the element after them is not part of
    these facts. *)
Definition response_facts (r : Summaries) : list fact :=
  FIs (r_loc r) "items" (VObj (r_items r)) ::
  seq_elems (r_items r) 0 (a_loc <$> r_accounts r) ++
  (r_accounts r ≫= account_facts).

(** The assignments of a build, in program order. *)
Definition profile_writes (a : Account) (p : Property) (v : Profile) : list (slot * value) :=
  [ (SHeap (p_loc p) (v_id v), VObj (v_loc v));
    (SIndex ((ACCOUNT_PREFIX +:+ PROFILE_PREFIX) +:+ v_id v), VStr (a_id a));
    (SIndex ((PROPERTY_PREFIX +:+ PROFILE_PREFIX) +:+ v_id v), VStr (p_id p)) ].

Definition property_writes (a : Account) (p : Property) : list (slot * value) :=
  match p_profiles p with
  | None => []
  | Some (_, vs) =>
      (SHeap (a_loc a) (p_id p), VObj (p_loc p)) ::
      (SIndex ((ACCOUNT_PREFIX +:+ PROPERTY_PREFIX) +:+ p_id p), VStr (a_id a)) ::
      (vs ≫= profile_writes a p)
  end.

Definition account_writes (a : Account) : list (slot * value) :=
  (STree (a_id a), VObj (a_loc a)) :: (a_properties a ≫= property_writes a).

Definition trace (r : Summaries) : list (slot * value) :=
  r_accounts r ≫= account_writes.

Definition property_profiles (p : Property) : list Profile :=
  match p_profiles p with None => [] | Some (_, vs) => vs end.

Definition all_properties (r : Summaries) : list Property :=
  r_accounts r ≫= a_properties.

(** The longest sequence of the response. *)
Definition profiles_length (p : Property) : nat :=
  match p_profiles p with None => 0 | Some (_, vs) => length vs end.

Definition account_longest (a : Account) : nat :=
  max (length (a_properties a)) (max_list (profiles_length <$> a_properties a)).

Definition longest (r : Summaries) : nat :=
  max (length (r_accounts r)) (max_list (account_longest <$> r_accounts r)).

(** The objects of a response by kind: Accounts, Properties, Profiles, and
    the containers (the response object and the arrays). *)
Definition all_profiles (r : Summaries) : list Profile :=
  all_properties r ≫= property_profiles.

Definition account_locs (r : Summaries) : list loc := a_loc <$> r_accounts r.
Definition property_locs (r : Summaries) : list loc := p_loc <$> all_properties r.
Definition profile_locs (r : Summaries) : list loc := v_loc <$> all_profiles r.

Definition profiles_loc (p : Property) : list loc :=
  match p_profiles p with None => [] | Some (l, _) => [l] end.

Definition container_locs (r : Summaries) : list loc :=
  r_loc r :: r_items r ::
  ((a_webProperties <$> r_accounts r) ++ (all_properties r ≫= profiles_loc))%list.

(** [well_formed_prefix h r]: in the heap [h] the sequence [items] of the
    response starts with the Account records [r], which have the documented
    shape:
    - the members that a build reads in them are there ([response_facts]);
    - an Account object is no Property, Profile or container, and a Property
      object is no Profile or container (as in every parsed document, where
      all objects are distinct);
    - child identifiers do not collide with the attribute names that a build
      reads from the object they are stored in: no Property identifier is
      [id] or [webProperties], no Profile identifier is [id] or [profiles]. *)
Definition well_formed_prefix (h : gmap loc (gmap string value)) (r : Summaries) : Prop :=
  Forall (holds h) (response_facts r) ∧
  Forall (λ l, l ∉ (property_locs r ++ profile_locs r ++ container_locs r)%list)
         (account_locs r) ∧
  Forall (λ l, l ∉ (profile_locs r ++ container_locs r)%list) (property_locs r) ∧
  Forall (λ p, p_id p ∉ ["id"; "webProperties"]) (all_properties r) ∧
  Forall (λ v, v_id v ∉ ["id"; "profiles"]) (all_profiles r).

Global Instance well_formed_prefix_dec h r : Decision (well_formed_prefix h r).
Proof. unfold well_formed_prefix. apply _. Defined.

(** [well_formed h r]: moreover the element of [items] after the records [r]
    is falsy (the sequence ends there, or has a [null] there): [r] is the
    part of the response that a build visits. *)
Definition well_formed (h : gmap loc (gmap string value)) (r : Summaries) : Prop :=
  well_formed_prefix h r ∧
  truthy (field h (r_items r) (index_key (length (r_accounts r)))) = false.

Global Instance well_formed_dec h r : Decision (well_formed h r).
Proof. unfold well_formed. apply _. Defined.

(** Where the members that a build reads live. *)
Inductive read_slot (r : Summaries) : slot → Prop :=
| read_container l k : l ∈ container_locs r → read_slot r (SHeap l k)
| read_account l k :
    l ∈ account_locs r → k ∈ ["id"; "webProperties"] → read_slot r (SHeap l k)
| read_property l k :
    l ∈ property_locs r → k ∈ ["id"; "profiles"] → read_slot r (SHeap l k)
| read_profile l k : l ∈ profile_locs r → read_slot r (SHeap l k).

(** The heap holds the members that a build of [r] reads. *)
Definition Inv (r : Summaries) (s : state) : Prop :=
  Forall (holds (heap s)) (response_facts r).

(** The writes of a build, one case per assignment of the script. *)
Inductive in_trace (r : Summaries) : slot * value → Prop :=
| in_trace_account a :
    a ∈ r_accounts r →
    in_trace r (STree (a_id a), VObj (a_loc a))
| in_trace_property a p l vs :
    a ∈ r_accounts r → p ∈ a_properties a → p_profiles p = Some (l, vs) →
    in_trace r (SHeap (a_loc a) (p_id p), VObj (p_loc p))
| in_trace_account_of_property a p l vs :
    a ∈ r_accounts r → p ∈ a_properties a → p_profiles p = Some (l, vs) →
    in_trace r (SIndex ((ACCOUNT_PREFIX +:+ PROPERTY_PREFIX) +:+ p_id p), VStr (a_id a))
| in_trace_profile a p l vs v :
    a ∈ r_accounts r → p ∈ a_properties a → p_profiles p = Some (l, vs) → v ∈ vs →
    in_trace r (SHeap (p_loc p) (v_id v), VObj (v_loc v))
| in_trace_account_of_profile a p l vs v :
    a ∈ r_accounts r → p ∈ a_properties a → p_profiles p = Some (l, vs) → v ∈ vs →
    in_trace r (SIndex ((ACCOUNT_PREFIX +:+ PROFILE_PREFIX) +:+ v_id v), VStr (a_id a))
| in_trace_property_of_profile a p l vs v :
    a ∈ r_accounts r → p ∈ a_properties a → p_profiles p = Some (l, vs) → v ∈ vs →
    in_trace r (SIndex ((PROPERTY_PREFIX +:+ PROFILE_PREFIX) +:+ v_id v), VStr (p_id p)).

(** Records with their owners: every Property with its Account, every Profile
    with its Property and Account. *)
Definition owned_properties (r : Summaries) : list (Account * Property) :=
  a ← r_accounts r; (λ p, (a, p)) <$> a_properties a.

Definition owned_profiles (r : Summaries) : list (Account * Property * Profile) :=
  ap ← owned_properties r; (λ v, (ap, v)) <$> property_profiles ap.2.

(** Identifiers are unique within their kind: two records of one kind with
    the same identifier are the same record, with the same owner. *)
Definition unique_ids (r : Summaries) : Prop :=
  Forall (λ a, Forall (λ a', a_id a = a_id a' → a = a') (r_accounts r)) (r_accounts r) ∧
  Forall (λ x : Account * Property,
            Forall (λ y : Account * Property, p_id x.2 = p_id y.2 → x = y)
                   (owned_properties r)) (owned_properties r) ∧
  Forall (λ x : Account * Property * Profile,
            Forall (λ y : Account * Property * Profile, v_id x.2 = v_id y.2 → x = y)
                   (owned_profiles r)) (owned_profiles r).

Global Instance unique_ids_dec r : Decision (unique_ids r).
Proof. unfold unique_ids. apply _. Defined.

(** ** Observing the resolvers *)

(** [m().k]: call a resolver and read a member of what it returns. *)
Definition member (m : js value) (k : string) : js value :=
  v <- m ;; get_prop v k.

(** [m] returns a new empty object: a miss of [getAccount]. *)
Definition returns_empty (m : js value) (s : state) : Prop :=
  ∃ l, heap s !! l = None ∧
       m s = Ret (VObj l) (State (<[l := ∅]> (heap s)) (accountTree s) (entityIndex s)).

(** [m] returns [undefined] (possibly after creating an empty object). *)
Definition returns_undefined (m : js value) (s : state) : Prop :=
  ∃ s', m s = Ret VUndefined s'.

(** [m] is a pure read: it returns, the tree and the index are as before,
    and so is every object that was in the heap. *)
Definition pure_read (m : js value) : Prop :=
  ∀ s, ∃ v s', m s = Ret v s' ∧
               accountTree s' = accountTree s ∧
               entityIndex s' = entityIndex s ∧
               heap s ⊆ heap s'.

(** The outcome [o], in a store to which the write [w] has been added. *)
Definition after_write (w : slot * value) (o : outcome value) : outcome value :=
  match o with
  | Ret v s => Ret v (store w s)
  | Throw e s => Throw e (store w s)
  | OutOfFuel => OutOfFuel
  end.

(** Every Account [a], Property [p] of [a] that has a Profile sequence and
    Profile [v] of [p] resolve to their ancestors in the store [s]. *)
Definition resolves_ancestors (r : Summaries) (s : state) : Prop :=
  ∀ a p l vs v,
    a ∈ r_accounts r → p ∈ a_properties a → p_profiles p = Some (l, vs) → v ∈ vs →
    getAccountByPropertyId (VStr (p_id p)) s = Ret (VObj (a_loc a)) s ∧
    getAccountByProfileId (VStr (v_id v)) s = Ret (VObj (a_loc a)) s ∧
    getPropertyByProfileId (VStr (v_id v)) s = Ret (VObj (p_loc p)) s.

(** The three relations of the entity index and their composite keys, as the
    script builds them: the two prefixes of the relation, then the identifier
    of the child. *)
Inductive relation : Type :=
| AccountOfProperty
| AccountOfProfile
| PropertyOfProfile.

Global Instance relation_eq_dec : EqDecision relation.
Proof. solve_decision. Defined.

Definition relation_prefix (R : relation) : string :=
  match R with
  | AccountOfProperty => ACCOUNT_PREFIX +:+ PROPERTY_PREFIX
  | AccountOfProfile => ACCOUNT_PREFIX +:+ PROFILE_PREFIX
  | PropertyOfProfile => PROPERTY_PREFIX +:+ PROFILE_PREFIX
  end.

Definition composite_key (R : relation) (id : value) : string :=
  relation_prefix R +:+ to_key id.

(** The store an outcome leaves behind. *)
Definition final_state {A} (o : outcome A) : state :=
  match o with
  | Ret _ s | Throw _ s => s
  | OutOfFuel => State ∅ ∅ ∅
  end.

(** ** Sample responses *)

(** One Account with one Property holding one Profile. *)
Definition scenario : json :=
  JObj [("items", JArr [
    JObj [("id", JStr "1234"); ("name", JStr "Acme");
          ("webProperties", JArr [
             JObj [("id", JStr "UA-1234-1");
                   ("profiles", JArr [
                      JObj [("id", JStr "5678"); ("name", JStr "Main View")]])]])]])].

Definition scenario_visited : Summaries :=
  {| r_loc := 1%positive; r_items := 2%positive;
     r_accounts :=
       [ {| a_loc := 3%positive; a_id := "1234"; a_webProperties := 4%positive;
            a_properties :=
              [ {| p_loc := 5%positive; p_id := "UA-1234-1";
                   p_profiles := Some (6%positive, [ {| v_loc := 7%positive; v_id := "5678" |} ]) |} ] |} ] |}.

(** A Property whose Profile sequence is empty, and one that has none. *)
Definition empty_profiles : json :=
  JObj [("items", JArr [
    JObj [("id", JStr "1234"); ("name", JStr "Acme");
          ("webProperties", JArr [
             JObj [("id", JStr "UA-1234-2"); ("name", JStr "Deleted"); ("profiles", JArr [])];
             JObj [("id", JStr "UA-1234-3"); ("name", JStr "Gone")]])]])].

Definition empty_profiles_visited : Summaries :=
  {| r_loc := 1%positive; r_items := 2%positive;
     r_accounts :=
       [ {| a_loc := 3%positive; a_id := "1234"; a_webProperties := 4%positive;
            a_properties :=
              [ {| p_loc := 5%positive; p_id := "UA-1234-2";
                   p_profiles := Some (6%positive, []) |};
                {| p_loc := 7%positive; p_id := "UA-1234-3"; p_profiles := None |} ] |} ] |}.

(** An Account without a Property sequence, between two complete ones. *)
Definition missing_webProperties : json :=
  JObj [("items", JArr [
    JObj [("id", JStr "4321"); ("name", JStr "Complete");
          ("webProperties", JArr [
             JObj [("id", JStr "UA-4321-1");
                   ("profiles", JArr [JObj [("id", JStr "8765")]])]])];
    JObj [("id", JStr "1234"); ("name", JStr "Acme")];
    JObj [("id", JStr "5555"); ("name", JStr "Next"); ("webProperties", JArr [])]])].


(** Two Account records with the same identifier. *)
Definition duplicate_accounts : json :=
  JObj [("items", JArr [
    JObj [("id", JStr "1234"); ("name", JStr "First");
          ("webProperties", JArr [
             JObj [("id", JStr "UA-1234-1");
                   ("profiles", JArr [JObj [("id", JStr "5678")]])]])];
    JObj [("id", JStr "1234"); ("name", JStr "Second"); ("webProperties", JArr [])]])].

Definition duplicate_accounts_visited : Summaries :=
  {| r_loc := 1%positive; r_items := 2%positive;
     r_accounts :=
       [ {| a_loc := 3%positive; a_id := "1234"; a_webProperties := 4%positive;
            a_properties :=
              [ {| p_loc := 5%positive; p_id := "UA-1234-1";
                   p_profiles := Some (6%positive, [ {| v_loc := 7%positive; v_id := "5678" |} ]) |} ] |};
         {| a_loc := 8%positive; a_id := "1234"; a_webProperties := 9%positive;
            a_properties := [] |} ] |}.

(** Sequences with a [null] element in front of further records. *)
Definition null_entries : json :=
  JObj [("items", JArr [
    JObj [("id", JStr "1234");
          ("webProperties", JArr [
             JObj [("id", JStr "UA-1234-1");
                   ("profiles", JArr [JObj [("id", JStr "5678")]; JNull;
                                      JObj [("id", JStr "5679")]])];
             JNull;
             JObj [("id", JStr "UA-1234-2");
                   ("profiles", JArr [JObj [("id", JStr "5680")]])]])];
    JNull;
    JObj [("id", JStr "4321"); ("webProperties", JArr [])]])].

Definition null_entries_visited : Summaries :=
  {| r_loc := 1%positive; r_items := 2%positive;
     r_accounts :=
       [ {| a_loc := 3%positive; a_id := "1234"; a_webProperties := 4%positive;
            a_properties :=
              [ {| p_loc := 5%positive; p_id := "UA-1234-1";
                   p_profiles := Some (6%positive, [ {| v_loc := 7%positive; v_id := "5678" |} ]) |} ] |} ] |}.

(** ** The profile selector script

    The second script of the source file keeps its own [accountTree] and a
    cache of markup, [selectorHtml].  [buildAccountTree] fills the tree with
    the Accounts only; the selector functions add the Properties of an
    Account and the Profiles of a Property to the tree when their selector is
    first asked for.  The functions that read or fill the page (the handlers,
    [getSelectedAccount], [updateProfileDetails], ...) and
    [getAccountSelectorHtml], whose [for ... in] visits the keys of the tree
    in an order that a finite map does not keep, are not modelled.

    [selectorHtml] is read at the start of a selector function and assigned
    in its last statement only, so it is passed in and handed back; like the
    tree it is a map of its own entries.  The
    array [html] is local to a call: it is a list here. *)

(** The double quote (character 34). *)
Definition DQUOTE : string := String (Ascii.ascii_of_nat 34) EmptyString.

Definition PROPERTY_SELECTOR : string := "property-selector".
Definition PROFILE_SELECTOR : string := "profile-selector".

(** One item of [Array.prototype.join]: [undefined] and [null] give the
    empty string, every other value its string form. *)
Definition join_item (v : value) : string :=
  match v with
  | VUndefined | VNull => ""
  | _ => to_key v
  end.

(** [html.join('')] *)
Definition join (html : list value) : string :=
  foldr (λ v rest, join_item v +:+ rest) "" html.

(** [for (var i = 0, x; x = next(i); ++i) body(x)] where the body updates a
    local variable, carried here as [acc]. *)
Fixpoint for_each_fold {A} (fuel : nat) (next : nat → js value)
    (body : value → A → js A) (i : nat) (acc : A) : js A :=
  match fuel with
  | O => λ _, OutOfFuel
  | S fuel' =>
      x <- next i ;;
      if truthy x then
        acc' <- body x acc ;;
        for_each_fold fuel' next body (S i) acc'
      else ret acc
  end.

Definition buildAccountTree (fuel : nat) (summaries : value) : js unit :=
  (* for (var i = 0, account; account = summaries.items[i]; ++i) *)
  for_each fuel
    (λ i, items <- get_prop summaries "items" ;;
          get_prop items (index_key i))
    (λ account,
      (* accountTree[account.id] = account; *)
      account_id <- get_prop account "id" ;;
      set_accountTree (to_key account_id) account)
    0.

Definition getPropertySelectorHtml (fuel : nat) (accountId : string)
    (selectorHtml : gmap string value) : js (value * gmap string value) :=
  (* var propertyKey = accountId; *)
  let propertyKey := accountId in
  (* if (selectorHtml[propertyKey]) return selectorHtml[propertyKey]; *)
  if truthy (default VUndefined (selectorHtml !! propertyKey)) then
    ret (default VUndefined (selectorHtml !! propertyKey), selectorHtml)
  else
    (* var propertyTree = accountTree[accountId].webProperties; *)
    account <- get_accountTree accountId ;;
    propertyTree <- get_prop account "webProperties" ;;
    (* var html = ['<select id="', PROPERTY_SELECTOR, '">']; *)
    (* for (var w = 0, property; property = propertyTree[w]; ++w) *)
    html <- for_each_fold fuel
      (λ w, get_prop propertyTree (index_key w))
      (λ property html,
        (* if (property.profiles) *)
        profiles <- get_prop property "profiles" ;;
        if truthy profiles then
          (* accountTree[accountId][property.id] = property; *)
          account <- get_accountTree accountId ;;
          property_id <- get_prop property "id" ;;
          set_prop account (to_key property_id) property ;;;
          (* html.push('<option value="', property.id, '">'); *)
          property_id <- get_prop property "id" ;;
          let html :=
            (html ++ [VStr ("<option value=" +:+ DQUOTE); property_id;
                      VStr (DQUOTE +:+ ">")])%list in
          (* html.push(property.name, '</option>'); *)
          property_name <- get_prop property "name" ;;
          ret (html ++ [property_name; VStr "</option>"])%list
        else ret html)
      0
      [VStr ("<select id=" +:+ DQUOTE); VStr PROPERTY_SELECTOR; VStr (DQUOTE +:+ ">")] ;;
    (* html.push('</select>'); *)
    let html := (html ++ [VStr "</select>"])%list in
    (* selectorHtml[propertyKey] = html.join(''); *)
    let selectorHtml := <[propertyKey := VStr (join html)]> selectorHtml in
    (* return selectorHtml[propertyKey]; *)
    ret (default VUndefined (selectorHtml !! propertyKey), selectorHtml).

Definition getProfileSelectorHtml (fuel : nat) (accountId propertyId : string)
    (selectorHtml : gmap string value) : js (value * gmap string value) :=
  (* var profileKey = accountId + propertyId; *)
  let profileKey := accountId +:+ propertyId in
  (* if (selectorHtml[profileKey]) return selectorHtml[profileKey]; *)
  if truthy (default VUndefined (selectorHtml !! profileKey)) then
    ret (default VUndefined (selectorHtml !! profileKey), selectorHtml)
  else
    (* var profileTree = accountTree[accountId][propertyId].profiles; *)
    account <- get_accountTree accountId ;;
    property <- get_prop account propertyId ;;
    profileTree <- get_prop property "profiles" ;;
    (* var html = ['<select id="', PROFILE_SELECTOR, '">']; *)
    (* for (var p = 0, profile; profile = profileTree[p]; ++p) *)
    html <- for_each_fold fuel
      (λ p, get_prop profileTree (index_key p))
      (λ profile html,
        (* accountTree[accountId][propertyId][profile.id] = profile; *)
        account <- get_accountTree accountId ;;
        property <- get_prop account propertyId ;;
        profile_id <- get_prop profile "id" ;;
        set_prop property (to_key profile_id) profile ;;;
        (* html.push('<option value="', profile.id, '">', profile.name, '</option>'); *)
        profile_id <- get_prop profile "id" ;;
        profile_name <- get_prop profile "name" ;;
        ret (html ++ [VStr ("<option value=" +:+ DQUOTE); profile_id;
                      VStr (DQUOTE +:+ ">"); profile_name; VStr "</option>"])%list)
      0
      [VStr ("<select id=" +:+ DQUOTE); VStr PROFILE_SELECTOR; VStr (DQUOTE +:+ ">")] ;;
    (* html.push('</select>'); *)
    let html := (html ++ [VStr "</select>"])%list in
    (* selectorHtml[profileKey] = html.join(''); *)
    let selectorHtml := <[profileKey := VStr (join html)]> selectorHtml in
    (* return selectorHtml[profileKey]; *)
    ret (default VUndefined (selectorHtml !! profileKey), selectorHtml).

(** ** Describing what the two scripts compute *)

(** The own member [k] of any value: what [get_prop] returns when it
    returns. *)
Definition own_prop (h : gmap loc (gmap string value)) (v : value) (k : string) : value :=
  match v with
  | VObj l => field h l k
  | VStr str => string_prop str k
  | _ => VUndefined
  end.

(** The first [n] elements of the array at [l]. *)
Definition items_upto (h : gmap loc (gmap string value)) (l : loc) (n : nat) : list value :=
  (λ i, field h l (index_key i)) <$> seq 0 n.

(** A tree to which the elements [elems] have been added, each under the
    string form of its [id]. *)
Definition tree_with (h : gmap loc (gmap string value)) (elems : list value)
    (tree : gmap string value) : gmap string value :=
  foldl (λ t e, <[to_key (own_prop h e "id") := e]> t) tree elems.

(** The writes of the selector functions: the Properties of an Account that
    have a Profile sequence, the Profiles of a Property. *)
Definition property_tree_writes (a : Account) (p : Property) : list (slot * value) :=
  match p_profiles p with
  | None => []
  | Some _ => [(SHeap (a_loc a) (p_id p), VObj (p_loc p))]
  end.

Definition profile_tree_writes (p : Property) (v : Profile) : list (slot * value) :=
  [(SHeap (p_loc p) (v_id v), VObj (v_loc v))].

(** The markup of the selectors. *)
Definition option_markup (id name : value) : string :=
  ("<option value=" +:+ DQUOTE) +:+ join_item id +:+ (DQUOTE +:+ ">") +:+
  join_item name +:+ "</option>".

Definition select_markup (selector : string) (options : list string) : string :=
  ("<select id=" +:+ DQUOTE) +:+ selector +:+ (DQUOTE +:+ ">") +:+
  foldr String.append "</select>" options.

Definition property_options (h : gmap loc (gmap string value)) (a : Account) : list string :=
  a_properties a ≫= λ p,
    match p_profiles p with
    | None => []
    | Some _ => [option_markup (VStr (p_id p)) (field h (p_loc p) "name")]
    end.

Definition profile_options (h : gmap loc (gmap string value)) (vs : list Profile)
    : list string :=
  (λ v, option_markup (VStr (v_id v)) (field h (v_loc v) "name")) <$> vs.

(** [undefined] or [null]: the values whose members cannot be read. *)
Definition nullish (v : value) : Prop := v = VUndefined ∨ v = VNull.

(** The items that the property selector pushes for a Property, and the
    profile selector for a Profile: the names are those of the heap [h]. *)
Definition property_items (h : gmap loc (gmap string value)) (p : Property)
    (html : list value) : list value :=
  match p_profiles p with
  | None => html
  | Some _ =>
      ((html ++ [VStr ("<option value=" +:+ DQUOTE); VStr (p_id p); VStr (DQUOTE +:+ ">")])
       ++ [field h (p_loc p) "name"; VStr "</option>"])%list
  end.

Definition profile_items (h : gmap loc (gmap string value)) (v : Profile)
    (html : list value) : list value :=
  (html ++ [VStr ("<option value=" +:+ DQUOTE); VStr (v_id v); VStr (DQUOTE +:+ ">");
            field h (v_loc v) "name"; VStr "</option>"])%list.

(** What the loops of the selectors keep, from the store [s] on: the
    members that a build of [r] reads, the Account in the tree (and the
    Property under it), and the members of the records they visit. *)
Definition property_loop (r : Summaries) (s : state) (a : Account) (s' : state) : Prop :=
  Inv r s' ∧ read (STree (a_id a)) s' = VObj (a_loc a) ∧
  ∀ p k, p ∈ a_properties a → field (heap s') (p_loc p) k = field (heap s) (p_loc p) k.

Definition profile_loop (r : Summaries) (s : state) (a : Account) (p : Property)
    (vs : list Profile) (s' : state) : Prop :=
  Inv r s' ∧ read (STree (a_id a)) s' = VObj (a_loc a) ∧
  read (SHeap (a_loc a) (p_id p)) s' = VObj (p_loc p) ∧
  ∀ v k, v ∈ vs → field (heap s') (v_loc v) k = field (heap s) (v_loc v) k.

(** ** Where the model is exact *)

(** The members of [Object.prototype]: the names that every object of the
    script answers to without owning them. *)
Definition Object_prototype : list string :=
  ["constructor"; "hasOwnProperty"; "isPrototypeOf"; "propertyIsEnumerable";
   "toLocaleString"; "toString"; "valueOf";
   "__defineGetter__"; "__defineSetter__"; "__lookupGetter__"; "__lookupSetter__";
   "__proto__"].

(** The values whose string form is [to_key]: [undefined], [null], the
    booleans, the strings and the integers that a number holds exactly.
    (The string form of an array joins its elements, and a number from
    [1e21] on is written with an exponent.) *)
Definition printable (v : value) : Prop :=
  match v with
  | VObj _ => False
  | VNum n => (Z.abs n ≤ 9007199254740991)%Z
  | _ => True
  end.

Global Instance printable_dec v : Decision (printable v).
Proof. destruct v; simpl; apply _. Defined.

(** The [name] members of the objects at [ls] are printable. *)
Definition printable_names (h : gmap loc (gmap string value)) (ls : list loc) : Prop :=
  Forall (λ l, printable (field h l "name")) ls.

Global Instance printable_names_dec h ls : Decision (printable_names h ls).
Proof. unfold printable_names. apply _. Defined.

(** No identifier of the response is the name of a member of
    [Object.prototype]. *)
Definition ordinary_ids (r : Summaries) : Prop :=
  Forall (λ a, a_id a ∉ Object_prototype) (r_accounts r) ∧
  Forall (λ p, p_id p ∉ Object_prototype) (all_properties r) ∧
  Forall (λ v, v_id v ∉ Object_prototype) (all_profiles r).

Global Instance ordinary_ids_dec r : Decision (ordinary_ids r).
Proof. unfold ordinary_ids. apply _. Defined.

(** ** Further sample responses *)






(** Responses without Accounts: no [items] member, and an empty [items]. *)
Definition no_items : json := JObj [("kind", JStr "analytics#accountSummaries")].
Definition no_accounts : json := JObj [("items", JArr [])].

(** An Account with a Property that has two Profiles and a Property without
    a Profile sequence. *)
Definition two_profiles : json :=
  JObj [("items", JArr [
    JObj [("id", JStr "1234"); ("name", JStr "Acme");
          ("webProperties", JArr [
             JObj [("id", JStr "UA-1234-1"); ("name", JStr "Site");
                   ("profiles", JArr [
                      JObj [("id", JStr "5678"); ("name", JStr "Main View")];
                      JObj [("id", JStr "5679"); ("name", JStr "Test View")]])];
             JObj [("id", JStr "UA-1234-2"); ("name", JStr "Deleted")]])]])].

Definition two_profiles_property : Property :=
  {| p_loc := 5%positive; p_id := "UA-1234-1";
     p_profiles := Some (6%positive, [ {| v_loc := 7%positive; v_id := "5678" |};
                                       {| v_loc := 8%positive; v_id := "5679" |} ]) |}.

Definition two_profiles_account : Account :=
  {| a_loc := 3%positive; a_id := "1234"; a_webProperties := 4%positive;
     a_properties :=
       [ two_profiles_property;
         {| p_loc := 9%positive; p_id := "UA-1234-2"; p_profiles := None |} ] |}.

Definition two_profiles_visited : Summaries :=
  {| r_loc := 1%positive; r_items := 2%positive;
     r_accounts := [ two_profiles_account ] |}.

(** A Property and a Profile with the same identifier. *)
Definition colliding_kinds : json :=
  JObj [("items", JArr [
    JObj [("id", JStr "1234"); ("name", JStr "Acme");
          ("webProperties", JArr [
             JObj [("id", JStr "5678"); ("name", JStr "Site");
                   ("profiles", JArr [
                      JObj [("id", JStr "5678"); ("name", JStr "Main View")]])]])]])].

Definition colliding_kinds_property : Property :=
  {| p_loc := 5%positive; p_id := "5678";
     p_profiles := Some (6%positive, [ {| v_loc := 7%positive; v_id := "5678" |} ]) |}.

Definition colliding_kinds_account : Account :=
  {| a_loc := 3%positive; a_id := "1234"; a_webProperties := 4%positive;
     a_properties := [ colliding_kinds_property ] |}.

Definition colliding_kinds_visited : Summaries :=
  {| r_loc := 1%positive; r_items := 2%positive;
     r_accounts := [ colliding_kinds_account ] |}.

(** An Account whose identifier is the empty string, with a Property behind
    a [null] element. *)
Definition empty_identifier_null : json :=
  JObj [("items", JArr [
    JObj [("id", JStr ""); ("name", JStr "Nameless");
          ("webProperties", JArr [
             JObj [("id", JStr "UA-0-1");
                   ("profiles", JArr [JObj [("id", JStr "77")]])];
             JNull;
             JObj [("id", JStr "UA-0-2");
                   ("profiles", JArr [JObj [("id", JStr "78")]])]])]])].

Definition empty_identifier_null_account : Account :=
  {| a_loc := 3%positive; a_id := ""; a_webProperties := 4%positive;
     a_properties :=
       [ {| p_loc := 5%positive; p_id := "UA-0-1";
            p_profiles := Some (6%positive, [ {| v_loc := 7%positive; v_id := "77" |} ]) |} ] |}.

Definition empty_identifier_null_visited : Summaries :=
  {| r_loc := 1%positive; r_items := 2%positive;
     r_accounts := [ empty_identifier_null_account ] |}.

(* ===================================================================== *)
(** * Properties *)

(** ** Reading and writing slots *)

Lemma field_heap_write_eq h l k v : field (heap_write l k v h) l k = v.
Proof.
  unfold field, heap_write. rewrite lookup_insert_eq. simpl.
  by rewrite lookup_insert_eq.
Qed.

Lemma field_heap_write_ne h l k v l' k' :
  (l, k) ≠ (l', k') → field (heap_write l k v h) l' k' = field h l' k'.
Proof.
  intros Hne. unfold field, heap_write.
  destruct (decide (l = l')) as [->|Hl].
  - rewrite lookup_insert_eq. simpl.
    rewrite lookup_insert_ne by congruence.
    by destruct (h !! l').
  - by rewrite lookup_insert_ne.
Qed.

Lemma read_store_eq w s : read w.1 (store w s) = w.2.
Proof.
  destruct w as [[k|k|l k] v]; unfold store; simpl.
  - by rewrite lookup_insert_eq.
  - by rewrite lookup_insert_eq.
  - apply field_heap_write_eq.
Qed.

Lemma read_store_ne sl w s : w.1 ≠ sl → read sl (store w s) = read sl s.
Proof.
  destruct w as [[k|k|l k] v], sl as [k'|k'|l' k']; unfold store; simpl;
    intros Hne; try done.
  - rewrite lookup_insert_ne; [done | congruence].
  - rewrite lookup_insert_ne; [done | congruence].
  - apply field_heap_write_ne. congruence.
Qed.

Lemma replay_nil s : replay [] s = s.
Proof. done. Qed.

Lemma replay_cons w ws s : replay (w :: ws) s = replay ws (store w s).
Proof. done. Qed.

Lemma replay_app ws1 ws2 s : replay (ws1 ++ ws2) s = replay ws2 (replay ws1 s).
Proof. apply foldl_app. Qed.

Lemma replay_snoc ws w s : replay (ws ++ [w]) s = store w (replay ws s).
Proof. by rewrite replay_app. Qed.

(** A slot that no write of [ws] assigns keeps its value. *)
Lemma read_replay_untouched sl ws s :
  sl ∉ ws.*1 → read sl (replay ws s) = read sl s.
Proof.
  revert s. induction ws as [|w ws IH]; intros s Hnot; [done|].
  rewrite replay_cons. rewrite fmap_cons, not_elem_of_cons in Hnot.
  destruct Hnot as [Hw Hws]. rewrite IH by done. by apply read_store_ne.
Qed.

(** The last write to a slot decides its value. *)
Lemma read_replay_last sl v ws1 ws2 s :
  sl ∉ ws2.*1 → read sl (replay (ws1 ++ (sl, v) :: ws2) s) = v.
Proof.
  intros Hnot. rewrite replay_app, replay_cons, read_replay_untouched by done.
  apply (read_store_eq (sl, v)).
Qed.

(** When all the writes to a slot carry the same value, that is its value. *)
Lemma read_replay_functional sl v ws s :
  (sl, v) ∈ ws → (∀ v', (sl, v') ∈ ws → v' = v) → read sl (replay ws s) = v.
Proof.
  induction ws as [|w ws IH] using rev_ind; intros Hin Hfun.
  - by apply elem_of_nil in Hin.
  - rewrite replay_snoc. destruct (decide (w.1 = sl)) as [<-|Hne].
    + rewrite read_store_eq. apply Hfun.
      rewrite elem_of_app, list_elem_of_singleton. right. by destruct w.
    + rewrite read_store_ne by done. apply IH.
      * apply elem_of_app in Hin as [Hin|Hin]; [done|].
        apply list_elem_of_singleton in Hin. by subst w.
      * intros v' Hv'. apply Hfun. apply elem_of_app. by left.
Qed.

(** Writes to one slot absorb, writes to different slots commute. *)
Lemma heap_write_absorb l k v v' h :
  heap_write l k v (heap_write l k v' h) = heap_write l k v h.
Proof.
  unfold heap_write. rewrite lookup_insert_eq. simpl.
  by rewrite insert_insert_eq, insert_insert_eq.
Qed.

Lemma heap_write_commute l k v l' k' v' h :
  (l, k) ≠ (l', k') →
  heap_write l k v (heap_write l' k' v' h) = heap_write l' k' v' (heap_write l k v h).
Proof.
  intros Hne. unfold heap_write. destruct (decide (l = l')) as [->|Hl].
  - rewrite !lookup_insert_eq. simpl. rewrite !insert_insert_eq.
    f_equal. apply insert_insert_ne. congruence.
  - rewrite !lookup_insert_ne by done.
    by apply insert_insert_ne.
Qed.

Lemma store_absorb w w' s : w.1 = w'.1 → store w (store w' s) = store w s.
Proof.
  destruct w as [[k|k|l k] v], w' as [[k'|k'|l' k'] v']; simpl; intros Heq;
    try discriminate; simplify_eq; unfold store; simpl.
  - by rewrite insert_insert_eq.
  - by rewrite insert_insert_eq.
  - by rewrite heap_write_absorb.
Qed.

Lemma store_commute w w' s : w.1 ≠ w'.1 → store w (store w' s) = store w' (store w s).
Proof.
  destruct w as [[k|k|l k] v], w' as [[k'|k'|l' k'] v']; simpl; intros Hne;
    unfold store; simpl; try done.
  - f_equal. apply insert_insert_ne. congruence.
  - f_equal. apply insert_insert_ne. congruence.
  - f_equal. apply heap_write_commute. congruence.
Qed.

Lemma store_replay_store w ws s :
  store w (replay ws (store w s)) = store w (replay ws s).
Proof.
  induction ws as [|w' ws IH] using rev_ind; [by apply store_absorb|].
  rewrite !replay_snoc. destruct (decide (w.1 = w'.1)) as [Heq|Hne].
  - by rewrite !(store_absorb w w').
  - by rewrite !(store_commute w w'), IH.
Qed.

(** Replaying a list of writes a second time changes nothing. *)
Lemma replay_idempotent ws s : replay ws (replay ws s) = replay ws s.
Proof.
  induction ws as [|w ws IH] using rev_ind; [done|].
  rewrite !replay_snoc, store_replay_store. by rewrite IH.
Qed.

(** ** Loops over a sequence *)

Section for_each_replay.
Context {X : Type}.
Variable P : state → Prop.
Variable next : nat → js value.
Variable body : value → js unit.
Variable elem : X → value.
Variable ws : X → list (slot * value).

(** A loop whose condition yields the truthy elements [elem x] for [x] in
    [xs], and whose body for [x] performs the writes [ws x], performs the
    writes of all of [xs] in order and goes on behind them. *)
Lemma for_each_prefix (xs : list X) : ∀ (i fuel : nat) (s : state),
  P s →
  (∀ j x s', xs !! j = Some x → P s' →
     next (i + j) s' = Ret (elem x) s' ∧ truthy (elem x) = true ∧
     body (elem x) s' = Ret tt (replay (ws x) s') ∧ P (replay (ws x) s')) →
  for_each (length xs + fuel) next body i s
  = for_each fuel next body (i + length xs) (replay (xs ≫= ws) s) ∧
  P (replay (xs ≫= ws) s).
Proof.
  induction xs as [|x xs IH]; intros i fuel s HP Hstep.
  - simpl. by rewrite Nat.add_0_r.
  - destruct (Hstep 0 x s eq_refl HP) as (Hnext & Hx & Hbody & HP').
    rewrite Nat.add_0_r in Hnext.
    rewrite bind_cons, replay_app.
    destruct (IH (S i) fuel (replay (ws x) s)) as [Hloop HP'']; [done|..].
    + intros j y s' Hj Hs'. rewrite Nat.add_succ_comm. by apply Hstep.
    + split; [|done]. simpl. unfold bind at 1. rewrite Hnext, Hx.
      unfold bind at 1. rewrite Hbody, Hloop. by rewrite Nat.add_succ_comm.
Qed.

(** A loop whose condition yields the truthy elements [elem x] for [x] in
    [xs] and then a falsy value, and whose body for [x] performs the writes
    [ws x], performs the writes of all of [xs] in order and returns. *)
Lemma for_each_replay (xs : list X) : ∀ (i fuel : nat) (s : state),
  length xs < fuel →
  P s →
  (∀ j x s', xs !! j = Some x → P s' →
     next (i + j) s' = Ret (elem x) s' ∧ truthy (elem x) = true ∧
     body (elem x) s' = Ret tt (replay (ws x) s') ∧ P (replay (ws x) s')) →
  (∀ s', P s' → ∃ v, next (i + length xs) s' = Ret v s' ∧ truthy v = false) →
  for_each fuel next body i s = Ret tt (replay (xs ≫= ws) s) ∧
  P (replay (xs ≫= ws) s).
Proof.
  induction xs as [|x xs IH]; intros i fuel s Hfuel HP Hstep Hend.
  - destruct fuel as [|fuel]; [simpl in Hfuel; lia|].
    destruct (Hend s HP) as (v & Hnext & Hv). simpl in Hnext.
    rewrite Nat.add_0_r in Hnext. simpl. unfold bind. rewrite Hnext, Hv.
    by split.
  - destruct fuel as [|fuel]; [simpl in Hfuel; lia|].
    destruct (Hstep 0 x s eq_refl HP) as (Hnext & Hx & Hbody & HP').
    rewrite Nat.add_0_r in Hnext.
    rewrite bind_cons, replay_app.
    destruct (IH (S i) fuel (replay (ws x) s)) as [Hloop HP'']; [simpl in Hfuel; lia|done|..].
    + intros j y s' Hj Hs'. rewrite Nat.add_succ_comm. by apply Hstep.
    + intros s' Hs'. rewrite Nat.add_succ_comm. by apply Hend.
    + split; [|done]. simpl. unfold bind at 1. rewrite Hnext, Hx.
      unfold bind at 1. by rewrite Hbody.
Qed.
End for_each_replay.

(** ** Facts and writes of the parts of a response *)

Lemma seq_facts_lookup l xs : ∀ i j x,
  xs !! j = Some x → FIs l (index_key (i + j)) (VObj x) ∈ seq_facts l i xs.
Proof.
  induction xs as [|y xs IH]; intros i j x Hj; [done|].
  destruct j as [|j]; simpl in *.
  - simplify_eq. rewrite Nat.add_0_r. apply list_elem_of_here.
  - apply list_elem_of_further. rewrite <- Nat.add_succ_comm. by apply IH.
Qed.

Lemma seq_elems_lookup l xs : ∀ i j x,
  xs !! j = Some x → FIs l (index_key (i + j)) (VObj x) ∈ seq_elems l i xs.
Proof.
  induction xs as [|y xs IH]; intros i j x Hj; [done|].
  destruct j as [|j]; simpl in *.
  - simplify_eq. rewrite Nat.add_0_r. apply list_elem_of_here.
  - apply list_elem_of_further. rewrite <- Nat.add_succ_comm. by apply IH.
Qed.

Lemma seq_facts_end l xs : ∀ i,
  FFalsy l (index_key (i + length xs)) ∈ seq_facts l i xs.
Proof.
  induction xs as [|y xs IH]; intros i; simpl.
  - rewrite Nat.add_0_r. apply list_elem_of_here.
  - apply list_elem_of_further. rewrite <- Nat.add_succ_comm. apply IH.
Qed.

Lemma account_facts_sub r a f :
  a ∈ r_accounts r → f ∈ account_facts a → f ∈ response_facts r.
Proof.
  intros Ha Hf. unfold response_facts. do 1 apply list_elem_of_further.
  apply elem_of_app. right. apply list_elem_of_bind. eauto.
Qed.

Lemma property_facts_sub a p f :
  p ∈ a_properties a → f ∈ property_facts p → f ∈ account_facts a.
Proof.
  intros Hp Hf. unfold account_facts. do 2 apply list_elem_of_further.
  apply elem_of_app. right. apply list_elem_of_bind. eauto.
Qed.

Lemma profile_facts_sub p l vs v f :
  p_profiles p = Some (l, vs) → v ∈ vs → f ∈ profile_facts v → f ∈ property_facts p.
Proof.
  intros Hp Hv Hf. unfold property_facts. rewrite Hp.
  do 2 apply list_elem_of_further.
  apply elem_of_app. right. apply list_elem_of_bind. eauto.
Qed.

Lemma account_writes_sub r a w :
  a ∈ r_accounts r → w ∈ account_writes a → w ∈ trace r.
Proof. intros Ha Hw. apply list_elem_of_bind. eauto. Qed.

Lemma property_writes_sub a p w :
  p ∈ a_properties a → w ∈ property_writes a p → w ∈ account_writes a.
Proof.
  intros Hp Hw. apply list_elem_of_further. apply list_elem_of_bind. eauto.
Qed.

Lemma profile_writes_sub a p l vs v w :
  p_profiles p = Some (l, vs) → v ∈ vs → w ∈ profile_writes a p v →
  w ∈ property_writes a p.
Proof.
  intros Hp Hv Hw. unfold property_writes. rewrite Hp.
  do 2 apply list_elem_of_further. apply list_elem_of_bind. eauto.
Qed.

Lemma elem_of_trace r w : w ∈ trace r ↔ in_trace r w.
Proof.
  split.
  - intros Hw. apply list_elem_of_bind in Hw as (a & Hw & Ha).
    apply elem_of_cons in Hw as [->|Hw]; [by constructor|].
    apply list_elem_of_bind in Hw as (p & Hw & Hp).
    unfold property_writes in Hw. destruct (p_profiles p) as [[l vs]|] eqn:Hprof.
    2:{ by apply elem_of_nil in Hw. }
    apply elem_of_cons in Hw as [->|Hw]; [by econstructor|].
    apply elem_of_cons in Hw as [->|Hw]; [by econstructor|].
    apply list_elem_of_bind in Hw as (v & Hw & Hv).
    unfold profile_writes in Hw.
    apply elem_of_cons in Hw as [->|Hw]; [by econstructor|].
    apply elem_of_cons in Hw as [->|Hw]; [by econstructor|].
    apply list_elem_of_singleton in Hw as ->. by econstructor.
  - intros Hw. destruct Hw as [a Ha|a p l vs Ha Hp Hprof|a p l vs Ha Hp Hprof
      |a p l vs v Ha Hp Hprof Hv|a p l vs v Ha Hp Hprof Hv|a p l vs v Ha Hp Hprof Hv].
    + apply (account_writes_sub r a); [done|]. apply list_elem_of_here.
    + apply (account_writes_sub r a); [done|]. apply (property_writes_sub a p); [done|].
      unfold property_writes. rewrite Hprof. apply list_elem_of_here.
    + apply (account_writes_sub r a); [done|]. apply (property_writes_sub a p); [done|].
      unfold property_writes. rewrite Hprof. apply list_elem_of_further, list_elem_of_here.
    + apply (account_writes_sub r a); [done|]. apply (property_writes_sub a p); [done|].
      apply (profile_writes_sub a p l vs v); [done..|]. apply list_elem_of_here.
    + apply (account_writes_sub r a); [done|]. apply (property_writes_sub a p); [done|].
      apply (profile_writes_sub a p l vs v); [done..|].
      apply list_elem_of_further, list_elem_of_here.
    + apply (account_writes_sub r a); [done|]. apply (property_writes_sub a p); [done|].
      apply (profile_writes_sub a p l vs v); [done..|].
      do 2 apply list_elem_of_further. apply list_elem_of_here.
Qed.

(** ** Well-formed responses: no write of a build hits a member it reads *)

Lemma seq_facts_slot l xs : ∀ i f, f ∈ seq_facts l i xs → ∃ k, fact_slot f = SHeap l k.
Proof.
  induction xs as [|x xs IH]; intros i f Hf; simpl in Hf.
  - apply list_elem_of_singleton in Hf as ->. by eexists.
  - apply elem_of_cons in Hf as [->|Hf]; [by eexists|]. by apply (IH (S i)).
Qed.

Lemma seq_elems_slot l xs : ∀ i f, f ∈ seq_elems l i xs → ∃ k, fact_slot f = SHeap l k.
Proof.
  induction xs as [|x xs IH]; intros i f Hf; simpl in Hf.
  - by apply elem_of_nil in Hf.
  - apply elem_of_cons in Hf as [->|Hf]; [by eexists|]. by apply (IH (S i)).
Qed.

Lemma elem_of_all_properties r a p :
  a ∈ r_accounts r → p ∈ a_properties a → p ∈ all_properties r.
Proof. intros Ha Hp. apply list_elem_of_bind. eauto. Qed.

Lemma elem_of_all_profiles r a p l vs v :
  a ∈ r_accounts r → p ∈ a_properties a → p_profiles p = Some (l, vs) → v ∈ vs →
  v ∈ all_profiles r.
Proof.
  intros Ha Hp Hprof Hv. apply list_elem_of_bind. exists p. split.
  - unfold property_profiles. by rewrite Hprof.
  - by apply (elem_of_all_properties r a).
Qed.

Lemma elem_of_container_webProperties r a :
  a ∈ r_accounts r → a_webProperties a ∈ container_locs r.
Proof.
  intros Ha. unfold container_locs. do 2 apply list_elem_of_further.
  apply elem_of_app. left. by apply list_elem_of_fmap_2.
Qed.

Lemma elem_of_container_profiles r a p l vs :
  a ∈ r_accounts r → p ∈ a_properties a → p_profiles p = Some (l, vs) →
  l ∈ container_locs r.
Proof.
  intros Ha Hp Hprof. unfold container_locs. do 2 apply list_elem_of_further.
  apply elem_of_app. right. apply list_elem_of_bind. exists p. split.
  - unfold profiles_loc. rewrite Hprof. apply list_elem_of_here.
  - by apply (elem_of_all_properties r a).
Qed.

Lemma response_facts_slot r f : f ∈ response_facts r → read_slot r (fact_slot f).
Proof.
  unfold response_facts. intros Hf.
  apply elem_of_cons in Hf as [->|Hf].
  { apply read_container. apply list_elem_of_here. }
  apply elem_of_app in Hf as [Hf|Hf].
  { apply seq_elems_slot in Hf as [k ->]. apply read_container.
    apply list_elem_of_further, list_elem_of_here. }
  apply list_elem_of_bind in Hf as (a & Hf & Ha). unfold account_facts in Hf.
  assert (a_loc a ∈ account_locs r) as Hla by by apply list_elem_of_fmap_2.
  apply elem_of_cons in Hf as [->|Hf].
  { apply read_account; [done|]. apply list_elem_of_here. }
  apply elem_of_cons in Hf as [->|Hf].
  { apply read_account; [done|]. apply list_elem_of_further, list_elem_of_here. }
  apply elem_of_app in Hf as [Hf|Hf].
  { apply seq_facts_slot in Hf as [k ->]. apply read_container.
    by apply elem_of_container_webProperties. }
  apply list_elem_of_bind in Hf as (p & Hf & Hp). unfold property_facts in Hf.
  assert (p_loc p ∈ property_locs r) as Hlp.
  { apply list_elem_of_fmap_2. by apply (elem_of_all_properties r a). }
  apply elem_of_cons in Hf as [->|Hf].
  { apply read_property; [done|]. apply list_elem_of_here. }
  destruct (p_profiles p) as [[l vs]|] eqn:Hprof.
  2:{ apply list_elem_of_singleton in Hf as ->.
      apply read_property; [done|]. apply list_elem_of_further, list_elem_of_here. }
  apply elem_of_cons in Hf as [->|Hf].
  { apply read_property; [done|]. apply list_elem_of_further, list_elem_of_here. }
  apply elem_of_app in Hf as [Hf|Hf].
  { apply seq_facts_slot in Hf as [k ->]. apply read_container.
    by apply (elem_of_container_profiles r a p l vs). }
  apply list_elem_of_bind in Hf as (v & Hf & Hv).
  apply list_elem_of_singleton in Hf as ->. apply read_profile.
  apply list_elem_of_fmap_2. by apply (elem_of_all_profiles r a p l vs).
Qed.

Lemma well_formed_kinds h r a p :
  well_formed_prefix h r → a ∈ r_accounts r → p ∈ all_properties r → a_loc a ≠ p_loc p.
Proof.
  intros (_ & Hacc & _) Ha Hp Heq. rewrite Forall_forall in Hacc.
  apply (Hacc (a_loc a)); [by apply list_elem_of_fmap_2|].
  apply elem_of_app. left. rewrite Heq. by apply list_elem_of_fmap_2.
Qed.

Lemma well_formed_frame h r w f :
  well_formed_prefix h r → w ∈ trace r → f ∈ response_facts r → w.1 ≠ fact_slot f.
Proof.
  intros (_ & Hacc & Hprop & Hpid & Hvid) Hw Hf.
  rewrite Forall_forall in Hacc. rewrite Forall_forall in Hprop.
  rewrite Forall_forall in Hpid. rewrite Forall_forall in Hvid.
  apply response_facts_slot in Hf. apply elem_of_trace in Hw.
  destruct Hw as [a Ha|a p l vs Ha Hp Hprof|a p l vs Ha Hp Hprof
    |a p l vs v Ha Hp Hprof Hv|a p l vs v Ha Hp Hprof Hv|a p l vs v Ha Hp Hprof Hv];
    simpl; intros Heq; rewrite <- Heq in Hf; inversion Hf as [l' k' Hl|l' k' Hl Hk|l' k' Hl Hk|l' k' Hl];
    subst.
  - apply (Hacc (a_loc a)); [by apply list_elem_of_fmap_2|].
    rewrite !elem_of_app. auto.
  - by apply (Hpid p (elem_of_all_properties r a p Ha Hp)).
  - apply (Hacc (a_loc a)); [by apply list_elem_of_fmap_2|].
    rewrite !elem_of_app. auto.
  - apply (Hacc (a_loc a)); [by apply list_elem_of_fmap_2|].
    rewrite !elem_of_app. auto.
  - apply (Hprop (p_loc p)).
    + apply list_elem_of_fmap_2. by apply (elem_of_all_properties r a).
    + rewrite !elem_of_app. auto.
  - apply (Hacc (p_loc p)); [done|]. rewrite !elem_of_app. left.
    apply list_elem_of_fmap_2. by apply (elem_of_all_properties r a).
  - by apply (Hvid v (elem_of_all_profiles r a p l vs v Ha Hp Hprof Hv)).
  - apply (Hprop (p_loc p)).
    + apply list_elem_of_fmap_2. by apply (elem_of_all_properties r a).
    + rewrite !elem_of_app. auto.
Qed.

(** ** The build replays the trace of the response *)

Section build.
Variable r : Summaries.
Hypothesis Hframe : ∀ w f, w ∈ trace r → f ∈ response_facts r → w.1 ≠ fact_slot f.
Hypothesis Hkinds : ∀ a p, a ∈ r_accounts r → p ∈ all_properties r → a_loc a ≠ p_loc p.

Lemma Inv_is s l k v : Inv r s → FIs l k v ∈ response_facts r → read (SHeap l k) s = v.
Proof. intros HI Hf. by apply (proj1 (Forall_forall _ _) HI _ Hf). Qed.

Lemma Inv_falsy s l k :
  Inv r s → FFalsy l k ∈ response_facts r → truthy (read (SHeap l k) s) = false.
Proof. intros HI Hf. by apply (proj1 (Forall_forall _ _) HI _ Hf). Qed.

Lemma Inv_store s w : Inv r s → w ∈ trace r → Inv r (store w s).
Proof.
  intros HI Hw. apply Forall_forall. intros f Hf.
  assert (w.1 ≠ fact_slot f) as Hne by by apply Hframe.
  pose proof (proj1 (Forall_forall _ _) HI _ Hf) as Hh.
  destruct f as [l k v|l k]; simpl in *.
  - change (read (SHeap l k) (store w s) = v). by rewrite read_store_ne.
  - change (truthy (read (SHeap l k) (store w s)) = false). by rewrite read_store_ne.
Qed.

Lemma Inv_field s l k v : Inv r s → FIs l k v ∈ response_facts r → field (heap s) l k = v.
Proof. apply Inv_is. Qed.
Lemma Inv_field_falsy s l k :
  Inv r s → FFalsy l k ∈ response_facts r → truthy (field (heap s) l k) = false.
Proof. apply Inv_falsy. Qed.

Lemma fact_items : FIs (r_loc r) "items" (VObj (r_items r)) ∈ response_facts r.
Proof. apply list_elem_of_here. Qed.

Lemma fact_items_elem j a :
  r_accounts r !! j = Some a →
  FIs (r_items r) (index_key j) (VObj (a_loc a)) ∈ response_facts r.
Proof.
  intros Hj. apply list_elem_of_further, elem_of_app. left.
  apply (seq_elems_lookup _ _ 0). by rewrite list_lookup_fmap, Hj.
Qed.

Lemma fact_account_id a :
  a ∈ r_accounts r → FIs (a_loc a) "id" (VStr (a_id a)) ∈ response_facts r.
Proof. intros Ha. apply (account_facts_sub r a); [done|]. apply list_elem_of_here. Qed.

Lemma fact_account_webProperties a :
  a ∈ r_accounts r →
  FIs (a_loc a) "webProperties" (VObj (a_webProperties a)) ∈ response_facts r.
Proof.
  intros Ha. apply (account_facts_sub r a); [done|].
  apply list_elem_of_further, list_elem_of_here.
Qed.

Lemma fact_webProperties_elem a j p :
  a ∈ r_accounts r → a_properties a !! j = Some p →
  FIs (a_webProperties a) (index_key j) (VObj (p_loc p)) ∈ response_facts r.
Proof.
  intros Ha Hj. apply (account_facts_sub r a); [done|].
  do 2 apply list_elem_of_further. apply elem_of_app. left.
  apply (seq_facts_lookup _ _ 0). by rewrite list_lookup_fmap, Hj.
Qed.

Lemma fact_webProperties_end a :
  a ∈ r_accounts r →
  FFalsy (a_webProperties a) (index_key (length (a_properties a))) ∈ response_facts r.
Proof.
  intros Ha. apply (account_facts_sub r a); [done|].
  do 2 apply list_elem_of_further. apply elem_of_app. left.
  rewrite <- (length_fmap p_loc). apply (seq_facts_end _ _ 0).
Qed.

Lemma fact_property_id a p :
  a ∈ r_accounts r → p ∈ a_properties a →
  FIs (p_loc p) "id" (VStr (p_id p)) ∈ response_facts r.
Proof.
  intros Ha Hp. apply (account_facts_sub r a); [done|].
  apply (property_facts_sub a p); [done|]. apply list_elem_of_here.
Qed.

Lemma fact_property_skipped a p :
  a ∈ r_accounts r → p ∈ a_properties a → p_profiles p = None →
  FFalsy (p_loc p) "profiles" ∈ response_facts r.
Proof.
  intros Ha Hp Hnone. apply (account_facts_sub r a); [done|].
  apply (property_facts_sub a p); [done|]. unfold property_facts. rewrite Hnone.
  apply list_elem_of_further, list_elem_of_here.
Qed.

Lemma fact_property_profiles a p l vs :
  a ∈ r_accounts r → p ∈ a_properties a → p_profiles p = Some (l, vs) →
  FIs (p_loc p) "profiles" (VObj l) ∈ response_facts r.
Proof.
  intros Ha Hp Hsome. apply (account_facts_sub r a); [done|].
  apply (property_facts_sub a p); [done|]. unfold property_facts. rewrite Hsome.
  apply list_elem_of_further, list_elem_of_here.
Qed.

Lemma fact_profiles_elem a p l vs j v :
  a ∈ r_accounts r → p ∈ a_properties a → p_profiles p = Some (l, vs) →
  vs !! j = Some v →
  FIs l (index_key j) (VObj (v_loc v)) ∈ response_facts r.
Proof.
  intros Ha Hp Hsome Hj. apply (account_facts_sub r a); [done|].
  apply (property_facts_sub a p); [done|]. unfold property_facts. rewrite Hsome.
  do 2 apply list_elem_of_further. apply elem_of_app. left.
  apply (seq_facts_lookup _ _ 0). by rewrite list_lookup_fmap, Hj.
Qed.

Lemma fact_profiles_end a p l vs :
  a ∈ r_accounts r → p ∈ a_properties a → p_profiles p = Some (l, vs) →
  FFalsy l (index_key (length vs)) ∈ response_facts r.
Proof.
  intros Ha Hp Hsome. apply (account_facts_sub r a); [done|].
  apply (property_facts_sub a p); [done|]. unfold property_facts. rewrite Hsome.
  do 2 apply list_elem_of_further. apply elem_of_app. left.
  rewrite <- (length_fmap v_loc). apply (seq_facts_end _ _ 0).
Qed.

Lemma fact_profile_id a p l vs v :
  a ∈ r_accounts r → p ∈ a_properties a → p_profiles p = Some (l, vs) → v ∈ vs →
  FIs (v_loc v) "id" (VStr (v_id v)) ∈ response_facts r.
Proof.
  intros Ha Hp Hsome Hv. apply (account_facts_sub r a); [done|].
  apply (property_facts_sub a p); [done|].
  apply (profile_facts_sub p l vs v); [done..|]. apply list_elem_of_here.
Qed.

Lemma and_impl_r (A B C : Prop) : A ∧ B → (B → C) → A ∧ C.
Proof. tauto. Qed.

Lemma get_prop_obj l k s : get_prop (VObj l) k s = Ret (field (heap s) l k) s.
Proof. done. Qed.
Lemma get_accountTree_read k s : get_accountTree k s = Ret (read (STree k) s) s.
Proof. done. Qed.
Lemma set_prop_obj l k v s : set_prop (VObj l) k v s = Ret tt (store (SHeap l k, v) s).
Proof. done. Qed.
Lemma set_accountTree_store k v s : set_accountTree k v s = Ret tt (store (STree k, v) s).
Proof. done. Qed.
Lemma set_entityIndex_store k v s : set_entityIndex k v s = Ret tt (store (SIndex k, v) s).
Proof. done. Qed.

Ltac step :=
  unfold bind at 1;
  rewrite ?get_prop_obj, ?get_accountTree_read, ?set_prop_obj,
    ?set_accountTree_store, ?set_entityIndex_store;
  cbv beta iota.

Lemma build_outcome fuel s :
  Inv r s → longest r < fuel →
  let n := length (r_accounts r) in
  let s' := replay (trace r) s in
  Inv r s' ∧
  (truthy (field (heap s') (r_items r) (index_key n)) = false →
   buildAccountTreeIndex fuel (VObj (r_loc r)) s = Ret tt s') ∧
  (∀ la,
     field (heap s') (r_items r) (index_key n) = VObj la →
     field (heap s') la "webProperties" = VUndefined →
     buildAccountTreeIndex fuel (VObj (r_loc r)) s
     = Throw TypeError (store (STree (to_key (field (heap s') la "id")), VObj la) s')).
Proof.
  intros HI Hfuel n sf.
  assert (fuel = n + S (fuel - S n)) as Hfuel_eq by (unfold longest in Hfuel; lia).
  unfold buildAccountTreeIndex.
  lazymatch goal with
  | |- context [for_each fuel ?next ?body 0 s] =>
      destruct (for_each_prefix (Inv r) next body (λ a, VObj (a_loc a)) account_writes
                  (r_accounts r) 0 (S (fuel - S n)) s HI) as [Hloop HI']
  end.
  { intros j a s' Hj Hs'. 
    assert (a ∈ r_accounts r) as Ha by (apply list_elem_of_lookup; eauto).
    split.
    { unfold bind. simpl.
      rewrite (Inv_field s' _ _ _ Hs' fact_items). simpl.
      by rewrite (Inv_field s' _ _ _ Hs' (fact_items_elem _ _ Hj)). }
    split; [done|].
    unfold bind at 1. simpl.
    rewrite (Inv_field s' _ _ _ Hs' (fact_account_id _ Ha)).
    unfold bind at 1. simpl.
    change (State (heap s') (<[a_id a:=VObj (a_loc a)]> (accountTree s')) (entityIndex s'))
      with (store (STree (a_id a), VObj (a_loc a)) s').
    eapply and_impl_r;
      [eapply (for_each_replay (λ s, Inv r s ∧ read (STree (a_id a)) s = VObj (a_loc a)))
         with (elem := λ p, VObj (p_loc p)) | by intros [? ?]].
    + unfold longest, account_longest in Hfuel.
      pose proof (max_list_elem_of_le (account_longest a) (account_longest <$> r_accounts r)
                    (list_elem_of_fmap_2 _ _ _ Ha)) as Hle.
      unfold account_longest in Hle. lia.
    + split; [apply Inv_store; [done|] | apply (read_store_eq (STree (a_id a), _))].
      apply (account_writes_sub r a); [done|]. apply list_elem_of_here.
    + intros k p s1 Hk [Hs1 Htree].
      assert (p ∈ a_properties a) as Hp by (apply list_elem_of_lookup; eauto).
      split.
      { unfold bind. simpl.
        rewrite (Inv_field s1 _ _ _ Hs1 (fact_account_webProperties _ Ha)). simpl.
        by rewrite (Inv_field s1 _ _ _ Hs1 (fact_webProperties_elem _ _ _ Ha Hk)). }
      split; [done|].
      destruct (p_profiles p) as [[l vs]|] eqn:Hprof.
      2:{ unfold bind at 1. rewrite get_prop_obj. cbv beta iota.
          rewrite (Inv_field_falsy s1 _ _ Hs1 (fact_property_skipped _ _ Ha Hp Hprof)).
          unfold property_writes. rewrite Hprof. by rewrite replay_nil. }
      pose proof (Inv_field _ _ _ _ Hs1 (fact_account_id _ Ha)) as Haid.
      pose proof (Inv_field _ _ _ _ Hs1 (fact_property_id _ _ Ha Hp)) as Hpid.
      pose proof (Inv_field _ _ _ _ Hs1 (fact_property_profiles _ _ _ _ Ha Hp Hprof)) as Hpp.
      assert (∀ w, w ∈ property_writes a p → w ∈ trace r) as Hsub.
      { intros w Hw. apply (account_writes_sub r a); [done|].
        by apply (property_writes_sub a p). }
      unfold property_writes in *. rewrite Hprof in *.
      set (w1 := (SHeap (a_loc a) (p_id p), VObj (p_loc p))) in *.
      set (w2 := (SIndex ((ACCOUNT_PREFIX +:+ PROPERTY_PREFIX) +:+ p_id p), VStr (a_id a))) in *.
      assert (Inv r (store w1 s1)) as Hs2.
      { apply Inv_store; [done|]. apply Hsub, list_elem_of_here. }
      assert (Inv r (store w2 (store w1 s1))) as Hs3.
      { apply Inv_store; [done|]. apply Hsub, list_elem_of_further, list_elem_of_here. }
      pose proof (Inv_field _ _ _ _ Hs2 (fact_account_id _ Ha)) as Haid2.
      pose proof (Inv_field _ _ _ _ Hs2 (fact_property_id _ _ Ha Hp)) as Hpid2.
      step. rewrite Hpp. cbn [truthy].
      step. rewrite Haid. cbn [to_key].
      step. rewrite Htree.
      step. rewrite Hpid. cbn [to_key].
      step. fold w1.
      step. rewrite Hpid2. cbn [to_key].
      step. rewrite Haid2.
      step. fold w2.
      rewrite !replay_cons.
      assert (a_loc a ≠ p_loc p) as Hap.
      { apply Hkinds; [done|]. apply list_elem_of_bind. eauto. }
      eapply and_impl_r;
        [eapply (for_each_replay (λ s, Inv r s ∧ read (STree (a_id a)) s = VObj (a_loc a) ∧
                                     read (SHeap (a_loc a) (p_id p)) s = VObj (p_loc p)))
           with (elem := λ v, VObj (v_loc v)) | by intros (? & ? & ?)].
      * unfold longest in Hfuel.
        pose proof (max_list_elem_of_le (account_longest a) (account_longest <$> r_accounts r)
                      (list_elem_of_fmap_2 _ _ _ Ha)) as Hle.
        unfold account_longest at 1 in Hle.
        pose proof (max_list_elem_of_le (profiles_length p) (profiles_length <$> a_properties a)
                      (list_elem_of_fmap_2 _ _ _ Hp)) as Hle'.
        unfold profiles_length at 1 in Hle'. rewrite Hprof in Hle'. lia.
      * split; [done|]. split.
        -- rewrite !read_store_ne by done. done.
        -- rewrite read_store_ne by done. apply (read_store_eq w1).
      * intros i v s2 Hi (Hs2' & Htree2 & Hchild).
        assert (v ∈ vs) as Hv by (apply list_elem_of_lookup; eauto).
        split.
        { unfold bind. simpl.
          rewrite (Inv_field _ _ _ _ Hs2' (fact_property_profiles _ _ _ _ Ha Hp Hprof)). simpl.
          by rewrite (Inv_field _ _ _ _ Hs2' (fact_profiles_elem _ _ _ _ _ _ Ha Hp Hprof Hi)). }
        split; [done|].
        assert (∀ w, w ∈ profile_writes a p v → w ∈ trace r) as Hsubv.
        { intros w Hw. apply Hsub. do 2 apply list_elem_of_further.
          apply list_elem_of_bind. eauto. }
        unfold profile_writes in *.
        set (u1 := (SHeap (p_loc p) (v_id v), VObj (v_loc v))) in *.
        set (u2 := (SIndex ((ACCOUNT_PREFIX +:+ PROFILE_PREFIX) +:+ v_id v), VStr (a_id a))) in *.
        set (u3 := (SIndex ((PROPERTY_PREFIX +:+ PROFILE_PREFIX) +:+ v_id v), VStr (p_id p))) in *.
        assert (Inv r (store u1 s2)) as Ht1.
        { apply Inv_store; [done|]. apply Hsubv, list_elem_of_here. }
        assert (Inv r (store u2 (store u1 s2))) as Ht2.
        { apply Inv_store; [done|]. apply Hsubv, list_elem_of_further, list_elem_of_here. }
        assert (Inv r (store u3 (store u2 (store u1 s2)))) as Ht3.
        { apply Inv_store; [done|].
          apply Hsubv, list_elem_of_further, list_elem_of_further, list_elem_of_here. }
        step. rewrite (Inv_field _ _ _ _ Hs2' (fact_account_id _ Ha)). cbn [to_key].
        step. rewrite Htree2.
        step. rewrite (Inv_field _ _ _ _ Hs2' (fact_property_id _ _ Ha Hp)). cbn [to_key].
        step. change (field (heap s2) (a_loc a) (p_id p)) with (read (SHeap (a_loc a) (p_id p)) s2).
        rewrite Hchild.
        step. rewrite (Inv_field _ _ _ _ Hs2' (fact_profile_id _ _ _ _ _ Ha Hp Hprof Hv)).
        cbn [to_key].
        step. fold u1.
        step. rewrite (Inv_field _ _ _ _ Ht1 (fact_profile_id _ _ _ _ _ Ha Hp Hprof Hv)).
        cbn [to_key].
        step. rewrite (Inv_field _ _ _ _ Ht1 (fact_account_id _ Ha)).
        step. fold u2.
        step. rewrite (Inv_field _ _ _ _ Ht2 (fact_profile_id _ _ _ _ _ Ha Hp Hprof Hv)).
        cbn [to_key].
        step. rewrite (Inv_field _ _ _ _ Ht2 (fact_property_id _ _ Ha Hp)).
        fold u3.
        rewrite !replay_cons, replay_nil. split; [done|]. split; [done|]. split.
        -- rewrite !read_store_ne by done. done.
        -- rewrite (read_store_ne _ u3), (read_store_ne _ u2) by done.
           rewrite (read_store_ne _ u1); [done|]. unfold u1. simpl. congruence.
      * intros s2 (Hs2' & _). eexists. split.
        { unfold bind. simpl.
          rewrite (Inv_field _ _ _ _ Hs2' (fact_property_profiles _ _ _ _ Ha Hp Hprof)). simpl.
          reflexivity. }
        apply (Inv_field_falsy _ _ _ Hs2' (fact_profiles_end _ _ _ _ Ha Hp Hprof)).
    + intros s1 (Hs1 & _). eexists. split.
      { unfold bind. simpl.
        rewrite (Inv_field _ _ _ _ Hs1 (fact_account_webProperties _ Ha)). simpl.
        reflexivity. }
      apply (Inv_field_falsy _ _ _ Hs1 (fact_webProperties_end _ Ha)). }
  fold n in Hloop. rewrite <- Hfuel_eq in Hloop. fold (trace r) in Hloop, HI'. fold sf in Hloop, HI'.
  split; [exact HI'|]. split.
  - intros Hend. rewrite Hloop. cbn [for_each]. unfold bind at 1. unfold bind at 1.
    rewrite get_prop_obj, (Inv_field _ _ _ _ HI' fact_items), get_prop_obj.
    change (0 + n) with n. by rewrite Hend.
  - intros la Hla Hwp. rewrite Hloop. cbn [for_each]. unfold bind at 1. unfold bind at 1.
    rewrite get_prop_obj, (Inv_field _ _ _ _ HI' fact_items), get_prop_obj.
    change (0 + n) with n. rewrite Hla. cbn [truthy].
    unfold bind at 1. unfold bind at 1. rewrite get_prop_obj.
    unfold bind at 1. rewrite set_accountTree_store.
    rewrite Hfuel_eq, Nat.add_succ_r. cbn [for_each].
    unfold bind at 1. unfold bind at 1. rewrite get_prop_obj.
    change (heap (store (STree (to_key (field (heap sf) la "id")), VObj la) sf))
      with (heap sf).
    by rewrite Hwp.
Qed.
End build.

(** The heap slots that a build assigns: members of Account objects named
    by a Property identifier, members of Property objects named by a Profile
    identifier. *)
Lemma trace_heap_slot r l k :
  SHeap l k ∈ (trace r).*1 →
  (l ∈ account_locs r ∧ k ∈ p_id <$> all_properties r) ∨
  (l ∈ property_locs r ∧ k ∈ v_id <$> all_profiles r).
Proof.
  intros Hin. apply list_elem_of_fmap in Hin as ([sl v] & Heq & Hin). simpl in Heq. subst sl.
  apply elem_of_trace in Hin.
  inversion Hin as [|a p l' vs Ha Hp Hprof| |a p l' vs v' Ha Hp Hprof Hv| |]; subst.
  - left. split; [by apply list_elem_of_fmap_2|].
    apply list_elem_of_fmap_2. by apply (elem_of_all_properties r a).
  - right. split.
    + apply list_elem_of_fmap_2. by apply (elem_of_all_properties r a).
    + apply list_elem_of_fmap_2. by apply (elem_of_all_profiles r a p l' vs).
Qed.

Lemma container_untouched h r l k :
  well_formed_prefix h r → l ∈ container_locs r → SHeap l k ∉ (trace r).*1.
Proof.
  intros (_ & Hacc & Hprop & _) Hl Hin. rewrite Forall_forall in Hacc.
  rewrite Forall_forall in Hprop.
  apply trace_heap_slot in Hin as [[Hin _]|[Hin _]].
  - apply (Hacc l Hin). rewrite !elem_of_app. auto.
  - apply (Hprop l Hin). rewrite !elem_of_app. auto.
Qed.


Lemma build_well_formed r fuel s :
  well_formed (heap s) r → longest r < fuel →
  buildAccountTreeIndex fuel (VObj (r_loc r)) s = Ret tt (replay (trace r) s) ∧
  well_formed (heap (replay (trace r) s)) r.
Proof.
  intros [Hwf Hend] Hfuel.
  pose proof (λ w f, well_formed_frame (heap s) r w f Hwf) as Hframe.
  pose proof (λ a p, well_formed_kinds (heap s) r a p Hwf) as Hkinds.
  assert (truthy (field (heap (replay (trace r) s)) (r_items r)
                    (index_key (length (r_accounts r)))) = false) as Hend'.
  { change (truthy (read (SHeap (r_items r) (index_key (length (r_accounts r))))
                      (replay (trace r) s)) = false).
    rewrite read_replay_untouched; [done|].
    apply (container_untouched (heap s)); [done|].
    apply list_elem_of_further, list_elem_of_here. }
  destruct Hwf as (Hfacts & Hrest).
  destruct (build_outcome r Hframe Hkinds fuel s Hfacts Hfuel) as (Hfacts' & Hret & _).
  split; [by apply Hret|]. split; [split; [exact Hfacts'|exact Hrest]|exact Hend'].
Qed.


(** ** The resolvers in terms of slots *)

Lemma _getEntityId_read k s :
  _getEntityId k s =
  Ret (if truthy (read (SIndex k) s) then read (SIndex k) s else VStr "") s.
Proof.
  unfold _getEntityId, bind, get_entityIndex, ret. simpl.
  by destruct (truthy _).
Qed.

Lemma getAccount_read accountId s :
  getAccount accountId s =
  if truthy (read (STree (to_key accountId)) s)
  then Ret (read (STree (to_key accountId)) s) s
  else new_object s.
Proof.
  unfold getAccount, bind, get_accountTree. simpl.
  by destruct (truthy _).
Qed.

Lemma _getProperty_read accountId propertyId s :
  _getProperty accountId propertyId s =
  (if truthy (read (STree (to_key accountId)) s)
   then x <- get_prop (read (STree (to_key accountId)) s) (to_key propertyId) ;;
        (if truthy x then ret x else new_object)
   else new_object) s.
Proof.
  unfold _getProperty, bind at 1, get_accountTree. simpl.
  destruct (truthy _) eqn:Ht; [|done].
  unfold bind. simpl.
  destruct (get_prop _ _ s) as [x s'|e s'|] eqn:Hget; [|done..].
  assert (s' = s) as ->.
  { unfold get_prop in Hget. by destruct (default _ _); simplify_eq. }
  destruct (truthy x); [|done]. by rewrite Hget.
Qed.

Lemma get_prop_truthy v k s : truthy v = true → ∃ x, get_prop v k s = Ret x s.
Proof. destruct v; simpl; intros; try done; eauto. Qed.

Lemma new_object_fresh s :
  ∃ l, heap s !! l = None ∧
       new_object s = Ret (VObj l) (State (<[l := ∅]> (heap s)) (accountTree s) (entityIndex s)).
Proof.
  exists (fresh (dom (heap s))). split; [|done].
  apply not_elem_of_dom. apply is_fresh.
Qed.

Lemma field_new_object h l k : field (<[l := ∅]> h) l k = VUndefined.
Proof. unfold field. by rewrite lookup_insert_eq. Qed.

(** ** Pure reads *)

Lemma pure_read_ret v : pure_read (ret v).
Proof. intros s. by exists v, s. Qed.

Lemma pure_read_new_object : pure_read new_object.
Proof.
  intros s. destruct (new_object_fresh s) as (l & Hl & ->).
  eexists _, _. split; [done|]. simpl. split; [done|]. split; [done|].
  by apply insert_subseteq.
Qed.

Lemma pure_read_get_prop v k : truthy v = true → pure_read (get_prop v k).
Proof.
  intros Hv s. destruct (get_prop_truthy v k s Hv) as [x ->]. by exists x, s.
Qed.

Lemma pure_read_bind (m : js value) (f : value → js value) :
  pure_read m → (∀ v, pure_read (f v)) → pure_read (bind m f).
Proof.
  intros Hm Hf s. destruct (Hm s) as (v & s1 & Hms & Ht & Hi & Hh).
  destruct (Hf v s1) as (x & s2 & Hfs & Ht' & Hi' & Hh').
  exists x, s2. unfold bind. rewrite Hms. split; [done|].
  split; [congruence|]. split; [congruence|]. by etrans.
Qed.

Lemma pure_read_truthy_get (m : js value) k :
  pure_read m →
  pure_read (x <- m ;; if truthy x then get_prop x k else new_object).
Proof.
  intros Hm. apply pure_read_bind; [done|]. intros v.
  destruct (truthy v) eqn:Hv; [by apply pure_read_get_prop | apply pure_read_new_object].
Qed.

Lemma pure_read__getEntityId k : pure_read (_getEntityId k).
Proof. intros s. rewrite _getEntityId_read. by eexists _, s. Qed.

Lemma pure_read_getAccount accountId : pure_read (getAccount accountId).
Proof.
  intros s. rewrite getAccount_read. destruct (truthy _).
  - by eexists _, s.
  - apply pure_read_new_object.
Qed.

Lemma pure_read__getProperty accountId propertyId :
  pure_read (_getProperty accountId propertyId).
Proof.
  intros s. rewrite _getProperty_read. destruct (truthy _) eqn:Ht.
  - apply pure_read_bind; [by apply pure_read_get_prop|].
    intros x. destruct (truthy x); [apply pure_read_ret | apply pure_read_new_object].
  - apply pure_read_new_object.
Qed.

Lemma pure_read_getAccountByPropertyId propertyId :
  pure_read (getAccountByPropertyId propertyId).
Proof.
  apply pure_read_bind; [apply pure_read__getEntityId|]. apply pure_read_getAccount.
Qed.

Lemma pure_read_getAccountByProfileId profileId :
  pure_read (getAccountByProfileId profileId).
Proof.
  apply pure_read_bind; [apply pure_read__getEntityId|]. apply pure_read_getAccount.
Qed.

Lemma pure_read_getPropertyByProfileId profileId :
  pure_read (getPropertyByProfileId profileId).
Proof.
  apply pure_read_bind; [apply pure_read__getEntityId|]. intros accountId.
  apply pure_read_bind; [apply pure_read__getEntityId|]. intros propertyId.
  apply pure_read__getProperty.
Qed.

Lemma pure_read_getProperty propertyId : pure_read (getProperty propertyId).
Proof. apply pure_read_truthy_get, pure_read_getAccountByPropertyId. Qed.

Lemma pure_read_getProfile profileId : pure_read (getProfile profileId).
Proof. apply pure_read_truthy_get, pure_read_getPropertyByProfileId. Qed.

(** ** The store after a build *)

Lemma elem_of_owned_properties r a p :
  (a, p) ∈ owned_properties r ↔ a ∈ r_accounts r ∧ p ∈ a_properties a.
Proof.
  unfold owned_properties. rewrite list_elem_of_bind. split.
  - intros (a' & Hin & Ha'). apply list_elem_of_fmap in Hin as (p' & Heq & Hp').
    by simplify_eq.
  - intros [Ha Hp]. exists a. split; [|done]. by apply (list_elem_of_fmap_2 (λ p, (a, p))).
Qed.

Lemma elem_of_owned_profiles r a p v :
  (a, p, v) ∈ owned_profiles r ↔
  a ∈ r_accounts r ∧ p ∈ a_properties a ∧ v ∈ property_profiles p.
Proof.
  unfold owned_profiles. rewrite list_elem_of_bind. split.
  - intros ([a' p'] & Hin & Hap). apply list_elem_of_fmap in Hin as (v' & Heq & Hv').
    simplify_eq. by apply elem_of_owned_properties in Hap as [? ?].
  - intros (Ha & Hp & Hv). exists (a, p). split.
    + by apply (list_elem_of_fmap_2 (λ v, (a, p, v))).
    + by apply elem_of_owned_properties.
Qed.

Lemma unique_account r a a' :
  unique_ids r → a ∈ r_accounts r → a' ∈ r_accounts r → a_id a = a_id a' → a = a'.
Proof.
  intros (Hu & _ & _) Ha Ha'. rewrite Forall_forall in Hu. specialize (Hu a Ha).
  rewrite Forall_forall in Hu. by apply Hu.
Qed.

Lemma unique_property r a p a' p' :
  unique_ids r → a ∈ r_accounts r → p ∈ a_properties a →
  a' ∈ r_accounts r → p' ∈ a_properties a' → p_id p = p_id p' → a = a' ∧ p = p'.
Proof.
  intros (_ & Hu & _) Ha Hp Ha' Hp' Hid. rewrite Forall_forall in Hu.
  specialize (Hu (a, p) (proj2 (elem_of_owned_properties r a p) (conj Ha Hp))).
  rewrite Forall_forall in Hu.
  specialize (Hu (a', p') (proj2 (elem_of_owned_properties r a' p') (conj Ha' Hp')) Hid).
  by simplify_eq.
Qed.

Lemma unique_profile r a p l vs v a' p' l' vs' v' :
  unique_ids r →
  a ∈ r_accounts r → p ∈ a_properties a → p_profiles p = Some (l, vs) → v ∈ vs →
  a' ∈ r_accounts r → p' ∈ a_properties a' → p_profiles p' = Some (l', vs') → v' ∈ vs' →
  v_id v = v_id v' → a = a' ∧ p = p' ∧ v = v'.
Proof.
  intros (_ & _ & Hu) Ha Hp Hprof Hv Ha' Hp' Hprof' Hv' Hid. rewrite Forall_forall in Hu.
  assert ((a, p, v) ∈ owned_profiles r) as Hin.
  { apply elem_of_owned_profiles. unfold property_profiles. by rewrite Hprof. }
  assert ((a', p', v') ∈ owned_profiles r) as Hin'.
  { apply elem_of_owned_profiles. unfold property_profiles. by rewrite Hprof'. }
  specialize (Hu _ Hin). rewrite Forall_forall in Hu. specialize (Hu _ Hin' Hid).
  by simplify_eq.
Qed.

Section final.
Variable r : Summaries.
Variable s : state.
Hypothesis Hwf : well_formed (heap s) r.
Hypothesis Huniq : unique_ids r.

Lemma final_account a :
  a ∈ r_accounts r → read (STree (a_id a)) (replay (trace r) s) = VObj (a_loc a).
Proof.
  intros Ha. apply read_replay_functional.
  - apply elem_of_trace. by constructor.
  - intros v' Hv'. apply elem_of_trace in Hv'. inversion Hv' as [a' Ha' Heq| | | | |]; subst.
    by rewrite (unique_account r a a').
Qed.

Lemma final_account_of_property a p l vs :
  a ∈ r_accounts r → p ∈ a_properties a → p_profiles p = Some (l, vs) →
  read (SIndex ((ACCOUNT_PREFIX +:+ PROPERTY_PREFIX) +:+ p_id p)) (replay (trace r) s)
  = VStr (a_id a).
Proof.
  intros Ha Hp Hprof. apply read_replay_functional.
  - apply elem_of_trace. by econstructor.
  - intros v' Hv'. apply elem_of_trace in Hv'.
    inversion Hv' as [|
      |a' p' l' vs' Ha' Hp' Hprof' Heq| |a' p' l' vs' v Ha' Hp' Hprof' Hv Heq
      |a' p' l' vs' v Ha' Hp' Hprof' Hv Heq]; simpl in Heq; simplify_eq.
    by destruct (unique_property r a p a' p') as [-> _].
Qed.

Lemma final_account_of_profile a p l vs v :
  a ∈ r_accounts r → p ∈ a_properties a → p_profiles p = Some (l, vs) → v ∈ vs →
  read (SIndex ((ACCOUNT_PREFIX +:+ PROFILE_PREFIX) +:+ v_id v)) (replay (trace r) s)
  = VStr (a_id a).
Proof.
  intros Ha Hp Hprof Hv. apply read_replay_functional.
  - apply elem_of_trace. by econstructor.
  - intros x Hx. apply elem_of_trace in Hx.
    inversion Hx as [|
      |a' p' l' vs' Ha' Hp' Hprof' Heq| |a' p' l' vs' v' Ha' Hp' Hprof' Hv' Heq
      |a' p' l' vs' v' Ha' Hp' Hprof' Hv' Heq]; simpl in Heq; simplify_eq.
    by destruct (unique_profile r a p l vs v a' p' l' vs' v') as (-> & _ & _).
Qed.

Lemma final_property_of_profile a p l vs v :
  a ∈ r_accounts r → p ∈ a_properties a → p_profiles p = Some (l, vs) → v ∈ vs →
  read (SIndex ((PROPERTY_PREFIX +:+ PROFILE_PREFIX) +:+ v_id v)) (replay (trace r) s)
  = VStr (p_id p).
Proof.
  intros Ha Hp Hprof Hv. apply read_replay_functional.
  - apply elem_of_trace. by econstructor.
  - intros x Hx. apply elem_of_trace in Hx.
    inversion Hx as [|
      |a' p' l' vs' Ha' Hp' Hprof' Heq| |a' p' l' vs' v' Ha' Hp' Hprof' Hv' Heq
      |a' p' l' vs' v' Ha' Hp' Hprof' Hv' Heq]; simpl in Heq; simplify_eq.
    by destruct (unique_profile r a p l vs v a' p' l' vs' v') as (_ & -> & _).
Qed.

Lemma final_property a p l vs :
  a ∈ r_accounts r → p ∈ a_properties a → p_profiles p = Some (l, vs) →
  read (SHeap (a_loc a) (p_id p)) (replay (trace r) s) = VObj (p_loc p).
Proof.
  intros Ha Hp Hprof. apply read_replay_functional.
  - apply elem_of_trace. by econstructor.
  - intros x Hx. apply elem_of_trace in Hx.
    inversion Hx as [|a' p' l' vs' Ha' Hp' Hprof' Heq| |a' p' l' vs' v' Ha' Hp' Hprof' Hv' Heq
      | |]; simplify_eq.
    + by destruct (unique_property r a p a' p') as [_ ->].
    + destruct (well_formed_kinds (heap s) r a p' (proj1 Hwf) Ha); [|congruence].
      apply list_elem_of_bind. eauto.
Qed.

Lemma final_resolves_ancestors : resolves_ancestors r (replay (trace r) s).
Proof.
  intros a p l vs v Ha Hp Hprof Hv.
  pose proof (final_account a Ha) as Htree.
  assert (∀ k, read (SIndex k) (replay (trace r) s) = VStr (a_id a) →
               getAccount (if truthy (read (SIndex k) (replay (trace r) s))
                           then read (SIndex k) (replay (trace r) s) else VStr "")
                          (replay (trace r) s)
               = Ret (VObj (a_loc a)) (replay (trace r) s)) as Hacc.
  { intros k Hk. rewrite Hk.
    assert ((if truthy (VStr (a_id a)) then VStr (a_id a) else VStr "") = VStr (a_id a)) as ->.
    { simpl. destruct (String.eqb_spec (a_id a) ""); simpl; congruence. }
    rewrite getAccount_read. simpl to_key. by rewrite Htree. }
  split; [|split].
  - unfold getAccountByPropertyId, bind. rewrite _getEntityId_read. simpl to_key.
    apply Hacc. by eapply final_account_of_property.
  - unfold getAccountByProfileId, bind. rewrite _getEntityId_read. simpl to_key.
    apply Hacc. by eapply final_account_of_profile.
  - unfold getPropertyByProfileId, bind. rewrite !_getEntityId_read. simpl to_key.
    rewrite (final_account_of_profile a p l vs v), (final_property_of_profile a p l vs v) by done.
    assert (∀ x, to_key (if truthy (VStr x) then VStr x else VStr "") = x) as Hkey.
    { intros x. simpl. by destruct (String.eqb_spec x "") as [->|]. }
    rewrite _getProperty_read, !Hkey, Htree.
    change (truthy (VObj (a_loc a))) with true. cbv beta iota.
    unfold bind. rewrite get_prop_obj.
    change (field (heap (replay (trace r) s)) (a_loc a) (p_id p))
      with (read (SHeap (a_loc a) (p_id p)) (replay (trace r) s)).
    by rewrite (final_property a p l vs).
Qed.
End final.

(** ** Misses *)

Lemma getAccount_miss accountId s :
  truthy (read (STree (to_key accountId)) s) = false →
  returns_empty (getAccount accountId) s.
Proof.
  intros Hmiss. unfold returns_empty. rewrite getAccount_read, Hmiss.
  apply new_object_fresh.
Qed.

Lemma returns_empty_then_undefined (m : js value) k s :
  returns_empty m s →
  returns_undefined (x <- m ;; if truthy x then get_prop x k else new_object) s.
Proof.
  intros (l & Hl & Hm). unfold returns_undefined, bind. rewrite Hm. simpl.
  rewrite field_new_object. eauto.
Qed.

Lemma getAccountByPropertyId_miss propertyId s :
  truthy (read (SIndex ((ACCOUNT_PREFIX +:+ PROPERTY_PREFIX) +:+ to_key propertyId)) s) = false →
  truthy (read (STree "") s) = false →
  returns_empty (getAccountByPropertyId propertyId) s.
Proof.
  intros Hmiss Hno. unfold returns_empty, getAccountByPropertyId, bind.
  rewrite _getEntityId_read, Hmiss. by apply getAccount_miss.
Qed.

Lemma getAccountByProfileId_miss profileId s :
  truthy (read (SIndex ((ACCOUNT_PREFIX +:+ PROFILE_PREFIX) +:+ to_key profileId)) s) = false →
  truthy (read (STree "") s) = false →
  returns_empty (getAccountByProfileId profileId) s.
Proof.
  intros Hmiss Hno. unfold returns_empty, getAccountByProfileId, bind.
  rewrite _getEntityId_read, Hmiss. by apply getAccount_miss.
Qed.

Lemma getPropertyByProfileId_miss profileId s :
  truthy (read (SIndex ((ACCOUNT_PREFIX +:+ PROFILE_PREFIX) +:+ to_key profileId)) s) = false →
  truthy (read (STree "") s) = false →
  returns_empty (getPropertyByProfileId profileId) s.
Proof.
  intros Hmiss Hno. unfold returns_empty, getPropertyByProfileId, bind.
  rewrite !_getEntityId_read, Hmiss, _getProperty_read.
  change (to_key (VStr "")) with "". rewrite Hno.
  apply new_object_fresh.
Qed.

Lemma getProperty_miss propertyId s :
  truthy (read (SIndex ((ACCOUNT_PREFIX +:+ PROPERTY_PREFIX) +:+ to_key propertyId)) s) = false →
  truthy (read (STree "") s) = false →
  returns_undefined (getProperty propertyId) s.
Proof.
  intros Hmiss Hno. by apply returns_empty_then_undefined, getAccountByPropertyId_miss.
Qed.

Lemma getProfile_miss profileId s :
  truthy (read (SIndex ((ACCOUNT_PREFIX +:+ PROFILE_PREFIX) +:+ to_key profileId)) s) = false →
  truthy (read (STree "") s) = false →
  returns_undefined (getProfile profileId) s.
Proof.
  intros Hmiss Hno. by apply returns_empty_then_undefined, getPropertyByProfileId_miss.
Qed.

(** ** Writes to the index and the resolvers *)

Lemma composite_key_ne R R' x y : R ≠ R' → composite_key R x ≠ composite_key R' y.
Proof. destruct R, R'; intros Hne; try done; discriminate. Qed.

Lemma getAccount_after_write accountId k v s :
  getAccount accountId (store (SIndex k, v) s)
  = after_write (SIndex k, v) (getAccount accountId s).
Proof.
  rewrite !getAccount_read.
  change (read (STree (to_key accountId)) (store (SIndex k, v) s))
    with (read (STree (to_key accountId)) s).
  by destruct (truthy _).
Qed.

Lemma _getProperty_after_write accountId propertyId k v s :
  _getProperty accountId propertyId (store (SIndex k, v) s)
  = after_write (SIndex k, v) (_getProperty accountId propertyId s).
Proof.
  rewrite !_getProperty_read.
  change (read (STree (to_key accountId)) (store (SIndex k, v) s))
    with (read (STree (to_key accountId)) s).
  destruct (truthy _); [|done]. unfold bind.
  destruct (read (STree (to_key accountId)) s); try done; simpl.
  - by destruct (truthy _).
  - by destruct (truthy _).
Qed.

Lemma _getEntityId_after_write k' k v s :
  k ≠ k' →
  _getEntityId k' (store (SIndex k, v) s) = after_write (SIndex k, v) (_getEntityId k' s).
Proof.
  intros Hne. rewrite !_getEntityId_read.
  rewrite (read_store_ne (SIndex k') (SIndex k, v)); [done|]. simpl. congruence.
Qed.

(** ** Slots that a build assigns *)

Lemma trace_tree_slot r k :
  STree k ∈ (trace r).*1 → k ∈ a_id <$> r_accounts r.
Proof.
  intros Hin. apply list_elem_of_fmap in Hin as ([sl v] & Heq & Hin). simpl in Heq. subst sl.
  apply elem_of_trace in Hin. inversion Hin; subst. by apply list_elem_of_fmap_2.
Qed.

Lemma trace_property_slot r x :
  SIndex (composite_key AccountOfProperty (VStr x)) ∈ (trace r).*1 →
  x ∈ p_id <$> all_properties r.
Proof.
  intros Hin. apply list_elem_of_fmap in Hin as ([sl v] & Heq & Hin). simpl in Heq. subst sl.
  apply elem_of_trace in Hin.
  inversion Hin as [| |a p l vs Ha Hp Hprof Heq| | |]; simplify_eq.
  apply list_elem_of_fmap_2'  with p; [|done]. apply list_elem_of_bind. eauto.
Qed.

Lemma trace_profile_slot r x :
  SIndex (composite_key AccountOfProfile (VStr x)) ∈ (trace r).*1 →
  x ∈ v_id <$> (all_properties r ≫= property_profiles).
Proof.
  intros Hin. apply list_elem_of_fmap in Hin as ([sl w] & Heq & Hin). simpl in Heq. subst sl.
  apply elem_of_trace in Hin.
  inversion Hin as [| | | |a p l vs v Ha Hp Hprof Hv Heq|]; simplify_eq.
  apply list_elem_of_fmap_2' with v; [|done]. apply list_elem_of_bind. exists p. split.
  - unfold property_profiles. by rewrite Hprof.
  - apply list_elem_of_bind. eauto.
Qed.

Lemma property_writes_slot a p w k : w ∈ property_writes a p → w.1 ≠ STree k.
Proof.
  unfold property_writes. destruct (p_profiles p) as [[l vs]|]; intros Hw.
  - apply elem_of_cons in Hw as [->|Hw]; [done|].
    apply elem_of_cons in Hw as [->|Hw]; [done|].
    apply list_elem_of_bind in Hw as (v & Hw & _). unfold profile_writes in Hw.
    apply elem_of_cons in Hw as [->|Hw]; [done|].
    apply elem_of_cons in Hw as [->|Hw]; [done|].
    by apply list_elem_of_singleton in Hw as ->.
  - by apply elem_of_nil in Hw.
Qed.

Lemma tree_slot_not_in_properties a ps k :
  STree k ∉ (ps ≫= property_writes a).*1.
Proof.
  intros Hin. apply list_elem_of_fmap in Hin as (w & Heq & Hin).
  apply list_elem_of_bind in Hin as (p & Hw & _).
  by apply (property_writes_slot a p w k).
Qed.

Lemma tree_slot_in_accounts accounts k :
  STree k ∈ (accounts ≫= account_writes).*1 → k ∈ a_id <$> accounts.
Proof.
  apply (trace_tree_slot {| r_loc := 1%positive; r_items := 1%positive; r_accounts := accounts |}).
Qed.

(** The last Account record with a given identifier is the one in the tree. *)
Lemma last_account_wins r s (before : list Account) a (later : list Account) :
  r_accounts r = (before ++ a :: later)%list → a_id a ∉ a_id <$> later →
  read (STree (a_id a)) (replay (trace r) s) = VObj (a_loc a).
Proof.
  intros Hsplit Hlast. unfold trace. rewrite Hsplit, bind_app, bind_cons.
  unfold account_writes at 2. rewrite <- app_comm_cons.
  apply read_replay_last. rewrite fmap_app, not_elem_of_app. split.
  - apply tree_slot_not_in_properties.
  - intros Hin. by apply Hlast, tree_slot_in_accounts.
Qed.

(** An index entry that reads as a string is an entry of the map. *)
Lemma index_lookup_of_read k s x :
  read (SIndex k) s = VStr x → entityIndex s !! k = Some (VStr x).
Proof. unfold read. by destruct (entityIndex s !! k) as [v|]; simpl; [intros ->|]. Qed.

(* ===================================================================== *)
(** * The claims *)

(** C1 (the code departs from the claim).  A Property whose Profile sequence
    is an empty array is not skipped: the test [if (property.profiles)] is
    true for every array.  After building [empty_profiles], the Property
    "UA-1234-2" (profiles: []) is stored in the Tree under its Account, has an
    Account-of-Property entry, and [getProperty] returns its record.  The
    Property "UA-1234-3", which has no [profiles] member, is skipped. *)
Theorem empty_profile_sequence_is_indexed :
  ∃ s, run_build 3 empty_profiles = Ret tt s ∧
       field (heap s) 3%positive "id" = VStr "1234" ∧
       field (heap s) 5%positive "id" = VStr "UA-1234-2" ∧
       field (heap s) 3%positive "UA-1234-2" = VObj 5%positive ∧
       entityIndex s !! "apUA-1234-2" = Some (VStr "1234") ∧
       getProperty (VStr "UA-1234-2") s = Ret (VObj 5%positive) s ∧
       field (heap s) 3%positive "UA-1234-3" = VUndefined ∧
       entityIndex s !! "apUA-1234-3" = None ∧
       returns_undefined (getProperty (VStr "UA-1234-3")) s.
Proof.
  exists (final_state (run_build 3 empty_profiles)).
  do 8 (split; [vm_compute; reflexivity|]).
  apply getProperty_miss; vm_compute; reflexivity.
Qed.

(** C2, as stated, fails: with two Account records of the same identifier
    (which a build accepts, the later one replacing the earlier one in the
    Tree), the Property of the first Account resolves to the second
    Account.  The response is [duplicate_accounts]. *)
Lemma duplicate_identifiers_break_ancestors :
  ¬ (∀ r fuel s s',
       well_formed (heap s) r →
       buildAccountTreeIndex fuel (VObj (r_loc r)) s = Ret tt s' →
       resolves_ancestors r s').
Proof.
  intros Hclaim.
  specialize (Hclaim duplicate_accounts_visited 3 (load duplicate_accounts).2
                (final_state (run_build 3 duplicate_accounts))).
  assert (well_formed (heap (load duplicate_accounts).2) duplicate_accounts_visited) as Hwf.
  { apply (bool_decide_unpack _). vm_compute. exact I. }
  specialize (Hclaim Hwf). clear Hwf.
  assert (buildAccountTreeIndex 3 (VObj (r_loc duplicate_accounts_visited))
            (load duplicate_accounts).2
          = Ret tt (final_state (run_build 3 duplicate_accounts))) as Hbuild.
  { vm_compute. reflexivity. }
  specialize (Hclaim Hbuild). clear Hbuild.
  destruct (Hclaim
    {| a_loc := 3%positive; a_id := "1234"; a_webProperties := 4%positive;
       a_properties :=
         [ {| p_loc := 5%positive; p_id := "UA-1234-1";
              p_profiles := Some (6%positive, [ {| v_loc := 7%positive; v_id := "5678" |} ]) |} ] |}
    {| p_loc := 5%positive; p_id := "UA-1234-1";
       p_profiles := Some (6%positive, [ {| v_loc := 7%positive; v_id := "5678" |} ]) |}
    6%positive [ {| v_loc := 7%positive; v_id := "5678" |} ]
    {| v_loc := 7%positive; v_id := "5678" |}) as (Hacc & _ & _).
  - apply list_elem_of_here.
  - apply list_elem_of_here.
  - reflexivity.
  - apply list_elem_of_here.
  - apply (f_equal (λ o, match o with Ret (VObj l) _ => l | _ => 1%positive end)) in Hacc.
    vm_compute in Hacc. discriminate.
Qed.

(** C2, amended.  On a well-formed response whose identifiers are unique
    within their kind, after a build: for every Account A, every Property P
    of A that has a Profile sequence and every Profile V of P,
    [getAccountByPropertyId(P.id)] and [getAccountByProfileId(V.id)] return
    the object of A, and [getPropertyByProfileId(V.id)] returns the object of
    P. *)
Theorem unique_identifiers_resolve_ancestors r fuel s :
  well_formed (heap s) r → unique_ids r → longest r < fuel →
  ∃ s', buildAccountTreeIndex fuel (VObj (r_loc r)) s = Ret tt s' ∧
        resolves_ancestors r s'.
Proof.
  intros Hwf Huniq Hfuel. exists (replay (trace r) s). split.
  - by apply build_well_formed.
  - by apply final_resolves_ancestors.
Qed.

(** C2, an instance: the scenario response. *)
Lemma unique_identifiers_resolve_ancestors_witness :
  well_formed (heap (load scenario).2) scenario_visited ∧
  unique_ids scenario_visited ∧
  longest scenario_visited < 2 ∧
  ∃ s', buildAccountTreeIndex 2 (VObj (r_loc scenario_visited)) (load scenario).2 = Ret tt s' ∧
        resolves_ancestors scenario_visited s'.
Proof.
  assert (well_formed (heap (load scenario).2) scenario_visited) as Hwf.
  { apply (bool_decide_unpack _). vm_compute. exact I. }
  assert (unique_ids scenario_visited) as Huniq.
  { apply (bool_decide_unpack _). vm_compute. exact I. }
  assert (longest scenario_visited < 2) as Hfuel.
  { vm_compute. lia. }
  split; [done|]. split; [done|]. split; [done|].
  by apply unique_identifiers_resolve_ancestors.
Defined.

(** C3 (the code departs from the claim).  On a miss only [getAccount]
    returns an empty record.  [getProperty] and [getProfile] test the result
    of the ancestor lookup, which is an object in every case, and so return
    a member of a new empty object: [undefined].  Shown after building
    [scenario], for identifiers that were never inserted, and after building
    [empty_profiles], for the identifier of the skipped Property. *)
Theorem property_and_profile_miss_return_undefined :
  (∃ s, run_build 2 scenario = Ret tt s ∧
        returns_empty (getAccount (VStr "9999")) s ∧
        returns_undefined (getProperty (VStr "UA-9999-1")) s ∧
        returns_undefined (getProfile (VStr "9999")) s ∧
        ¬ returns_empty (getProperty (VStr "UA-9999-1")) s ∧
        ¬ returns_empty (getProfile (VStr "9999")) s) ∧
  (∃ s, run_build 3 empty_profiles = Ret tt s ∧
        returns_undefined (getProperty (VStr "UA-1234-3")) s ∧
        ¬ returns_empty (getProperty (VStr "UA-1234-3")) s).
Proof.
  assert (∀ (m : js value) s, returns_undefined m s → ¬ returns_empty m s) as Hneq.
  { intros m s [s' Hu] (l & _ & He). congruence. }
  split.
  - exists (final_state (run_build 2 scenario)).
    split; [vm_compute; reflexivity|].
    split; [apply getAccount_miss; vm_compute; reflexivity|].
    split; [apply getProperty_miss; vm_compute; reflexivity|].
    split; [apply getProfile_miss; vm_compute; reflexivity|].
    split; apply Hneq.
    + apply getProperty_miss; vm_compute; reflexivity.
    + apply getProfile_miss; vm_compute; reflexivity.
  - exists (final_state (run_build 3 empty_profiles)).
    split; [vm_compute; reflexivity|].
    split; [|apply Hneq]; apply getProperty_miss; vm_compute; reflexivity.
Qed.




(** C5.  The scenario of the specification: one Account ("1234", "Acme")
    with one Property ("UA-1234-1") holding one Profile ("5678",
    "Main View"). *)
Theorem scenario_lookups :
  ∃ s, run_build 2 scenario = Ret tt s ∧
       member (getAccount (VStr "1234")) "name" s = Ret (VStr "Acme") s ∧
       member (getAccountByPropertyId (VStr "UA-1234-1")) "id" s = Ret (VStr "1234") s ∧
       member (getPropertyByProfileId (VStr "5678")) "id" s = Ret (VStr "UA-1234-1") s ∧
       member (getProfile (VStr "5678")) "name" s = Ret (VStr "Main View") s ∧
       returns_empty (getAccount (VStr "9999")) s.
Proof.
  exists (final_state (run_build 2 scenario)).
  do 5 (split; [vm_compute; reflexivity|]).
  apply getAccount_miss. vm_compute. reflexivity.
Qed.

(** C6.  On a well-formed response a second build from the same response
    returns and leaves the store exactly as the first build left it (every
    assignment of the second build writes what is there already), so each of
    the six resolvers gives the same result after two builds as after one,
    for every identifier. *)
Theorem build_twice_same_store r fuel s :
  well_formed (heap s) r → longest r < fuel →
  ∃ s1 s2,
    buildAccountTreeIndex fuel (VObj (r_loc r)) s = Ret tt s1 ∧
    buildAccountTreeIndex fuel (VObj (r_loc r)) s1 = Ret tt s2 ∧
    s2 = s1 ∧
    ∀ id, getAccount id s2 = getAccount id s1 ∧
          getProperty id s2 = getProperty id s1 ∧
          getProfile id s2 = getProfile id s1 ∧
          getAccountByPropertyId id s2 = getAccountByPropertyId id s1 ∧
          getAccountByProfileId id s2 = getAccountByProfileId id s1 ∧
          getPropertyByProfileId id s2 = getPropertyByProfileId id s1.
Proof.
  intros Hwf Hfuel.
  destruct (build_well_formed r fuel s Hwf Hfuel) as [Hfirst Hwf1].
  destruct (build_well_formed r fuel _ Hwf1 Hfuel) as [Hsecond _].
  rewrite replay_idempotent in Hsecond.
  exists (replay (trace r) s), (replay (trace r) s). done.
Qed.

(** C6, an instance: the scenario response. *)
Lemma build_twice_same_store_witness :
  well_formed (heap (load scenario).2) scenario_visited ∧
  longest scenario_visited < 2 ∧
  ∃ s1 s2,
    buildAccountTreeIndex 2 (VObj (r_loc scenario_visited)) (load scenario).2 = Ret tt s1 ∧
    buildAccountTreeIndex 2 (VObj (r_loc scenario_visited)) s1 = Ret tt s2 ∧
    s2 = s1 ∧
    ∀ id, getAccount id s2 = getAccount id s1 ∧
          getProperty id s2 = getProperty id s1 ∧
          getProfile id s2 = getProfile id s1 ∧
          getAccountByPropertyId id s2 = getAccountByPropertyId id s1 ∧
          getAccountByProfileId id s2 = getAccountByProfileId id s1 ∧
          getPropertyByProfileId id s2 = getPropertyByProfileId id s1.
Proof.
  assert (well_formed (heap (load scenario).2) scenario_visited) as Hwf.
  { apply (bool_decide_unpack _). vm_compute. exact I. }
  assert (longest scenario_visited < 2) as Hfuel.
  { vm_compute. lia. }
  split; [done|]. split; [done|].
  by apply build_twice_same_store.
Defined.

(** C7.  On a well-formed response in which two Account records carry the
    same identifier, the build returns (no error), and [getAccount] on that
    identifier returns the record that comes last in the input: the later
    record has replaced the earlier one in the Tree. *)
Theorem duplicate_account_last_wins r fuel s
    (before : list Account) a1 (between : list Account) a2 (later : list Account) :
  well_formed (heap s) r → longest r < fuel →
  r_accounts r = (before ++ a1 :: between ++ a2 :: later)%list →
  a_id a1 = a_id a2 →
  a_id a2 ∉ a_id <$> later →
  ∃ s', buildAccountTreeIndex fuel (VObj (r_loc r)) s = Ret tt s' ∧
        getAccount (VStr (a_id a1)) s' = Ret (VObj (a_loc a2)) s'.
Proof.
  intros Hwf Hfuel Hsplit Hid Hlast. exists (replay (trace r) s). split.
  - by apply build_well_formed.
  - rewrite getAccount_read, Hid. cbn [to_key].
    rewrite (last_account_wins r s (before ++ a1 :: between) a2 later); [done| |done].
    by rewrite Hsplit, <- app_assoc.
Qed.

(** C7, an instance: in [duplicate_accounts] the second record with
    identifier "1234" (the object at location 8) is the one returned. *)
Lemma duplicate_account_last_wins_witness :
  well_formed (heap (load duplicate_accounts).2) duplicate_accounts_visited ∧
  longest duplicate_accounts_visited < 3 ∧
  ∃ s', buildAccountTreeIndex 3 (VObj (r_loc duplicate_accounts_visited))
          (load duplicate_accounts).2 = Ret tt s' ∧
        getAccount (VStr "1234") s' = Ret (VObj 8%positive) s'.
Proof.
  assert (well_formed (heap (load duplicate_accounts).2) duplicate_accounts_visited) as Hwf.
  { apply (bool_decide_unpack _). vm_compute. exact I. }
  assert (longest duplicate_accounts_visited < 3) as Hfuel.
  { vm_compute. lia. }
  split; [done|]. split; [done|].
  apply (duplicate_account_last_wins duplicate_accounts_visited 3 (load duplicate_accounts).2
           []
           {| a_loc := 3%positive; a_id := "1234"; a_webProperties := 4%positive;
              a_properties :=
                [ {| p_loc := 5%positive; p_id := "UA-1234-1";
                     p_profiles :=
                       Some (6%positive, [ {| v_loc := 7%positive; v_id := "5678" |} ]) |} ] |}
           []
           {| a_loc := 8%positive; a_id := "1234"; a_webProperties := 9%positive;
              a_properties := [] |}
           []); [done|done|reflexivity|reflexivity|].
  simpl. apply not_elem_of_nil.
Defined.

(** C8, as stated, fails in its last part: [getPropertyByProfileId] does not
    consult the Property-of-Profile relation only.  It reads the
    Account-of-Profile entry as well, to find the Account under which the
    Property is stored, so a write to Account-of-Profile changes what it
    returns.  After building [scenario], with the Account-of-Profile entry
    of "5678" replaced, the Property of the Profile "5678" is no longer
    found. *)
Lemma property_of_profile_reads_account_of_profile :
  ¬ (∀ (x y : string) v s,
       getPropertyByProfileId (VStr x)
         (store (SIndex (composite_key AccountOfProfile (VStr y)), v) s)
       = after_write (SIndex (composite_key AccountOfProfile (VStr y)), v)
           (getPropertyByProfileId (VStr x) s)).
Proof.
  intros H.
  specialize (H "5678" "5678" (VStr "4321") (final_state (run_build 2 scenario))).
  apply (f_equal (λ o, match o with Ret v _ => v | _ => VUndefined end)) in H.
  vm_compute in H. discriminate H.
Qed.

(** C8, amended.  The composite keys of the three relations never coincide,
    whatever the identifier strings: keys of different relations differ in
    their two-letter prefix.  So an entry written for one relation never
    replaces an entry of another relation, also when the identifiers are
    equal; after a build of a well-formed response whose identifiers are
    unique within their kind (they may coincide across kinds) every Property
    with a Profile sequence has its Account-of-Property entry and every
    Profile its Account-of-Profile and Property-of-Profile entries.  A lookup
    is not affected by the entries of the relations it does not read:
    [getAccountByPropertyId] depends on Account-of-Property only,
    [getAccountByProfileId] on Account-of-Profile only, and
    [getPropertyByProfileId] on the two relations of Profiles
    (Account-of-Profile and Property-of-Profile), not on
    Account-of-Property. *)
Theorem index_keys_disjoint :
  (∀ R R' (x y : string), R ≠ R' →
     composite_key R (VStr x) ≠ composite_key R' (VStr y)) ∧
  (∀ R R' (x y : string) v s, R ≠ R' →
     read (SIndex (composite_key R (VStr x)))
       (store (SIndex (composite_key R' (VStr y)), v) s)
     = read (SIndex (composite_key R (VStr x))) s) ∧
  (∀ r fuel s,
     well_formed (heap s) r → unique_ids r → longest r < fuel →
     ∃ s', buildAccountTreeIndex fuel (VObj (r_loc r)) s = Ret tt s' ∧
       ∀ a p l vs,
         a ∈ r_accounts r → p ∈ a_properties a → p_profiles p = Some (l, vs) →
         entityIndex s' !! composite_key AccountOfProperty (VStr (p_id p))
         = Some (VStr (a_id a)) ∧
         ∀ v, v ∈ vs →
           entityIndex s' !! composite_key AccountOfProfile (VStr (v_id v))
           = Some (VStr (a_id a)) ∧
           entityIndex s' !! composite_key PropertyOfProfile (VStr (v_id v))
           = Some (VStr (p_id p))) ∧
  (∀ R' (x y : string) v s, R' ≠ AccountOfProperty →
     getAccountByPropertyId (VStr x) (store (SIndex (composite_key R' (VStr y)), v) s)
     = after_write (SIndex (composite_key R' (VStr y)), v)
         (getAccountByPropertyId (VStr x) s)) ∧
  (∀ R' (x y : string) v s, R' ≠ AccountOfProfile →
     getAccountByProfileId (VStr x) (store (SIndex (composite_key R' (VStr y)), v) s)
     = after_write (SIndex (composite_key R' (VStr y)), v)
         (getAccountByProfileId (VStr x) s)) ∧
  (∀ (x y : string) v s,
     getPropertyByProfileId (VStr x)
       (store (SIndex (composite_key AccountOfProperty (VStr y)), v) s)
     = after_write (SIndex (composite_key AccountOfProperty (VStr y)), v)
         (getPropertyByProfileId (VStr x) s)).
Proof.
  split; [|split; [|split; [|split; [|split]]]].
  - intros R R' x y. apply composite_key_ne.
  - intros R R' x y v s Hne. apply read_store_ne. simpl.
    intros [= Heq]. by apply (composite_key_ne R' R (VStr y) (VStr x)).
  - intros r fuel s Hwf Huniq Hfuel. exists (replay (trace r) s).
    split; [by apply build_well_formed|].
    intros a p l vs Ha Hp Hprof. split.
    + apply index_lookup_of_read.
      by apply (final_account_of_property r s Huniq a p l vs).
    + intros v Hv. split; apply index_lookup_of_read.
      * by apply (final_account_of_profile r s Huniq a p l vs v).
      * by apply (final_property_of_profile r s Huniq a p l vs v).
  - intros R' x y v s Hne. unfold getAccountByPropertyId, bind.
    change ((ACCOUNT_PREFIX +:+ PROPERTY_PREFIX) +:+ to_key (VStr x))
      with (composite_key AccountOfProperty (VStr x)).
    rewrite _getEntityId_after_write by by apply composite_key_ne.
    rewrite !_getEntityId_read. cbn [after_write]. apply getAccount_after_write.
  - intros R' x y v s Hne. unfold getAccountByProfileId, bind.
    change ((ACCOUNT_PREFIX +:+ PROFILE_PREFIX) +:+ to_key (VStr x))
      with (composite_key AccountOfProfile (VStr x)).
    rewrite _getEntityId_after_write by by apply composite_key_ne.
    rewrite !_getEntityId_read. cbn [after_write]. apply getAccount_after_write.
  - intros x y v s. unfold getPropertyByProfileId, bind.
    change ((ACCOUNT_PREFIX +:+ PROFILE_PREFIX) +:+ to_key (VStr x))
      with (composite_key AccountOfProfile (VStr x)).
    change ((PROPERTY_PREFIX +:+ PROFILE_PREFIX) +:+ to_key (VStr x))
      with (composite_key PropertyOfProfile (VStr x)).
    rewrite (_getEntityId_after_write (composite_key AccountOfProfile (VStr x)))
      by by apply composite_key_ne.
    rewrite !(_getEntityId_read (composite_key AccountOfProfile (VStr x))). cbn [after_write].
    rewrite (_getEntityId_after_write (composite_key PropertyOfProfile (VStr x)))
      by by apply composite_key_ne.
    rewrite !_getEntityId_read. cbn [after_write]. apply _getProperty_after_write.
Qed.

(** C8, an instance: in [colliding_kinds] a Property and a Profile carry the
    same identifier "5678".  The three keys of "5678" differ, the build
    leaves all three entries in the index, and writing another
    Account-of-Property entry for "5678" changes neither the
    Account-of-Profile entry nor what [getAccountByProfileId] returns. *)
Lemma index_keys_disjoint_witness :
  composite_key AccountOfProperty (VStr "5678")
    ≠ composite_key AccountOfProfile (VStr "5678") ∧
  composite_key AccountOfProperty (VStr "5678")
    ≠ composite_key PropertyOfProfile (VStr "5678") ∧
  well_formed (heap (load colliding_kinds).2) colliding_kinds_visited ∧
  unique_ids colliding_kinds_visited ∧
  longest colliding_kinds_visited < 2 ∧
  ∃ s',
    buildAccountTreeIndex 2 (VObj 1%positive) (load colliding_kinds).2 = Ret tt s' ∧
    entityIndex s' !! composite_key AccountOfProperty (VStr "5678") = Some (VStr "1234") ∧
    entityIndex s' !! composite_key AccountOfProfile (VStr "5678") = Some (VStr "1234") ∧
    entityIndex s' !! composite_key PropertyOfProfile (VStr "5678") = Some (VStr "5678") ∧
    let w := (SIndex (composite_key AccountOfProperty (VStr "5678")), VStr "4321") in
    read (SIndex (composite_key AccountOfProfile (VStr "5678"))) (store w s') = VStr "1234" ∧
    getAccountByProfileId (VStr "5678") (store w s')
    = after_write w (getAccountByProfileId (VStr "5678") s').
Proof.
  destruct index_keys_disjoint as (Hkeys & Hread & Hbuild & _ & Hprofile & _).
  assert (well_formed (heap (load colliding_kinds).2) colliding_kinds_visited) as Hwf.
  { apply (bool_decide_unpack _). vm_compute. exact I. }
  assert (unique_ids colliding_kinds_visited) as Huniq.
  { apply (bool_decide_unpack _). vm_compute. exact I. }
  assert (longest colliding_kinds_visited < 2) as Hfuel.
  { vm_compute. lia. }
  split; [by apply Hkeys|]. split; [by apply Hkeys|].
  split; [exact Hwf|]. split; [exact Huniq|]. split; [exact Hfuel|].
  destruct (Hbuild colliding_kinds_visited 2 (load colliding_kinds).2 Hwf Huniq Hfuel)
    as (s' & Hrun & Hentries).
  destruct (Hentries colliding_kinds_account colliding_kinds_property 6%positive
              [ {| v_loc := 7%positive; v_id := "5678" |} ]
              (list_elem_of_here _ _) (list_elem_of_here _ _) eq_refl) as [Hap Hvs].
  destruct (Hvs {| v_loc := 7%positive; v_id := "5678" |} (list_elem_of_here _ _))
    as [Hav Hpv].
  exists s'. split; [exact Hrun|]. split; [exact Hap|]. split; [exact Hav|].
  split; [exact Hpv|]. intros w. split.
  - unfold w. rewrite (Hread AccountOfProfile AccountOfProperty) by done.
    exact (f_equal (default VUndefined) Hav).
  - by apply (Hprofile AccountOfProperty).
Defined.

(** C9.  Each of the six resolvers is a pure read, for every argument and in
    every store: it returns (it never throws), [accountTree] and
    [entityIndex] are unchanged, and every object of the heap is unchanged;
    the only effect is the new empty object that a miss returns. *)
Theorem resolvers_are_pure_reads (id : value) :
  pure_read (getAccount id) ∧
  pure_read (getProperty id) ∧
  pure_read (getProfile id) ∧
  pure_read (getAccountByPropertyId id) ∧
  pure_read (getAccountByProfileId id) ∧
  pure_read (getPropertyByProfileId id).
Proof.
  repeat split.
  - apply pure_read_getAccount.
  - apply pure_read_getProperty.
  - apply pure_read_getProfile.
  - apply pure_read_getAccountByPropertyId.
  - apply pure_read_getAccountByProfileId.
  - apply pure_read_getPropertyByProfileId.
Qed.

(** C10, as stated, fails: a lookup on the identifier of a record that was
    never indexed need not miss.  A miss in the index is looked up in the
    tree under the empty string, so when an Account carries the empty string
    as identifier, the ancestor lookups return that Account for the records
    behind a falsy element.  In [empty_identifier_null] the Property
    "UA-0-2" sits behind a [null]; it is not indexed, and still
    [getAccountByPropertyId] does not return an empty object for it: it
    returns the Account (the object at location 3). *)
Lemma empty_identifier_answers_for_unindexed :
  ¬ (∀ r fuel h a j lb x,
       well_formed h r → longest r < fuel →
       a ∈ r_accounts r → length (a_properties a) < j →
       field h (a_webProperties a) (index_key j) = VObj lb → field h lb "id" = VStr x →
       x ∉ p_id <$> all_properties r →
       ∃ s', buildAccountTreeIndex fuel (VObj (r_loc r)) (State h ∅ ∅) = Ret tt s' ∧
             returns_empty (getAccountByPropertyId (VStr x)) s').
Proof.
  intros H.
  destruct (H empty_identifier_null_visited 2 (heap (load empty_identifier_null).2)
              empty_identifier_null_account 2 8%positive "UA-0-2")
    as (s' & Hrun & l & Hfresh & Hget).
  - apply (bool_decide_unpack _). vm_compute. exact I.
  - vm_compute. lia.
  - apply list_elem_of_here.
  - vm_compute. lia.
  - vm_compute. reflexivity.
  - vm_compute. reflexivity.
  - apply (bool_decide_unpack _). vm_compute. exact I.
  - apply (f_equal final_state) in Hrun. cbn [final_state] in Hrun. subst s'.
    apply (f_equal (λ o, match o with Ret v _ => v | _ => VUndefined end)) in Hget.
    vm_compute in Hget. injection Hget as <-.
    apply (f_equal (λ o, match o with Some _ => true | None => false end)) in Hfresh.
    vm_compute in Hfresh. discriminate Hfresh.
Qed.

(** C10, amended.  A build visits each sequence up to its first falsy
    element only.  [well_formed h r] fixes the records [r] in front of the
    first falsy element of every sequence and leaves open what the arrays
    hold behind it; the build performs the writes of [r] and no others.  So
    a record that sits behind a falsy element of [items], of a
    [webProperties] or of a [profiles] sequence is never indexed.  The
    resolvers miss on its identifier under these conditions: no visited
    record of its kind carries the same identifier; no identifier of a
    visited record names a member of [Object.prototype]; for [getAccount],
    [getProperty] and [getProfile], which look the identifier itself up in
    an object, the identifier names no member of [Object.prototype]; and for
    the lookups of Properties and Profiles no Account has the empty string
    as identifier.  Then, on a script started with an empty tree and index,
    [getAccount] returns an empty object for such an Account; for such a
    Property [getAccountByPropertyId] returns an empty object and
    [getProperty] returns [undefined]; for such a Profile
    [getAccountByProfileId] and [getPropertyByProfileId] return an empty
    object and [getProfile] returns [undefined]. *)
Theorem records_after_falsy_entry_not_indexed r fuel h :
  well_formed h r → ordinary_ids r → longest r < fuel →
  ∃ s',
    buildAccountTreeIndex fuel (VObj (r_loc r)) (State h ∅ ∅) = Ret tt s' ∧
    s' = replay (trace r) (State h ∅ ∅) ∧
    (∀ j lb x,
       length (r_accounts r) < j →
       field h (r_items r) (index_key j) = VObj lb → field h lb "id" = VStr x →
       x ∉ a_id <$> r_accounts r → x ∉ Object_prototype →
       returns_empty (getAccount (VStr x)) s') ∧
    (∀ a j lb x,
       a ∈ r_accounts r → length (a_properties a) < j →
       field h (a_webProperties a) (index_key j) = VObj lb → field h lb "id" = VStr x →
       x ∉ p_id <$> all_properties r → "" ∉ a_id <$> r_accounts r →
       returns_empty (getAccountByPropertyId (VStr x)) s' ∧
       (x ∉ Object_prototype → returns_undefined (getProperty (VStr x)) s')) ∧
    (∀ a p l vs j lb x,
       a ∈ r_accounts r → p ∈ a_properties a → p_profiles p = Some (l, vs) →
       length vs < j →
       field h l (index_key j) = VObj lb → field h lb "id" = VStr x →
       x ∉ v_id <$> (all_properties r ≫= property_profiles) →
       "" ∉ a_id <$> r_accounts r →
       returns_empty (getAccountByProfileId (VStr x)) s' ∧
       returns_empty (getPropertyByProfileId (VStr x)) s' ∧
       (x ∉ Object_prototype → returns_undefined (getProfile (VStr x)) s')).
Proof.
  intros Hwf _ Hfuel. exists (replay (trace r) (State h ∅ ∅)).
  split; [by apply build_well_formed|]. split; [done|].
  assert (∀ x, x ∉ a_id <$> r_accounts r →
               truthy (read (STree x) (replay (trace r) (State h ∅ ∅))) = false) as Htree.
  { intros x Hx. rewrite read_replay_untouched; [done|].
    intros Hin. by apply Hx, trace_tree_slot. }
  split; [|split].
  - intros j lb x _ _ _ Hx _. apply getAccount_miss. by apply Htree.
  - intros a j lb x _ _ _ _ Hx Hempty.
    assert (truthy (read (SIndex (composite_key AccountOfProperty (VStr x)))
                      (replay (trace r) (State h ∅ ∅))) = false) as Hmiss.
    { rewrite read_replay_untouched; [done|].
      intros Hin. by apply Hx, trace_property_slot. }
    split.
    + apply getAccountByPropertyId_miss; [done|by apply Htree].
    + intros _. apply getProperty_miss; [done|by apply Htree].
  - intros a p l vs j lb x _ _ _ _ _ _ Hx Hempty.
    assert (truthy (read (SIndex (composite_key AccountOfProfile (VStr x)))
                      (replay (trace r) (State h ∅ ∅))) = false) as Hmiss.
    { rewrite read_replay_untouched; [done|].
      intros Hin. by apply Hx, trace_profile_slot. }
    split; [|split].
    + apply getAccountByProfileId_miss; [done|by apply Htree].
    + apply getPropertyByProfileId_miss; [done|by apply Htree].
    + intros _. apply getProfile_miss; [done|by apply Htree].
Qed.

(** C10, an instance: in [null_entries] the Account "4321", the Property
    "UA-1234-2" and the Profile "5679" sit behind a [null]. *)
Lemma records_after_falsy_entry_not_indexed_witness :
  well_formed (heap (load null_entries).2) null_entries_visited ∧
  ordinary_ids null_entries_visited ∧
  longest null_entries_visited < 2 ∧
  ("4321" ∉ Object_prototype) ∧ ("UA-1234-2" ∉ Object_prototype) ∧
  ("5679" ∉ Object_prototype) ∧
  ∃ s',
    buildAccountTreeIndex 2 (VObj 1%positive) (State (heap (load null_entries).2) ∅ ∅)
    = Ret tt s' ∧
    returns_empty (getAccount (VStr "4321")) s' ∧
    returns_empty (getAccountByPropertyId (VStr "UA-1234-2")) s' ∧
    returns_undefined (getProperty (VStr "UA-1234-2")) s' ∧
    returns_empty (getAccountByProfileId (VStr "5679")) s' ∧
    returns_empty (getPropertyByProfileId (VStr "5679")) s' ∧
    returns_undefined (getProfile (VStr "5679")) s'.
Proof.
  assert (well_formed (heap (load null_entries).2) null_entries_visited) as Hwf.
  { apply (bool_decide_unpack _). vm_compute. exact I. }
  assert (ordinary_ids null_entries_visited) as Hord.
  { apply (bool_decide_unpack _). vm_compute. exact I. }
  assert (longest null_entries_visited < 2) as Hfuel.
  { vm_compute. lia. }
  assert ("4321" ∉ Object_prototype) as Hn1.
  { apply (bool_decide_unpack _). vm_compute. exact I. }
  assert ("UA-1234-2" ∉ Object_prototype) as Hn2.
  { apply (bool_decide_unpack _). vm_compute. exact I. }
  assert ("5679" ∉ Object_prototype) as Hn3.
  { apply (bool_decide_unpack _). vm_compute. exact I. }
  split; [done|]. split; [done|]. split; [done|].
  split; [done|]. split; [done|]. split; [done|].
  destruct (records_after_falsy_entry_not_indexed null_entries_visited 2
              (heap (load null_entries).2) Hwf Hord Hfuel)
    as (s' & Hbuild & _ & Haccount & Hproperty & Hprofile).
  exists s'. split; [exact Hbuild|].
  assert ("" ∉ a_id <$> r_accounts null_entries_visited) as Hempty.
  { apply (bool_decide_unpack _). vm_compute. exact I. }
  split.
  { apply (Haccount 2 12%positive "4321").
    - vm_compute. lia.
    - vm_compute. reflexivity.
    - vm_compute. reflexivity.
    - apply (bool_decide_unpack _). vm_compute. exact I.
    - exact Hn1. }
  destruct (Hproperty
    {| a_loc := 3%positive; a_id := "1234"; a_webProperties := 4%positive;
       a_properties :=
         [ {| p_loc := 5%positive; p_id := "UA-1234-1";
              p_profiles := Some (6%positive, [ {| v_loc := 7%positive; v_id := "5678" |} ]) |} ] |}
    2 9%positive "UA-1234-2") as [Hp1 Hp2].
  { apply list_elem_of_here. }
  { vm_compute. lia. }
  { vm_compute. reflexivity. }
  { vm_compute. reflexivity. }
  { apply (bool_decide_unpack _). vm_compute. exact I. }
  { exact Hempty. }
  split; [exact Hp1|]. split; [exact (Hp2 Hn2)|].
  destruct (Hprofile
    {| a_loc := 3%positive; a_id := "1234"; a_webProperties := 4%positive;
       a_properties :=
         [ {| p_loc := 5%positive; p_id := "UA-1234-1";
              p_profiles := Some (6%positive, [ {| v_loc := 7%positive; v_id := "5678" |} ]) |} ] |}
    {| p_loc := 5%positive; p_id := "UA-1234-1";
       p_profiles := Some (6%positive, [ {| v_loc := 7%positive; v_id := "5678" |} ]) |}
    6%positive [ {| v_loc := 7%positive; v_id := "5678" |} ] 2 8%positive "5679")
    as (Hv1 & Hv2 & Hv3).
  - apply list_elem_of_here.
  - apply list_elem_of_here.
  - reflexivity.
  - vm_compute. lia.
  - vm_compute. reflexivity.
  - vm_compute. reflexivity.
  - apply (bool_decide_unpack _). vm_compute. exact I.
  - exact Hempty.
  - split; [exact Hv1|]. split; [exact Hv2|]. exact (Hv3 Hn3).
Defined.

(* ===================================================================== *)
(** * Further lemmas *)

(** ** Entries that a sequence of writes leaves alone *)

Lemma accountTree_replay_untouched k ws : ∀ s,
  STree k ∉ ws.*1 → accountTree (replay ws s) !! k = accountTree s !! k.
Proof.
  induction ws as [|[sl v] ws IH]; intros s Hk; [done|].
  rewrite replay_cons, IH by (intros ?; apply Hk; by right).
  destruct sl as [k'| |]; try done. unfold store; simpl.
  apply lookup_insert_ne. intros ->. apply Hk. by left.
Qed.

Lemma entityIndex_replay_untouched k ws : ∀ s,
  SIndex k ∉ ws.*1 → entityIndex (replay ws s) !! k = entityIndex s !! k.
Proof.
  induction ws as [|[sl v] ws IH]; intros s Hk; [done|].
  rewrite replay_cons, IH by (intros ?; apply Hk; by right).
  destruct sl as [|k'|]; try done. unfold store; simpl.
  apply lookup_insert_ne. intros ->. apply Hk. by left.
Qed.


(** An Account-of-Property entry, and a member of an Account object, is
    assigned for a Property that has a Profile sequence only. *)
Lemma trace_property_slot_kept r x :
  SIndex (composite_key AccountOfProperty (VStr x)) ∈ (trace r).*1 →
  ∃ a p l vs, a ∈ r_accounts r ∧ p ∈ a_properties a ∧ p_profiles p = Some (l, vs) ∧
              p_id p = x.
Proof.
  intros Hin. apply list_elem_of_fmap in Hin as ([sl v] & Heq & Hin). simpl in Heq. subst sl.
  apply elem_of_trace in Hin.
  inversion Hin as [| |a p l vs Ha Hp Hprof Heq| | |]; simplify_eq.
  by exists a, p, l, vs.
Qed.

Lemma trace_account_member_kept h r a k :
  well_formed_prefix h r → a ∈ r_accounts r → SHeap (a_loc a) k ∈ (trace r).*1 →
  ∃ a' p l vs, a' ∈ r_accounts r ∧ p ∈ a_properties a' ∧ p_profiles p = Some (l, vs) ∧
               p_id p = k.
Proof.
  intros Hwf Ha Hin.
  apply list_elem_of_fmap in Hin as ([sl v] & Heq & Hin). simpl in Heq. subst sl.
  apply elem_of_trace in Hin.
  inversion Hin as [|a' p' l' vs' Ha' Hp' Hprof' Heq| |a' p' l' vs' v' Ha' Hp' Hprof' Hv' Heq
    | |]; simplify_eq.
  - by exists a', p', l', vs'.
  - destruct (well_formed_kinds h r a p' Hwf Ha); [|congruence].
    by apply (elem_of_all_properties r a').
Qed.

(** Writes of the trace keep the members that a build reads. *)
Lemma Inv_replay r ws s :
  (∀ w f, w ∈ trace r → f ∈ response_facts r → w.1 ≠ fact_slot f) →
  (∀ w, w ∈ ws → w ∈ trace r) → Inv r s → Inv r (replay ws s).
Proof.
  intros Hframe. revert s. induction ws as [|w ws IH]; intros s Hsub HInv; [done|].
  rewrite replay_cons. apply IH.
  - intros w' Hw'. apply Hsub. by right.
  - apply (Inv_store r Hframe); [done|]. apply Hsub. by left.
Qed.

Lemma well_formed_prefix_heap h h' r :
  well_formed_prefix h r → Forall (holds h') (response_facts r) → well_formed_prefix h' r.
Proof. intros (_ & H) Hfacts. by split. Qed.

Lemma lookup_of_read k s l :
  read (STree k) s = VObj l → accountTree s !! k = Some (VObj l).
Proof. unfold read. by destruct (accountTree s !! k) as [v|]; simpl; [intros ->|]. Qed.

(** ** Entities after a build *)

Section entities.
Variable r : Summaries.
Variable s : state.
Hypothesis Hwf : well_formed (heap s) r.
Hypothesis Huniq : unique_ids r.

Lemma final_profile a p l vs v :
  a ∈ r_accounts r → p ∈ a_properties a → p_profiles p = Some (l, vs) → v ∈ vs →
  read (SHeap (p_loc p) (v_id v)) (replay (trace r) s) = VObj (v_loc v).
Proof.
  intros Ha Hp Hprof Hv. apply read_replay_functional.
  - apply elem_of_trace. by econstructor.
  - intros x Hx. apply elem_of_trace in Hx.
    inversion Hx as [|a' p' l' vs' Ha' Hp' Hprof' Heq| |a' p' l' vs' v' Ha' Hp' Hprof' Hv' Heq
      | |]; simplify_eq.
    + destruct (well_formed_kinds (heap s) r a' p (proj1 Hwf) Ha'); [|congruence].
      by apply (elem_of_all_properties r a).
    + by destruct (unique_profile r a p l vs v a' p' l' vs' v') as (_ & _ & ->).
Qed.

Lemma final_getAccount a :
  a ∈ r_accounts r →
  getAccount (VStr (a_id a)) (replay (trace r) s) = Ret (VObj (a_loc a)) (replay (trace r) s).
Proof.
  intros Ha. rewrite getAccount_read. cbn [to_key].
  by rewrite (final_account r s Huniq a Ha).
Qed.

Lemma final_getAccountByPropertyId a p l vs :
  a ∈ r_accounts r → p ∈ a_properties a → p_profiles p = Some (l, vs) →
  getAccountByPropertyId (VStr (p_id p)) (replay (trace r) s)
  = Ret (VObj (a_loc a)) (replay (trace r) s).
Proof.
  intros Ha Hp Hprof. unfold getAccountByPropertyId, bind.
  rewrite _getEntityId_read. cbn [to_key].
  rewrite (final_account_of_property r s Huniq a p l vs Ha Hp Hprof).
  assert ((if truthy (VStr (a_id a)) then VStr (a_id a) else VStr "") = VStr (a_id a)) as ->.
  { simpl. destruct (String.eqb_spec (a_id a) ""); simpl; congruence. }
  by apply final_getAccount.
Qed.

Lemma final_getProperty a p l vs :
  a ∈ r_accounts r → p ∈ a_properties a → p_profiles p = Some (l, vs) →
  getProperty (VStr (p_id p)) (replay (trace r) s)
  = Ret (VObj (p_loc p)) (replay (trace r) s).
Proof.
  intros Ha Hp Hprof. unfold getProperty, bind.
  rewrite (final_getAccountByPropertyId a p l vs Ha Hp Hprof).
  cbn [truthy to_key]. rewrite get_prop_obj.
  change (field (heap (replay (trace r) s)) (a_loc a) (p_id p))
    with (read (SHeap (a_loc a) (p_id p)) (replay (trace r) s)).
  by rewrite (final_property r s Hwf Huniq a p l vs).
Qed.

Lemma final_getProfile a p l vs v :
  a ∈ r_accounts r → p ∈ a_properties a → p_profiles p = Some (l, vs) → v ∈ vs →
  getProfile (VStr (v_id v)) (replay (trace r) s)
  = Ret (VObj (v_loc v)) (replay (trace r) s).
Proof.
  intros Ha Hp Hprof Hv. unfold getProfile, bind.
  destruct (final_resolves_ancestors r s Hwf Huniq a p l vs v Ha Hp Hprof Hv) as (_ & _ & ->).
  cbn [truthy to_key]. rewrite get_prop_obj.
  change (field (heap (replay (trace r) s)) (p_loc p) (v_id v))
    with (read (SHeap (p_loc p) (v_id v)) (replay (trace r) s)).
  by rewrite (final_profile a p l vs v).
Qed.

End entities.

(** ** Strings and joined markup *)

Lemma string_app_cons (x : Ascii.ascii) (a b : string) :
  String x a +:+ b = String x (a +:+ b).
Proof. reflexivity. Qed.

Lemma string_app_nil_l (a : string) : "" +:+ a = a.
Proof. reflexivity. Qed.

Lemma string_app_assoc (a b c : string) : (a +:+ b) +:+ c = a +:+ (b +:+ c).
Proof.
  induction a as [|x a IH]; [done|]. by rewrite !string_app_cons, IH.
Qed.

Lemma string_app_nil_r (a : string) : a +:+ "" = a.
Proof. induction a as [|x a IH]; [done|]. by rewrite string_app_cons, IH. Qed.

Lemma string_app_nonempty_r (a b : string) : b ≠ "" → a +:+ b ≠ "".
Proof. destruct a; [done|]. by rewrite string_app_cons. Qed.

Lemma string_app_eq_l (a b : string) : a +:+ b = a → b = "".
Proof.
  induction a as [|x a IH]; [done|]. rewrite string_app_cons. intros [= Heq]. by apply IH.
Qed.

Lemma join_app (l1 l2 : list value) : join (l1 ++ l2) = join l1 +:+ join l2.
Proof.
  induction l1 as [|v l1 IH]; [done|].
  change (join ((v :: l1) ++ l2)) with (join_item v +:+ join (l1 ++ l2)).
  change (join (v :: l1)) with (join_item v +:+ join l1).
  by rewrite IH, string_app_assoc.
Qed.

Lemma join_close_nonempty (html : list value) : join (html ++ [VStr "</select>"]) ≠ "".
Proof. rewrite join_app. by apply string_app_nonempty_r. Qed.

Lemma truthy_joined (html : list value) :
  truthy (VStr (join (html ++ [VStr "</select>"]))) = true.
Proof.
  simpl. apply negb_true_iff, String.eqb_neq, join_close_nonempty.
Qed.

Lemma foldr_append_app (l1 l2 : list string) (t : string) :
  foldr String.append t (l1 ++ l2) = foldr String.append "" l1 +:+ foldr String.append t l2.
Proof.
  induction l1 as [|x l1 IH]; [done|].
  cbn [foldr app]. by rewrite IH, string_app_assoc.
Qed.

Lemma foldr_append_tail (l : list string) (t : string) :
  foldr String.append "" l +:+ t = foldr String.append t l.
Proof. by rewrite <- (app_nil_r l) at 2; rewrite foldr_append_app. Qed.

(** The joined markup of a list that a loop extends by the items of one
    element at a time. *)
Lemma join_foldl {X} (g : X → list value → list value) (ms : X → list string) :
  (∀ x acc, join (g x acc) = join acc +:+ foldr String.append "" (ms x)) →
  ∀ xs init,
    join (foldl (λ acc x, g x acc) init xs)
    = join init +:+ foldr String.append "" (xs ≫= ms).
Proof.
  intros Hg. induction xs as [|x xs IH]; intros init.
  - cbn [foldl mbind list_bind foldr]. by rewrite string_app_nil_r.
  - rewrite bind_cons. cbn [foldl].
    by rewrite IH, Hg, string_app_assoc, foldr_append_app.
Qed.

Lemma join_property_items h p html :
  join (property_items h p html)
  = join html +:+ foldr String.append ""
      (match p_profiles p with
       | None => []
       | Some _ => [option_markup (VStr (p_id p)) (field h (p_loc p) "name")]
       end).
Proof.
  unfold property_items. destruct (p_profiles p).
  - rewrite !join_app. cbn [foldr]. unfold option_markup, join. cbn [foldr join_item to_key].
    by rewrite !string_app_assoc, !string_app_nil_r.
  - cbn [foldr]. by rewrite string_app_nil_r.
Qed.

Lemma join_profile_items h v html :
  join (profile_items h v html)
  = join html +:+ foldr String.append ""
      [option_markup (VStr (v_id v)) (field h (v_loc v) "name")].
Proof.
  unfold profile_items. rewrite join_app. cbn [foldr].
  unfold option_markup, join. cbn [foldr join_item to_key].
  by rewrite !string_app_assoc, !string_app_nil_r.
Qed.

Lemma join_select selector (options : list string) (html : list value) :
  join html = join [VStr ("<select id=" +:+ DQUOTE); VStr selector; VStr (DQUOTE +:+ ">")]
              +:+ foldr String.append "" options →
  join (html ++ [VStr "</select>"]) = select_markup selector options.
Proof.
  intros Hhtml. rewrite join_app, Hhtml. unfold select_markup, join. cbn [foldr join_item to_key].
  by rewrite !string_app_assoc, !string_app_nil_r, !string_app_nil_l, foldr_append_tail.
Qed.

(** ** Loops that carry a local variable *)

Section for_each_fold_replay.
Context {X A : Type}.
Variable P : state → Prop.
Variable next : nat → js value.
Variable body : value → A → js A.
Variable elem : X → value.
Variable ws : X → list (slot * value).
Variable g : X → A → A.

(** A loop whose condition yields the truthy elements [elem x] for [x] in
    [xs] and then a falsy value, and whose body for [x] performs the writes
    [ws x] and turns the local variable [acc] into [g x acc]. *)
Lemma for_each_fold_replay (xs : list X) : ∀ (i fuel : nat) (s : state) (acc : A),
  length xs < fuel →
  P s →
  (∀ j x s' acc', xs !! j = Some x → P s' →
     next (i + j) s' = Ret (elem x) s' ∧ truthy (elem x) = true ∧
     body (elem x) acc' s' = Ret (g x acc') (replay (ws x) s') ∧ P (replay (ws x) s')) →
  (∀ s', P s' → ∃ v, next (i + length xs) s' = Ret v s' ∧ truthy v = false) →
  for_each_fold fuel next body i acc s
  = Ret (foldl (λ acc x, g x acc) acc xs) (replay (xs ≫= ws) s) ∧
  P (replay (xs ≫= ws) s).
Proof.
  induction xs as [|x xs IH]; intros i fuel s acc Hfuel HP Hstep Hend.
  - destruct fuel as [|fuel]; [simpl in Hfuel; lia|].
    destruct (Hend s HP) as (v & Hnext & Hfalsy). simpl in Hnext.
    rewrite Nat.add_0_r in Hnext. split; [|done].
    simpl. unfold bind. by rewrite Hnext, Hfalsy.
  - destruct fuel as [|fuel]; [simpl in Hfuel; lia|].
    destruct (Hstep 0 x s acc eq_refl HP) as (Hnext & Htruthy & Hbody & HP').
    rewrite Nat.add_0_r in Hnext.
    rewrite bind_cons, replay_app. cbn [foldl].
    destruct (IH (S i) fuel (replay (ws x) s) (g x acc)) as [Hrun HPend].
    + simpl in Hfuel. lia.
    + done.
    + intros j y s' acc' Hy HPs'. replace (S i + j) with (i + S j) by lia.
      by apply Hstep.
    + intros s' HPs'. replace (S i + length xs) with (i + length (x :: xs)) by (simpl; lia).
      by apply Hend.
    + split; [|done]. cbn [for_each_fold]. unfold bind at 1. rewrite Hnext, Htruthy.
      unfold bind at 1. by rewrite Hbody.
Qed.

End for_each_fold_replay.

(** ** The tree of Accounts *)

Lemma get_prop_own v k s :
  truthy v = true → get_prop v k s = Ret (own_prop (heap s) v k) s.
Proof. by destruct v. Qed.

(** The loop of [buildAccountTree] from the element [i] on, when [k] truthy
    elements and then a falsy one follow. *)
Lemma buildAccountTree_from h e lr li : ∀ k i fuel tree,
  field h lr "items" = VObj li →
  (∀ j, j < k → truthy (field h li (index_key (i + j))) = true) →
  truthy (field h li (index_key (i + k))) = false →
  k < fuel →
  for_each fuel
    (λ i, items <- get_prop (VObj lr) "items" ;; get_prop items (index_key i))
    (λ account, account_id <- get_prop account "id" ;;
                set_accountTree (to_key account_id) account)
    i (State h tree e)
  = Ret tt (State h
      (foldl (λ t x, <[to_key (own_prop h x "id") := x]> t) tree
             ((λ j, field h li (index_key j)) <$> seq i k)) e).
Proof.
  induction k as [|k IH]; intros i fuel tree Hitems Htruthy Hend Hfuel.
  - destruct fuel as [|fuel]; [lia|]. rewrite Nat.add_0_r in Hend.
    cbn [for_each]. unfold bind. rewrite get_prop_obj. cbn [heap]. rewrite Hitems.
    rewrite get_prop_obj. cbn [heap]. by rewrite Hend.
  - destruct fuel as [|fuel]; [lia|].
    pose proof (Htruthy 0 ltac:(lia)) as H0. rewrite Nat.add_0_r in H0.
    cbn [for_each]. unfold bind at 1. unfold bind at 1.
    rewrite get_prop_obj. cbn [heap]. rewrite Hitems, get_prop_obj. cbn [heap].
    rewrite H0. unfold bind at 1. unfold bind at 1.
    rewrite (get_prop_own _ _ _ H0). unfold set_accountTree. cbn [heap accountTree entityIndex].
    rewrite (IH (S i) fuel); [done|done| | |lia].
    + intros j Hj. replace (S i + j) with (i + S j) by lia. apply Htruthy. lia.
    + by replace (S i + k) with (i + S k) by lia.
Qed.

(** On a well-formed response [buildAccountTree] performs the writes to the
    tree that [buildAccountTreeIndex] performs, and no others. *)
Lemma account_tree_write_in_trace r a :
  a ∈ r_accounts r → (STree (a_id a), VObj (a_loc a)) ∈ trace r.
Proof. intros Ha. apply elem_of_trace. by constructor. Qed.

Lemma buildAccountTree_replay r fuel s :
  well_formed (heap s) r → length (r_accounts r) < fuel →
  buildAccountTree fuel (VObj (r_loc r)) s
  = Ret tt (replay (r_accounts r ≫= λ a, [(STree (a_id a), VObj (a_loc a))]) s).
Proof.
  intros [Hwf Hend] Hfuel.
  pose proof (well_formed_frame (heap s) r) as Hframe.
  assert (∀ w f, w ∈ trace r → f ∈ response_facts r → w.1 ≠ fact_slot f) as Hfr.
  { intros w f. by apply Hframe. }
  assert (Inv r s) as HInv by apply Hwf.
  unfold buildAccountTree.
  apply (for_each_replay (X:=Account) (λ s', Inv r s' ∧ heap s' = heap s) _ _
           (λ a, VObj (a_loc a)) (λ a, [(STree (a_id a), VObj (a_loc a))])
           (r_accounts r) 0 fuel s Hfuel).
  - done.
  - intros j a s' Hj [HI Hheap]. cbn [Nat.add].
    assert (a ∈ r_accounts r) as Ha by (by eapply list_elem_of_lookup_2).
    split; [|split; [done|split]].
    + unfold bind. rewrite get_prop_obj, (Inv_field r s' _ _ _ HI (fact_items r)).
      by rewrite get_prop_obj, (Inv_field r s' _ _ _ HI (fact_items_elem r j a Hj)).
    + unfold bind. rewrite get_prop_obj, (Inv_field r s' _ _ _ HI (fact_account_id r a Ha)).
      by rewrite set_accountTree_store.
    + rewrite replay_cons, replay_nil. split.
      * apply (Inv_store r Hfr); [done|]. by apply account_tree_write_in_trace.
      * done.
  - intros s' [HI Hheap]. cbn [Nat.add].
    exists (field (heap s') (r_items r) (index_key (length (r_accounts r)))).
    split.
    + unfold bind. rewrite get_prop_obj, (Inv_field r s' _ _ _ HI (fact_items r)).
      by rewrite get_prop_obj.
    + by rewrite Hheap.
Qed.

Lemma replay_tree_writes_frame (accounts : list Account) : ∀ s,
  heap (replay (accounts ≫= λ a, [(STree (a_id a), VObj (a_loc a))]) s) = heap s ∧
  entityIndex (replay (accounts ≫= λ a, [(STree (a_id a), VObj (a_loc a))]) s)
  = entityIndex s.
Proof.
  induction accounts as [|a accounts IH]; intros s; [done|].
  rewrite bind_cons, replay_app, replay_cons, replay_nil.
  destruct (IH (store (STree (a_id a), VObj (a_loc a)) s)) as [-> ->]. done.
Qed.

Lemma accountTree_replay_properties a ps s :
  accountTree (replay (ps ≫= property_writes a) s) = accountTree s.
Proof.
  apply map_eq. intros k. apply accountTree_replay_untouched.
  apply tree_slot_not_in_properties.
Qed.

Lemma accountTree_replay_accounts (accounts : list Account) : ∀ s1 s2,
  accountTree s1 = accountTree s2 →
  accountTree (replay (accounts ≫= λ a, [(STree (a_id a), VObj (a_loc a))]) s1)
  = accountTree (replay (accounts ≫= account_writes) s2).
Proof.
  induction accounts as [|a accounts IH]; intros s1 s2 Heq; [done|].
  rewrite !bind_cons, !replay_app. apply IH.
  unfold account_writes. rewrite replay_cons, replay_nil, replay_cons.
  rewrite accountTree_replay_properties. unfold store. cbn [fst snd accountTree].
  by rewrite Heq.
Qed.

(** ** The cache of markup *)

Lemma getPropertySelectorHtml_hit fuel accountId selectorHtml h s :
  selectorHtml !! accountId = Some h → truthy h = true →
  getPropertySelectorHtml fuel accountId selectorHtml s = Ret (h, selectorHtml) s.
Proof. intros Hh Ht. unfold getPropertySelectorHtml. by rewrite Hh; simpl; rewrite Ht. Qed.

Lemma getProfileSelectorHtml_hit fuel accountId propertyId selectorHtml h s :
  selectorHtml !! (accountId +:+ propertyId) = Some h → truthy h = true →
  getProfileSelectorHtml fuel accountId propertyId selectorHtml s = Ret (h, selectorHtml) s.
Proof. intros Hh Ht. unfold getProfileSelectorHtml. by rewrite Hh; simpl; rewrite Ht. Qed.

Lemma getPropertySelectorHtml_cached fuel accountId selectorHtml s h selectorHtml' s' :
  getPropertySelectorHtml fuel accountId selectorHtml s = Ret (h, selectorHtml') s' →
  selectorHtml' !! accountId = Some h ∧ truthy h = true.
Proof.
  unfold getPropertySelectorHtml.
  destruct (truthy (default VUndefined (selectorHtml !! accountId))) eqn:Hhit.
  - intros [= <- <- <-]. destruct (selectorHtml !! accountId); [done|discriminate Hhit].
  - unfold bind. unfold get_accountTree.
    destruct (get_prop _ "webProperties" s) as [propertyTree s1| |]; [|discriminate..].
    destruct (for_each_fold _ _ _ _ _ s1) as [html s2| |]; [|discriminate..].
    unfold ret. intros [= <- <- <-]. rewrite lookup_insert_eq. split; [done|].
    apply truthy_joined.
Qed.

Lemma getProfileSelectorHtml_cached fuel accountId propertyId selectorHtml s h selectorHtml' s' :
  getProfileSelectorHtml fuel accountId propertyId selectorHtml s
  = Ret (h, selectorHtml') s' →
  selectorHtml' !! (accountId +:+ propertyId) = Some h ∧ truthy h = true.
Proof.
  unfold getProfileSelectorHtml.
  destruct (truthy (default VUndefined (selectorHtml !! (accountId +:+ propertyId)))) eqn:Hhit.
  - intros [= <- <- <-].
    destruct (selectorHtml !! (accountId +:+ propertyId)); [done|discriminate Hhit].
  - unfold bind. unfold get_accountTree.
    destruct (get_prop _ propertyId s) as [property s1| |]; [|discriminate..].
    destruct (get_prop property "profiles" s1) as [profileTree s2| |]; [|discriminate..].
    destruct (for_each_fold _ _ _ _ _ s2) as [html s3| |]; [|discriminate..].
    unfold ret. intros [= <- <- <-]. rewrite lookup_insert_eq. split; [done|].
    apply truthy_joined.
Qed.

(** ** The selectors on a well-formed response *)

Lemma property_tree_writes_slot a ps sl :
  sl ∈ (ps ≫= property_tree_writes a).*1 →
  ∃ p, p ∈ ps ∧ p_profiles p ≠ None ∧ sl = SHeap (a_loc a) (p_id p).
Proof.
  intros ([sl' v] & -> & Hin)%list_elem_of_fmap.
  apply list_elem_of_bind in Hin as (p & Hw & Hp). unfold property_tree_writes in Hw.
  destruct (p_profiles p) eqn:Hprof; [|by apply elem_of_nil in Hw].
  apply list_elem_of_singleton in Hw as [= -> ->]. exists p. by rewrite Hprof.
Qed.

Lemma profile_tree_writes_slot p vs sl :
  sl ∈ (vs ≫= profile_tree_writes p).*1 → ∃ v, v ∈ vs ∧ sl = SHeap (p_loc p) (v_id v).
Proof.
  intros ([sl' x] & -> & Hin)%list_elem_of_fmap.
  apply list_elem_of_bind in Hin as (v & Hw & Hv).
  apply list_elem_of_singleton in Hw as [= -> ->]. by exists v.
Qed.

Section selectors.
Variable r : Summaries.
Variable s : state.
Hypothesis Hwf : well_formed_prefix (heap s) r.

Lemma selector_frame w f : w ∈ trace r → f ∈ response_facts r → w.1 ≠ fact_slot f.
Proof. by apply (well_formed_frame (heap s)). Qed.

Lemma property_tree_writes_sub a p w :
  a ∈ r_accounts r → p ∈ a_properties a → w ∈ property_tree_writes a p → w ∈ trace r.
Proof.
  intros Ha Hp. unfold property_tree_writes.
  destruct (p_profiles p) as [[l vs]|] eqn:Hprof; [|by intros ?%elem_of_nil].
  intros ->%list_elem_of_singleton. apply elem_of_trace. by econstructor.
Qed.

Lemma account_not_property a p :
  a ∈ r_accounts r → p ∈ all_properties r → a_loc a ≠ p_loc p.
Proof. by apply (well_formed_kinds (heap s)). Qed.

Lemma property_not_profile p v :
  p ∈ all_properties r → v ∈ all_profiles r → p_loc p ≠ v_loc v.
Proof.
  intros Hp Hv Heq. destruct Hwf as (_ & _ & Hprop & _). rewrite Forall_forall in Hprop.
  apply (Hprop (p_loc p)); [by apply list_elem_of_fmap_2|].
  apply elem_of_app. left. rewrite Heq. by apply list_elem_of_fmap_2.
Qed.

Lemma getPropertySelectorHtml_replay fuel a selectorHtml :
  a ∈ r_accounts r →
  accountTree s !! a_id a = Some (VObj (a_loc a)) →
  truthy (default VUndefined (selectorHtml !! a_id a)) = false →
  length (a_properties a) < fuel →
  let markup := VStr (select_markup PROPERTY_SELECTOR (property_options (heap s) a)) in
  getPropertySelectorHtml fuel (a_id a) selectorHtml s
  = Ret (markup, <[a_id a := markup]> selectorHtml)
        (replay (a_properties a ≫= property_tree_writes a) s).
Proof.
  intros Ha Htree Hmiss Hfuel markup.
  assert (Inv r s) as HInv by apply Hwf.
  unfold getPropertySelectorHtml. rewrite Hmiss.
  assert (read (STree (a_id a)) s = VObj (a_loc a)) as Hread.
  { unfold read. by rewrite Htree. }
  unfold bind at 1. rewrite get_accountTree_read, Hread.
  unfold bind at 1.
  rewrite get_prop_obj, (Inv_field r s _ _ _ HInv (fact_account_webProperties r a Ha)).
  unfold bind at 1.
  destruct (for_each_fold_replay (X:=Property) (property_loop r s a)
              (λ w, get_prop (VObj (a_webProperties a)) (index_key w))
              (λ property html,
                profiles <- get_prop property "profiles" ;;
                if truthy profiles then
                  account <- get_accountTree (a_id a) ;;
                  property_id <- get_prop property "id" ;;
                  set_prop account (to_key property_id) property ;;;
                  property_id <- get_prop property "id" ;;
                  let html :=
                    (html ++ [VStr ("<option value=" +:+ DQUOTE); property_id;
                              VStr (DQUOTE +:+ ">")])%list in
                  property_name <- get_prop property "name" ;;
                  ret (html ++ [property_name; VStr "</option>"])%list
                else ret html)
              (λ p, VObj (p_loc p)) (property_tree_writes a) (property_items (heap s))
              (a_properties a) 0 fuel s
              [VStr ("<select id=" +:+ DQUOTE); VStr PROPERTY_SELECTOR; VStr (DQUOTE +:+ ">")]
              Hfuel) as [Hrun _].
  - done.
  - intros j p s' html Hj (HI & Hacc & Hmem). cbn [Nat.add].
    assert (p ∈ a_properties a) as Hp by (by eapply list_elem_of_lookup_2).
    split; [|split; [done|]].
    { by rewrite get_prop_obj,
        (Inv_field r s' _ _ _ HI (fact_webProperties_elem r a j p Ha Hj)). }
    unfold property_tree_writes, property_items.
    destruct (p_profiles p) as [[l vs]|] eqn:Hprof.
    + assert (Inv r (store (SHeap (a_loc a) (p_id p), VObj (p_loc p)) s')) as HI'.
      { apply (Inv_store r selector_frame); [done|].
        apply elem_of_trace. by econstructor. }
      assert (∀ q k, q ∈ a_properties a →
                field (heap (store (SHeap (a_loc a) (p_id p), VObj (p_loc p)) s')) (p_loc q) k
                = field (heap s) (p_loc q) k) as Hmem'.
      { intros q k Hq. rewrite <- (Hmem q k Hq).
        apply (read_store_ne (SHeap (p_loc q) k)). simpl. intros [= Heq _].
        apply (account_not_property a q Ha); [|done].
        by apply (elem_of_all_properties r a). }
      split.
      * unfold bind at 1.
        rewrite get_prop_obj, (Inv_field r s' _ _ _ HI (fact_property_profiles r a p l vs Ha Hp Hprof)).
        cbn [truthy]. unfold bind at 1. rewrite get_accountTree_read, Hacc.
        unfold bind at 1.
        rewrite get_prop_obj, (Inv_field r s' _ _ _ HI (fact_property_id r a p Ha Hp)).
        unfold bind at 1. cbn [to_key]. rewrite set_prop_obj.
        unfold bind at 1.
        rewrite get_prop_obj, (Inv_field r _ _ _ _ HI' (fact_property_id r a p Ha Hp)).
        unfold bind at 1. rewrite get_prop_obj, (Hmem' p "name" Hp).
        by rewrite replay_cons, replay_nil.
      * rewrite replay_cons, replay_nil. split; [done|]. split; [|done].
        rewrite read_store_ne; [done|]. simpl. discriminate.
    + split; [|done]. unfold bind at 1.
      rewrite get_prop_obj.
      by rewrite (Inv_field_falsy r s' _ _ HI (fact_property_skipped r a p Ha Hp Hprof)).
  - intros s' (HI & _). cbn [Nat.add]. eexists. split; [apply get_prop_obj|].
    apply (Inv_field_falsy r s' _ _ HI (fact_webProperties_end r a Ha)).
  - cbv zeta in Hrun. rewrite Hrun. unfold ret. rewrite lookup_insert_eq.
    change (default VUndefined (Some ?v)) with v.
    assert (join (foldl (λ acc x, property_items (heap s) x acc)
                    [VStr ("<select id=" +:+ DQUOTE); VStr PROPERTY_SELECTOR;
                     VStr (DQUOTE +:+ ">")] (a_properties a) ++ [VStr "</select>"])
            = select_markup PROPERTY_SELECTOR (property_options (heap s) a)) as ->; [|done].
    apply join_select. apply join_foldl. intros p html. apply join_property_items.
Qed.

Lemma getProfileSelectorHtml_replay fuel a p l vs selectorHtml :
  a ∈ r_accounts r → p ∈ a_properties a → p_profiles p = Some (l, vs) →
  accountTree s !! a_id a = Some (VObj (a_loc a)) →
  field (heap s) (a_loc a) (p_id p) = VObj (p_loc p) →
  truthy (default VUndefined (selectorHtml !! (a_id a +:+ p_id p))) = false →
  length vs < fuel →
  let markup := VStr (select_markup PROFILE_SELECTOR (profile_options (heap s) vs)) in
  getProfileSelectorHtml fuel (a_id a) (p_id p) selectorHtml s
  = Ret (markup, <[a_id a +:+ p_id p := markup]> selectorHtml)
        (replay (vs ≫= profile_tree_writes p) s).
Proof.
  intros Ha Hp Hprof Htree Hmember Hmiss Hfuel markup.
  assert (Inv r s) as HInv by apply Hwf.
  assert (p ∈ all_properties r) as Hpall by (by apply (elem_of_all_properties r a)).
  unfold getProfileSelectorHtml. rewrite Hmiss.
  assert (read (STree (a_id a)) s = VObj (a_loc a)) as Hread.
  { unfold read. by rewrite Htree. }
  unfold bind at 1. rewrite get_accountTree_read, Hread.
  unfold bind at 1. rewrite get_prop_obj, Hmember.
  unfold bind at 1.
  rewrite get_prop_obj, (Inv_field r s _ _ _ HInv (fact_property_profiles r a p l vs Ha Hp Hprof)).
  unfold bind at 1.
  destruct (for_each_fold_replay (X:=Profile) (profile_loop r s a p vs)
              (λ i, get_prop (VObj l) (index_key i))
              (λ profile html,
                account <- get_accountTree (a_id a) ;;
                property <- get_prop account (p_id p) ;;
                profile_id <- get_prop profile "id" ;;
                set_prop property (to_key profile_id) profile ;;;
                profile_id <- get_prop profile "id" ;;
                profile_name <- get_prop profile "name" ;;
                ret (html ++ [VStr ("<option value=" +:+ DQUOTE); profile_id;
                              VStr (DQUOTE +:+ ">"); profile_name; VStr "</option>"])%list)
              (λ v, VObj (v_loc v)) (profile_tree_writes p) (profile_items (heap s))
              vs 0 fuel s
              [VStr ("<select id=" +:+ DQUOTE); VStr PROFILE_SELECTOR; VStr (DQUOTE +:+ ">")]
              Hfuel) as [Hrun _].
  - done.
  - intros j v s' html Hj (HI & Hacc & Hprop & Hmem). cbn [Nat.add].
    assert (v ∈ vs) as Hv by (by eapply list_elem_of_lookup_2).
    assert (v ∈ all_profiles r) as Hvall by (by apply (elem_of_all_profiles r a p l vs)).
    split; [|split; [done|]].
    { by rewrite get_prop_obj,
        (Inv_field r s' _ _ _ HI (fact_profiles_elem r a p l vs j v Ha Hp Hprof Hj)). }
    unfold profile_tree_writes, profile_items. rewrite replay_cons, replay_nil.
    assert (Inv r (store (SHeap (p_loc p) (v_id v), VObj (v_loc v)) s')) as HI'.
    { apply (Inv_store r selector_frame); [done|].
      apply elem_of_trace. by eapply in_trace_profile. }
    assert (∀ u k, u ∈ vs →
              field (heap (store (SHeap (p_loc p) (v_id v), VObj (v_loc v)) s')) (v_loc u) k
              = field (heap s) (v_loc u) k) as Hmem'.
    { intros u k Hu. rewrite <- (Hmem u k Hu).
      apply (read_store_ne (SHeap (v_loc u) k)). simpl. intros [= Heq _].
      apply (property_not_profile p u Hpall); [|done].
      by apply (elem_of_all_profiles r a p l vs). }
    split.
    + unfold bind at 1. rewrite get_accountTree_read, Hacc.
      unfold bind at 1. rewrite get_prop_obj.
      change (field (heap s') (a_loc a) (p_id p)) with (read (SHeap (a_loc a) (p_id p)) s').
      rewrite Hprop.
      unfold bind at 1.
      rewrite get_prop_obj,
        (Inv_field r s' _ _ _ HI (fact_profile_id r a p l vs v Ha Hp Hprof Hv)).
      unfold bind at 1. cbn [to_key]. rewrite set_prop_obj.
      unfold bind at 1.
      rewrite get_prop_obj,
        (Inv_field r _ _ _ _ HI' (fact_profile_id r a p l vs v Ha Hp Hprof Hv)).
      unfold bind at 1. by rewrite get_prop_obj, (Hmem' v "name" Hv).
    + split; [done|]. split; [|split; [|done]].
      * rewrite read_store_ne; [done|]. simpl. discriminate.
      * rewrite read_store_ne; [done|]. simpl. intros [= Heq _].
        by apply (account_not_property a p Ha Hpall).
  - intros s' (HI & _). cbn [Nat.add]. eexists. split; [apply get_prop_obj|].
    apply (Inv_field_falsy r s' _ _ HI (fact_profiles_end r a p l vs Ha Hp Hprof)).
  - cbv zeta in Hrun. rewrite Hrun. unfold ret. rewrite lookup_insert_eq.
    change (default VUndefined (Some ?v)) with v.
    assert (join (foldl (λ acc x, profile_items (heap s) x acc)
                    [VStr ("<select id=" +:+ DQUOTE); VStr PROFILE_SELECTOR;
                     VStr (DQUOTE +:+ ">")] vs ++ [VStr "</select>"])
            = select_markup PROFILE_SELECTOR (profile_options (heap s) vs)) as ->; [|done].
    apply join_select.
    rewrite (join_foldl (profile_items (heap s))
               (λ v, [option_markup (VStr (v_id v)) (field (heap s) (v_loc v) "name")])).
    + reflexivity.
    + intros v html. apply join_profile_items.
Qed.

End selectors.

(* ===================================================================== *)
(** * Further properties *)

(** ** The index script *)

(** X1.  Lookup by identifier gives back the record of the response.  On a
    well-formed response whose identifiers are unique within their kind
    (they may coincide across kinds), after a build: [getAccount] on the
    identifier of an Account returns the object of that Account,
    [getProperty] on the identifier of a Property that has a Profile
    sequence returns the object of that Property, and [getProfile] on the
    identifier of a Profile returns the object of that Profile, every member
    of which is as it was in the response (a build assigns no member of a
    Profile object). *)
Theorem lookup_by_id_returns_record r fuel s :
  well_formed (heap s) r → unique_ids r → longest r < fuel →
  ∃ s',
    buildAccountTreeIndex fuel (VObj (r_loc r)) s = Ret tt s' ∧
    (∀ a, a ∈ r_accounts r →
       getAccount (VStr (a_id a)) s' = Ret (VObj (a_loc a)) s') ∧
    (∀ a p l vs,
       a ∈ r_accounts r → p ∈ a_properties a → p_profiles p = Some (l, vs) →
       getProperty (VStr (p_id p)) s' = Ret (VObj (p_loc p)) s') ∧
    (∀ a p l vs v,
       a ∈ r_accounts r → p ∈ a_properties a → p_profiles p = Some (l, vs) → v ∈ vs →
       getProfile (VStr (v_id v)) s' = Ret (VObj (v_loc v)) s' ∧
       ∀ k, field (heap s') (v_loc v) k = field (heap s) (v_loc v) k).
Proof.
  intros Hwf Huniq Hfuel. exists (replay (trace r) s).
  split; [by apply build_well_formed|].
  split; [intros a Ha; by apply final_getAccount|].
  split; [intros a p l vs Ha Hp Hprof; by eapply final_getProperty|].
  intros a p l vs v Ha Hp Hprof Hv.
  split; [by eapply final_getProfile|].
  intros k. apply (read_replay_untouched (SHeap (v_loc v) k)).
  intros [[Hl _]|[Hl _]]%trace_heap_slot.
  - destruct Hwf as [(_ & Hacc & _) _]. rewrite Forall_forall in Hacc.
    apply (Hacc _ Hl). apply elem_of_app. right. apply elem_of_app. left.
    apply list_elem_of_fmap_2. by apply (elem_of_all_profiles r a p l vs).
  - destruct Hwf as [(_ & _ & Hprop & _) _]. rewrite Forall_forall in Hprop.
    apply (Hprop _ Hl). apply elem_of_app. left.
    apply list_elem_of_fmap_2. by apply (elem_of_all_profiles r a p l vs).
Qed.

(** X1, an instance: the scenario response. *)
Lemma lookup_by_id_returns_record_witness :
  well_formed (heap (load scenario).2) scenario_visited ∧
  unique_ids scenario_visited ∧
  longest scenario_visited < 2 ∧
  ∃ s',
    buildAccountTreeIndex 2 (VObj (r_loc scenario_visited)) (load scenario).2 = Ret tt s' ∧
    (∀ a, a ∈ r_accounts scenario_visited →
       getAccount (VStr (a_id a)) s' = Ret (VObj (a_loc a)) s') ∧
    (∀ a p l vs,
       a ∈ r_accounts scenario_visited → p ∈ a_properties a →
       p_profiles p = Some (l, vs) →
       getProperty (VStr (p_id p)) s' = Ret (VObj (p_loc p)) s') ∧
    (∀ a p l vs v,
       a ∈ r_accounts scenario_visited → p ∈ a_properties a →
       p_profiles p = Some (l, vs) → v ∈ vs →
       getProfile (VStr (v_id v)) s' = Ret (VObj (v_loc v)) s' ∧
       ∀ k, field (heap s') (v_loc v) k = field (heap (load scenario).2) (v_loc v) k).
Proof.
  assert (well_formed (heap (load scenario).2) scenario_visited) as Hwf.
  { apply (bool_decide_unpack _). vm_compute. exact I. }
  assert (unique_ids scenario_visited) as Huniq.
  { apply (bool_decide_unpack _). vm_compute. exact I. }
  assert (longest scenario_visited < 2) as Hfuel.
  { vm_compute. lia. }
  split; [done|]. split; [done|]. split; [done|].
  by apply lookup_by_id_returns_record.
Defined.

(** X2.  The skip rule, for every response.  On a well-formed response with
    unique identifiers, none of which names a member of [Object.prototype],
    built by a script whose tree and index are empty, a Property without a
    [profiles] member (or with a falsy one) leaves no trace: the member of
    its Account object named by its identifier is what it was in the
    response, the index has no Account-of-Property entry for it,
    [getAccountByPropertyId] returns a new empty object and [getProperty]
    returns [undefined].  (No Account has the empty string as identifier:
    see X4.) *)
Theorem property_without_profiles_is_skipped r fuel h a p :
  well_formed h r → unique_ids r → ordinary_ids r → longest r < fuel →
  a ∈ r_accounts r → p ∈ a_properties a → p_profiles p = None →
  "" ∉ a_id <$> r_accounts r →
  ∃ s',
    buildAccountTreeIndex fuel (VObj (r_loc r)) (State h ∅ ∅) = Ret tt s' ∧
    field (heap s') (a_loc a) (p_id p) = field h (a_loc a) (p_id p) ∧
    entityIndex s' !! composite_key AccountOfProperty (VStr (p_id p)) = None ∧
    returns_empty (getAccountByPropertyId (VStr (p_id p))) s' ∧
    returns_undefined (getProperty (VStr (p_id p))) s'.
Proof.
  intros Hwf Huniq _ Hfuel Ha Hp Hnone Hempty.
  set (s := State h ∅ ∅). exists (replay (trace r) s).
  split; [by apply (build_well_formed r fuel s)|].
  assert (∀ a' p' l vs, a' ∈ r_accounts r → p' ∈ a_properties a' →
            p_profiles p' = Some (l, vs) → p_id p' ≠ p_id p) as Hkept.
  { intros a' p' l vs Ha' Hp' Hprof Heq.
    destruct (unique_property r a' p' a p Huniq Ha' Hp' Ha Hp Heq) as [_ ->]. congruence. }
  assert (SIndex (composite_key AccountOfProperty (VStr (p_id p))) ∉ (trace r).*1) as Hidx.
  { intros (a' & p' & l & vs & Ha' & Hp' & Hprof & Heq)%trace_property_slot_kept.
    by apply (Hkept a' p' l vs). }
  assert (entityIndex (replay (trace r) s) !! composite_key AccountOfProperty (VStr (p_id p))
          = None) as Hnoentry.
  { by rewrite entityIndex_replay_untouched. }
  assert (truthy (read (STree "") (replay (trace r) s)) = false) as Htree.
  { rewrite read_replay_untouched; [done|]. by intros ?%trace_tree_slot. }
  assert (truthy (read (SIndex ((ACCOUNT_PREFIX +:+ PROPERTY_PREFIX) +:+ to_key (VStr (p_id p))))
                   (replay (trace r) s)) = false) as Hmiss.
  { unfold read. unfold composite_key in Hnoentry. simpl in Hnoentry |- *.
    by rewrite Hnoentry. }
  split.
  { apply (read_replay_untouched (SHeap (a_loc a) (p_id p))).
    intros (a' & p' & l & vs & Ha' & Hp' & Hprof & Heq)%(trace_account_member_kept h);
      [|apply Hwf|done].
    by apply (Hkept a' p' l vs). }
  split; [exact Hnoentry|].
  split; [by apply getAccountByPropertyId_miss|by apply getProperty_miss].
Qed.

(** X2, an instance: the Property "UA-1234-3" of [empty_profiles]. *)
Lemma property_without_profiles_is_skipped_witness :
  let a := {| a_loc := 3%positive; a_id := "1234"; a_webProperties := 4%positive;
              a_properties :=
                [ {| p_loc := 5%positive; p_id := "UA-1234-2";
                     p_profiles := Some (6%positive, []) |};
                  {| p_loc := 7%positive; p_id := "UA-1234-3"; p_profiles := None |} ] |} in
  let p := {| p_loc := 7%positive; p_id := "UA-1234-3"; p_profiles := None |} in
  let h := heap (load empty_profiles).2 in
  well_formed h empty_profiles_visited ∧
  unique_ids empty_profiles_visited ∧
  ordinary_ids empty_profiles_visited ∧
  longest empty_profiles_visited < 3 ∧
  a ∈ r_accounts empty_profiles_visited ∧ p ∈ a_properties a ∧ p_profiles p = None ∧
  ("" ∉ a_id <$> r_accounts empty_profiles_visited) ∧
  ∃ s',
    buildAccountTreeIndex 3 (VObj (r_loc empty_profiles_visited)) (State h ∅ ∅) = Ret tt s' ∧
    field (heap s') (a_loc a) (p_id p) = field h (a_loc a) (p_id p) ∧
    entityIndex s' !! composite_key AccountOfProperty (VStr (p_id p)) = None ∧
    returns_empty (getAccountByPropertyId (VStr (p_id p))) s' ∧
    returns_undefined (getProperty (VStr (p_id p))) s'.
Proof.
  intros a p h.
  assert (well_formed h empty_profiles_visited) as Hwf.
  { apply (bool_decide_unpack _). vm_compute. exact I. }
  assert (unique_ids empty_profiles_visited) as Huniq.
  { apply (bool_decide_unpack _). vm_compute. exact I. }
  assert (ordinary_ids empty_profiles_visited) as Hord.
  { apply (bool_decide_unpack _). vm_compute. exact I. }
  assert (longest empty_profiles_visited < 3) as Hfuel.
  { vm_compute. lia. }
  assert (a ∈ r_accounts empty_profiles_visited) as Ha.
  { apply list_elem_of_here. }
  assert (p ∈ a_properties a) as Hp.
  { apply list_elem_of_further, list_elem_of_here. }
  assert ("" ∉ a_id <$> r_accounts empty_profiles_visited) as Hempty.
  { apply (bool_decide_unpack _). vm_compute. exact I. }
  split; [exact Hwf|]. split; [exact Huniq|]. split; [exact Hord|]. split; [exact Hfuel|].
  split; [exact Ha|]. split; [exact Hp|]. split; [reflexivity|]. split; [exact Hempty|].
  exact (property_without_profiles_is_skipped empty_profiles_visited 3 h a p
           Hwf Huniq Hord Hfuel Ha Hp eq_refl Hempty).
Defined.





(** X5.  Responses without Accounts.  When the response has no [items]
    member (or a [null] one), both [buildAccountTreeIndex] and
    [buildAccountTree] raise a TypeError on the first evaluation of the loop
    condition, and the store is unchanged.  When [items] is an empty array
    (its element 0 is falsy), both return and the store is unchanged. *)
Theorem response_without_accounts fuel s lr :
  (nullish (field (heap s) lr "items") →
   buildAccountTreeIndex (S fuel) (VObj lr) s = Throw TypeError s ∧
   buildAccountTree (S fuel) (VObj lr) s = Throw TypeError s) ∧
  (∀ li,
     field (heap s) lr "items" = VObj li →
     truthy (field (heap s) li (index_key 0)) = false →
     buildAccountTreeIndex (S fuel) (VObj lr) s = Ret tt s ∧
     buildAccountTree (S fuel) (VObj lr) s = Ret tt s).
Proof.
  split.
  - intros Hitems. unfold buildAccountTreeIndex, buildAccountTree. cbn [for_each].
    unfold bind. rewrite !get_prop_obj. by destruct Hitems as [-> | ->].
  - intros li Hitems Hend. unfold buildAccountTreeIndex, buildAccountTree. cbn [for_each].
    unfold bind. rewrite !get_prop_obj, Hitems, !get_prop_obj, Hend. done.
Qed.

(** X5, an instance: [no_items] and [no_accounts]. *)
Lemma response_without_accounts_witness :
  (field (heap (load no_items).2) 1%positive "items" = VUndefined ∧
   buildAccountTreeIndex 1 (VObj 1%positive) (load no_items).2
   = Throw TypeError (load no_items).2 ∧
   buildAccountTree 1 (VObj 1%positive) (load no_items).2
   = Throw TypeError (load no_items).2) ∧
  (field (heap (load no_accounts).2) 1%positive "items" = VObj 2%positive ∧
   truthy (field (heap (load no_accounts).2) 2%positive (index_key 0)) = false ∧
   buildAccountTreeIndex 1 (VObj 1%positive) (load no_accounts).2
   = Ret tt (load no_accounts).2 ∧
   buildAccountTree 1 (VObj 1%positive) (load no_accounts).2
   = Ret tt (load no_accounts).2).
Proof.
  assert (field (heap (load no_items).2) 1%positive "items" = VUndefined) as Hnone.
  { vm_compute. reflexivity. }
  assert (field (heap (load no_accounts).2) 1%positive "items" = VObj 2%positive) as Hitems.
  { vm_compute. reflexivity. }
  assert (truthy (field (heap (load no_accounts).2) 2%positive (index_key 0)) = false) as Hend.
  { vm_compute. reflexivity. }
  split.
  - split; [exact Hnone|].
    exact (proj1 (response_without_accounts 0 (load no_items).2 1%positive) (or_introl Hnone)).
  - split; [exact Hitems|]. split; [exact Hend|].
    exact (proj2 (response_without_accounts 0 (load no_accounts).2 1%positive)
             2%positive Hitems Hend).
Defined.

(** ** The profile selector script *)

(** X6.  [buildAccountTree] stores each of the first [n] elements of
    [items], up to the first falsy one, in the tree under the string form of
    its [id] member (an element without [id] is stored under "undefined"),
    later elements replacing earlier ones with the same key.  The [id]
    members are printable and their string forms name no member of
    [Object.prototype]; nothing else is asked of the elements.  The function
    reads nothing else: it returns on every such response whose [items]
    member is an object, it changes no object of the heap, and an Account
    without a Property sequence, on which [buildAccountTreeIndex] throws, is
    stored like any other. *)
Theorem buildAccountTree_stores_elements fuel s lr li n :
  field (heap s) lr "items" = VObj li →
  Forall (λ x, truthy x = true) (items_upto (heap s) li n) →
  Forall (λ x, printable (own_prop (heap s) x "id") ∧
               to_key (own_prop (heap s) x "id") ∉ Object_prototype)
         (items_upto (heap s) li n) →
  truthy (field (heap s) li (index_key n)) = false →
  n < fuel →
  buildAccountTree fuel (VObj lr) s
  = Ret tt (State (heap s)
              (tree_with (heap s) (items_upto (heap s) li n) (accountTree s))
              (entityIndex s)).
Proof.
  intros Hitems Htruthy _ Hend Hfuel. destruct s as [h tree e]. cbn [heap accountTree entityIndex] in *.
  unfold buildAccountTree. apply buildAccountTree_from; [done| |done|done].
  intros j Hj. rewrite Forall_forall in Htruthy. apply Htruthy.
  unfold items_upto. apply list_elem_of_fmap. exists j. split; [done|].
  apply elem_of_seq. lia.
Qed.

(** X6, an instance: all three Accounts of [missing_webProperties] are
    stored, also the one behind the Account without a Property sequence. *)
Lemma buildAccountTree_stores_elements_witness :
  let s := (load missing_webProperties).2 in
  field (heap s) 1%positive "items" = VObj 2%positive ∧
  Forall (λ x, truthy x = true) (items_upto (heap s) 2%positive 3) ∧
  Forall (λ x, printable (own_prop (heap s) x "id") ∧
               to_key (own_prop (heap s) x "id") ∉ Object_prototype)
         (items_upto (heap s) 2%positive 3) ∧
  truthy (field (heap s) 2%positive (index_key 3)) = false ∧
  3 < 4 ∧
  buildAccountTree 4 (VObj 1%positive) s
  = Ret tt (State (heap s)
              (tree_with (heap s) (items_upto (heap s) 2%positive 3) (accountTree s))
              (entityIndex s)) ∧
  tree_with (heap s) (items_upto (heap s) 2%positive 3) (accountTree s) !! "5555"
  = Some (VObj 9%positive).
Proof.
  intros s.
  assert (field (heap s) 1%positive "items" = VObj 2%positive) as Hitems.
  { vm_compute. reflexivity. }
  assert (Forall (λ x, truthy x = true) (items_upto (heap s) 2%positive 3)) as Htruthy.
  { apply (bool_decide_unpack _). vm_compute. exact I. }
  assert (Forall (λ x, printable (own_prop (heap s) x "id") ∧
                       to_key (own_prop (heap s) x "id") ∉ Object_prototype)
                 (items_upto (heap s) 2%positive 3)) as Hids.
  { apply (bool_decide_unpack _). vm_compute. exact I. }
  assert (truthy (field (heap s) 2%positive (index_key 3)) = false) as Hend.
  { vm_compute. reflexivity. }
  assert (3 < 4) as Hfuel by lia.
  split; [exact Hitems|]. split; [exact Htruthy|]. split; [exact Hids|].
  split; [exact Hend|]. split; [exact Hfuel|].
  split; [|vm_compute; reflexivity].
  exact (buildAccountTree_stores_elements 4 s 1%positive 2%positive 3
           Hitems Htruthy Hids Hend Hfuel).
Defined.

(** X7.  On a well-formed response [buildAccountTree] and
    [buildAccountTreeIndex] both return and leave the same [accountTree];
    [buildAccountTree] changes nothing else (no object of the heap gets a
    member: Properties and Profiles are added by the selector functions). *)
Theorem buildAccountTree_same_tree r fuel s :
  well_formed (heap s) r → longest r < fuel →
  ∃ s1 s2,
    buildAccountTree fuel (VObj (r_loc r)) s = Ret tt s1 ∧
    buildAccountTreeIndex fuel (VObj (r_loc r)) s = Ret tt s2 ∧
    accountTree s1 = accountTree s2 ∧
    heap s1 = heap s ∧
    entityIndex s1 = entityIndex s.
Proof.
  intros Hwf Hfuel.
  exists (replay (r_accounts r ≫= λ a, [(STree (a_id a), VObj (a_loc a))]) s),
         (replay (trace r) s).
  split. { apply buildAccountTree_replay; [done|]. unfold longest in Hfuel. lia. }
  split. { by apply build_well_formed. }
  split. { by apply accountTree_replay_accounts. }
  apply replay_tree_writes_frame.
Qed.

(** X7, an instance: the scenario response. *)
Lemma buildAccountTree_same_tree_witness :
  well_formed (heap (load scenario).2) scenario_visited ∧
  longest scenario_visited < 2 ∧
  ∃ s1 s2,
    buildAccountTree 2 (VObj (r_loc scenario_visited)) (load scenario).2 = Ret tt s1 ∧
    buildAccountTreeIndex 2 (VObj (r_loc scenario_visited)) (load scenario).2 = Ret tt s2 ∧
    accountTree s1 = accountTree s2 ∧
    heap s1 = heap (load scenario).2 ∧
    entityIndex s1 = entityIndex (load scenario).2.
Proof.
  assert (well_formed (heap (load scenario).2) scenario_visited) as Hwf.
  { apply (bool_decide_unpack _). vm_compute. exact I. }
  assert (longest scenario_visited < 2) as Hfuel.
  { vm_compute. lia. }
  split; [exact Hwf|]. split; [exact Hfuel|].
  exact (buildAccountTree_same_tree scenario_visited 2 (load scenario).2 Hwf Hfuel).
Defined.

(** X8.  The property selector.  Let the tree hold the Account [a] of a
    well-formed response under its identifier, and let the cache have no
    markup for it.  No identifier of the response names a member of
    [Object.prototype] (the cache would answer to such a name without
    holding markup for it), and the [name] members of the Properties of [a]
    are printable.  Then [getPropertySelectorHtml(a.id)] returns the markup
    [<select id=property-selector>] with one [option] for each Property of
    [a] that has a Profile sequence, in the order of the response, with the
    identifier as value and the [name] member as text (nothing for an
    absent name); Properties without a Profile sequence are left out.  The
    markup is stored in the cache under the Account identifier, and each
    listed Property is stored in the Account object under its identifier:
    these are the only writes. *)
Theorem property_selector_markup r fuel s a selectorHtml :
  well_formed_prefix (heap s) r → ordinary_ids r → a ∈ r_accounts r →
  printable_names (heap s) (p_loc <$> a_properties a) →
  accountTree s !! a_id a = Some (VObj (a_loc a)) →
  truthy (default VUndefined (selectorHtml !! a_id a)) = false →
  length (a_properties a) < fuel →
  let markup := VStr (select_markup PROPERTY_SELECTOR (property_options (heap s) a)) in
  getPropertySelectorHtml fuel (a_id a) selectorHtml s
  = Ret (markup, <[a_id a := markup]> selectorHtml)
        (replay (a_properties a ≫= property_tree_writes a) s).
Proof. intros Hwf _ Ha _. by apply (getPropertySelectorHtml_replay r). Qed.

(** X8, an instance: the Account of [two_profiles], whose second Property
    has no Profile sequence; one option is produced. *)
Lemma property_selector_markup_witness :
  let s := final_state (buildAccountTree 2 (VObj 1%positive) (load two_profiles).2) in
  let r := two_profiles_visited in
  let a := two_profiles_account in
  let markup := VStr (select_markup PROPERTY_SELECTOR (property_options (heap s) a)) in
  well_formed_prefix (heap s) r ∧ ordinary_ids r ∧ a ∈ r_accounts r ∧
  printable_names (heap s) (p_loc <$> a_properties a) ∧
  accountTree s !! a_id a = Some (VObj (a_loc a)) ∧
  truthy (default VUndefined ((∅ : gmap string value) !! a_id a)) = false ∧
  length (a_properties a) < 3 ∧
  getPropertySelectorHtml 3 (a_id a) ∅ s
  = Ret (markup, <[a_id a := markup]> ∅)
        (replay (a_properties a ≫= property_tree_writes a) s) ∧
  property_options (heap s) a = [option_markup (VStr "UA-1234-1") (VStr "Site")].
Proof.
  intros s r a markup.
  assert (well_formed_prefix (heap s) r) as Hwf.
  { apply (bool_decide_unpack _). vm_compute. exact I. }
  assert (ordinary_ids r) as Hord.
  { apply (bool_decide_unpack _). vm_compute. exact I. }
  assert (a ∈ r_accounts r) as Ha by apply list_elem_of_here.
  assert (printable_names (heap s) (p_loc <$> a_properties a)) as Hnames.
  { apply (bool_decide_unpack _). vm_compute. exact I. }
  assert (accountTree s !! a_id a = Some (VObj (a_loc a))) as Htree.
  { vm_compute. reflexivity. }
  assert (length (a_properties a) < 3) as Hfuel.
  { vm_compute. lia. }
  split; [exact Hwf|]. split; [exact Hord|]. split; [exact Ha|]. split; [exact Hnames|].
  split; [exact Htree|]. split; [reflexivity|]. split; [exact Hfuel|].
  split; [|vm_compute; reflexivity].
  exact (property_selector_markup r 3 s a ∅ Hwf Hord Ha Hnames Htree eq_refl Hfuel).
Defined.

(** X9.  The profile selector.  Let the tree hold the Account [a] under its
    identifier and the Property [p] of [a] in the Account object under its
    identifier, and let the cache have no markup under the key
    [a.id + p.id].  No identifier of the response, and not the key, names a
    member of [Object.prototype], and the [name] members of the Profiles of
    [p] are printable.  Then [getProfileSelectorHtml(a.id, p.id)] returns
    the markup [<select id=profile-selector>] with one [option] for each
    Profile of [p], in the order of the response, stores it in the cache
    under that key, and stores each Profile in the Property object under its
    identifier: these are the only writes. *)
Theorem profile_selector_markup r fuel s a p l vs selectorHtml :
  well_formed_prefix (heap s) r → ordinary_ids r →
  a ∈ r_accounts r → p ∈ a_properties a → p_profiles p = Some (l, vs) →
  a_id a +:+ p_id p ∉ Object_prototype →
  printable_names (heap s) (v_loc <$> vs) →
  accountTree s !! a_id a = Some (VObj (a_loc a)) →
  field (heap s) (a_loc a) (p_id p) = VObj (p_loc p) →
  truthy (default VUndefined (selectorHtml !! (a_id a +:+ p_id p))) = false →
  length vs < fuel →
  let markup := VStr (select_markup PROFILE_SELECTOR (profile_options (heap s) vs)) in
  getProfileSelectorHtml fuel (a_id a) (p_id p) selectorHtml s
  = Ret (markup, <[a_id a +:+ p_id p := markup]> selectorHtml)
        (replay (vs ≫= profile_tree_writes p) s).
Proof. intros Hwf _ Ha Hp Hprof _ _. by apply (getProfileSelectorHtml_replay r s Hwf fuel a p l vs). Qed.

(** X9, an instance: the first Property of [two_profiles], after the
    property selector of its Account has been built. *)
Lemma profile_selector_markup_witness :
  let s1 := final_state (buildAccountTree 2 (VObj 1%positive) (load two_profiles).2) in
  let s := final_state (getPropertySelectorHtml 3 "1234" ∅ s1) in
  let r := two_profiles_visited in
  let a := two_profiles_account in
  let p := two_profiles_property in
  let vs := [ {| v_loc := 7%positive; v_id := "5678" |};
              {| v_loc := 8%positive; v_id := "5679" |} ] in
  let markup := VStr (select_markup PROFILE_SELECTOR (profile_options (heap s) vs)) in
  well_formed_prefix (heap s) r ∧ ordinary_ids r ∧
  a ∈ r_accounts r ∧ p ∈ a_properties a ∧
  p_profiles p = Some (6%positive, vs) ∧
  (a_id a +:+ p_id p ∉ Object_prototype) ∧
  printable_names (heap s) (v_loc <$> vs) ∧
  accountTree s !! a_id a = Some (VObj (a_loc a)) ∧
  field (heap s) (a_loc a) (p_id p) = VObj (p_loc p) ∧
  truthy (default VUndefined ((∅ : gmap string value) !! (a_id a +:+ p_id p))) = false ∧
  length vs < 3 ∧
  getProfileSelectorHtml 3 (a_id a) (p_id p) ∅ s
  = Ret (markup, <[a_id a +:+ p_id p := markup]> ∅)
        (replay (vs ≫= profile_tree_writes p) s) ∧
  profile_options (heap s) vs
  = [option_markup (VStr "5678") (VStr "Main View");
     option_markup (VStr "5679") (VStr "Test View")].
Proof.
  intros s1 s r a p vs markup.
  assert (well_formed_prefix (heap s) r) as Hwf.
  { apply (bool_decide_unpack _). vm_compute. exact I. }
  assert (ordinary_ids r) as Hord.
  { apply (bool_decide_unpack _). vm_compute. exact I. }
  assert (a ∈ r_accounts r) as Ha by apply list_elem_of_here.
  assert (p ∈ a_properties a) as Hp by apply list_elem_of_here.
  assert (a_id a +:+ p_id p ∉ Object_prototype) as Hkey.
  { apply (bool_decide_unpack _). vm_compute. exact I. }
  assert (printable_names (heap s) (v_loc <$> vs)) as Hnames.
  { apply (bool_decide_unpack _). vm_compute. exact I. }
  assert (accountTree s !! a_id a = Some (VObj (a_loc a))) as Htree.
  { vm_compute. reflexivity. }
  assert (field (heap s) (a_loc a) (p_id p) = VObj (p_loc p)) as Hmember.
  { vm_compute. reflexivity. }
  assert (length vs < 3) as Hfuel.
  { vm_compute. lia. }
  split; [exact Hwf|]. split; [exact Hord|]. split; [exact Ha|]. split; [exact Hp|].
  split; [reflexivity|]. split; [exact Hkey|]. split; [exact Hnames|].
  split; [exact Htree|]. split; [exact Hmember|]. split; [reflexivity|].
  split; [exact Hfuel|].
  split; [|vm_compute; reflexivity].
  exact (profile_selector_markup r 3 s a p 6%positive vs ∅ Hwf Hord Ha Hp eq_refl Hkey Hnames
           Htree Hmember eq_refl Hfuel).
Defined.

(** X10.  From the response to the selectors.  On a well-formed response
    with unique identifiers, none of which names a member of
    [Object.prototype], for an Account [a] and a Property [p] of [a] that
    has a Profile sequence and a non-empty identifier, with printable names
    and a cache key [a.id + p.id] that names no member of
    [Object.prototype]: after [buildAccountTree], the property selector of
    [a] and then the profile selector of [a] and [p], called with an empty
    cache, both return their markup, and the tree then holds the whole path:
    [a] under its identifier, [p] in the object of [a], and every Profile of
    [p] in the object of [p]. *)
Theorem selectors_complete_the_tree r fuel s a p l vs :
  well_formed (heap s) r → unique_ids r → ordinary_ids r → longest r < fuel →
  a ∈ r_accounts r → p ∈ a_properties a → p_profiles p = Some (l, vs) →
  p_id p ≠ "" → a_id a +:+ p_id p ∉ Object_prototype →
  printable_names (heap s) (p_loc <$> a_properties a) →
  printable_names (heap s) (v_loc <$> vs) →
  ∃ s1 s2 s3 c1 c2,
    buildAccountTree fuel (VObj (r_loc r)) s = Ret tt s1 ∧
    getPropertySelectorHtml fuel (a_id a) ∅ s1
    = Ret (VStr (select_markup PROPERTY_SELECTOR (property_options (heap s) a)), c1) s2 ∧
    getProfileSelectorHtml fuel (a_id a) (p_id p) c1 s2
    = Ret (VStr (select_markup PROFILE_SELECTOR (profile_options (heap s) vs)), c2) s3 ∧
    accountTree s3 !! a_id a = Some (VObj (a_loc a)) ∧
    field (heap s3) (a_loc a) (p_id p) = VObj (p_loc p) ∧
    (∀ v, v ∈ vs → field (heap s3) (p_loc p) (v_id v) = VObj (v_loc v)) ∧
    entityIndex s3 = entityIndex s.
Proof.
  intros Hwf Huniq _ Hfuel Ha Hp Hprof Hid _ _ _.
  pose proof (well_formed_frame (heap s) r) as Hframe0.
  assert (∀ w f, w ∈ trace r → f ∈ response_facts r → w.1 ≠ fact_slot f) as Hframe.
  { intros w f. apply Hframe0, Hwf. }
  assert (p ∈ all_properties r) as Hpall by (by apply (elem_of_all_properties r a)).
  assert (length (a_properties a) < fuel ∧ length vs < fuel ∧ length (r_accounts r) < fuel)
    as (Hlen_p & Hlen_v & Hlen_a).
  { unfold longest in Hfuel.
    pose proof (max_list_elem_of_le (account_longest a) (account_longest <$> r_accounts r)
                  ltac:(by apply list_elem_of_fmap_2)) as Hle.
    unfold account_longest at 1 in Hle.
    pose proof (max_list_elem_of_le (profiles_length p) (profiles_length <$> a_properties a)
                  ltac:(by apply list_elem_of_fmap_2)) as Hle'.
    unfold profiles_length at 1 in Hle'. rewrite Hprof in Hle'. lia. }
  set (s1 := replay (r_accounts r ≫= λ a, [(STree (a_id a), VObj (a_loc a))]) s).
  set (s2 := replay (a_properties a ≫= property_tree_writes a) s1).
  set (s3 := replay (vs ≫= profile_tree_writes p) s2).
  set (m1 := VStr (select_markup PROPERTY_SELECTOR (property_options (heap s) a))).
  set (m2 := VStr (select_markup PROFILE_SELECTOR (profile_options (heap s) vs))).
  exists s1, s2, s3, (<[a_id a := m1]> ∅), (<[a_id a +:+ p_id p := m2]> (<[a_id a := m1]> ∅)).
  destruct (replay_tree_writes_frame (r_accounts r) s) as [Hheap1 Hindex1].
  fold s1 in Hheap1, Hindex1.
  assert (well_formed_prefix (heap s1) r) as Hwf1 by (rewrite Hheap1; apply Hwf).
  assert (accountTree s1 !! a_id a = Some (VObj (a_loc a))) as Htree1.
  { apply lookup_of_read. unfold read.
    unfold s1. rewrite (accountTree_replay_accounts (r_accounts r) s s eq_refl).
    apply (final_account r s Huniq a Ha). }
  (* the store after the property selector *)
  assert (∀ k, accountTree s2 !! k = accountTree s1 !! k) as Htree2.
  { intros k. apply accountTree_replay_untouched.
    by intros (q & _ & _ & ?)%property_tree_writes_slot. }
  assert (∀ k, entityIndex s2 !! k = entityIndex s1 !! k) as Hindex2.
  { intros k. apply entityIndex_replay_untouched.
    by intros (q & _ & _ & ?)%property_tree_writes_slot. }
  assert (Inv r s2) as HInv2.
  { apply (Inv_replay r _ s1 Hframe); [|apply Hwf1].
    intros w (q & Hw & Hq)%list_elem_of_bind.
    by apply (property_tree_writes_sub r a q w). }
  assert (well_formed_prefix (heap s2) r) as Hwf2.
  { by apply (well_formed_prefix_heap (heap s1)). }
  assert (field (heap s2) (a_loc a) (p_id p) = VObj (p_loc p)) as Hmember2.
  { apply (read_replay_functional (SHeap (a_loc a) (p_id p))).
    - apply list_elem_of_bind. exists p. split; [|done].
      unfold property_tree_writes. rewrite Hprof. apply list_elem_of_here.
    - intros v' (q & Hw & Hq)%list_elem_of_bind. unfold property_tree_writes in Hw.
      destruct (p_profiles q) as [[lq vsq]|] eqn:Hprofq; [|by apply elem_of_nil in Hw].
      apply list_elem_of_singleton in Hw as [= Heq ->].
      by destruct (unique_property r a p a q Huniq Ha Hp Ha Hq Heq) as [_ <-]. }
  assert (∀ v k, v ∈ vs → field (heap s2) (v_loc v) k = field (heap s) (v_loc v) k) as Hnames.
  { intros v k Hv. rewrite <- Hheap1.
    apply (read_replay_untouched (SHeap (v_loc v) k)).
    intros (q & Hq & _ & [= Heq _])%property_tree_writes_slot.
    destruct Hwf as [(_ & Hacc & _) _]. rewrite Forall_forall in Hacc.
    apply (Hacc (a_loc a)); [by apply list_elem_of_fmap_2|].
    apply elem_of_app. right. apply elem_of_app. left. rewrite <- Heq.
    apply list_elem_of_fmap_2. by apply (elem_of_all_profiles r a p l vs). }
  assert (profile_options (heap s2) vs = profile_options (heap s) vs) as Hoptions.
  { unfold profile_options. apply list_fmap_ext. intros i v Hv.
    rewrite Hnames; [done|]. by eapply list_elem_of_lookup_2. }
  split; [by apply buildAccountTree_replay|].
  split.
  { pose proof (getPropertySelectorHtml_replay r s1 Hwf1 fuel a ∅ Ha Htree1 eq_refl Hlen_p)
      as Hrun. cbv zeta in Hrun. rewrite Hheap1 in Hrun. exact Hrun. }
  split.
  { pose proof (getProfileSelectorHtml_replay r s2 Hwf2 fuel a p l vs (<[a_id a := m1]> ∅)
                  Ha Hp Hprof) as Hrun.
    cbv zeta in Hrun. rewrite Hoptions in Hrun. apply Hrun; [|done| |done].
    - by rewrite Htree2.
    - rewrite lookup_insert_ne; [done|]. intros Heq. symmetry in Heq.
      by apply string_app_eq_l in Heq. }
  split.
  { unfold s3. rewrite accountTree_replay_untouched; [by rewrite Htree2|].
    by intros (v & _ & ?)%profile_tree_writes_slot. }
  split.
  { rewrite <- Hmember2. apply (read_replay_untouched (SHeap (a_loc a) (p_id p))).
    intros (v & _ & [= Heq _])%profile_tree_writes_slot.
    by apply (well_formed_kinds (heap s) r a p (proj1 Hwf) Ha Hpall). }
  split.
  { intros v Hv. apply (read_replay_functional (SHeap (p_loc p) (v_id v))).
    - apply list_elem_of_bind. exists v. split; [apply list_elem_of_here|done].
    - intros v' (u & Hw & Hu)%list_elem_of_bind.
      apply list_elem_of_singleton in Hw as [= Heq ->].
      by destruct (unique_profile r a p l vs v a p l vs u Huniq Ha Hp Hprof Hv Ha Hp Hprof Hu Heq)
        as (_ & _ & <-). }
  apply map_eq. intros k. unfold s3.
  rewrite entityIndex_replay_untouched; [by rewrite Hindex2, Hindex1|].
  by intros (v & _ & ?)%profile_tree_writes_slot.
Qed.

(** X10, an instance: [two_profiles]. *)
Lemma selectors_complete_the_tree_witness :
  let s := (load two_profiles).2 in
  let r := two_profiles_visited in
  let a := two_profiles_account in
  let p := two_profiles_property in
  let vs := [ {| v_loc := 7%positive; v_id := "5678" |};
              {| v_loc := 8%positive; v_id := "5679" |} ] in
  well_formed (heap s) r ∧ unique_ids r ∧ ordinary_ids r ∧ longest r < 3 ∧
  a ∈ r_accounts r ∧ p ∈ a_properties a ∧ p_profiles p = Some (6%positive, vs) ∧
  p_id p ≠ "" ∧ (a_id a +:+ p_id p ∉ Object_prototype) ∧
  printable_names (heap s) (p_loc <$> a_properties a) ∧
  printable_names (heap s) (v_loc <$> vs) ∧
  ∃ s1 s2 s3 c1 c2,
    buildAccountTree 3 (VObj (r_loc r)) s = Ret tt s1 ∧
    getPropertySelectorHtml 3 (a_id a) ∅ s1
    = Ret (VStr (select_markup PROPERTY_SELECTOR (property_options (heap s) a)), c1) s2 ∧
    getProfileSelectorHtml 3 (a_id a) (p_id p) c1 s2
    = Ret (VStr (select_markup PROFILE_SELECTOR (profile_options (heap s) vs)), c2) s3 ∧
    accountTree s3 !! a_id a = Some (VObj (a_loc a)) ∧
    field (heap s3) (a_loc a) (p_id p) = VObj (p_loc p) ∧
    (∀ v, v ∈ vs → field (heap s3) (p_loc p) (v_id v) = VObj (v_loc v)) ∧
    entityIndex s3 = entityIndex s.
Proof.
  intros s r a p vs.
  assert (well_formed (heap s) r) as Hwf.
  { apply (bool_decide_unpack _). vm_compute. exact I. }
  assert (unique_ids r) as Huniq.
  { apply (bool_decide_unpack _). vm_compute. exact I. }
  assert (ordinary_ids r) as Hord.
  { apply (bool_decide_unpack _). vm_compute. exact I. }
  assert (longest r < 3) as Hfuel.
  { vm_compute. lia. }
  assert (a_id a +:+ p_id p ∉ Object_prototype) as Hkey.
  { apply (bool_decide_unpack _). vm_compute. exact I. }
  assert (printable_names (heap s) (p_loc <$> a_properties a)) as Hnames_p.
  { apply (bool_decide_unpack _). vm_compute. exact I. }
  assert (printable_names (heap s) (v_loc <$> vs)) as Hnames_v.
  { apply (bool_decide_unpack _). vm_compute. exact I. }
  assert (a ∈ r_accounts r) as Ha by apply list_elem_of_here.
  assert (p ∈ a_properties a) as Hp by apply list_elem_of_here.
  assert (p_id p ≠ "") as Hid by discriminate.
  split; [exact Hwf|]. split; [exact Huniq|]. split; [exact Hord|]. split; [exact Hfuel|].
  split; [exact Ha|]. split; [exact Hp|]. split; [reflexivity|]. split; [exact Hid|].
  split; [exact Hkey|]. split; [exact Hnames_p|]. split; [exact Hnames_v|].
  exact (selectors_complete_the_tree r 3 s a p 6%positive vs Hwf Huniq Hord Hfuel Ha Hp eq_refl
           Hid Hkey Hnames_p Hnames_v).
Defined.

(** X11.  The cache is never refreshed.  Once a selector function has
    returned markup for a key, every later call for that key returns the
    same markup and leaves the cache and the store as they are, whatever the
    tree holds by then (also after [buildAccountTree] has been given another
    response).  The markup is never the empty string, so the test of the
    cache cannot miss on an entry. *)
Theorem selector_markup_is_cached :
  (∀ fuel accountId selectorHtml s h selectorHtml' s',
     getPropertySelectorHtml fuel accountId selectorHtml s = Ret (h, selectorHtml') s' →
     ∀ fuel' s'',
       getPropertySelectorHtml fuel' accountId selectorHtml' s'' = Ret (h, selectorHtml') s'') ∧
  (∀ fuel accountId propertyId selectorHtml s h selectorHtml' s',
     getProfileSelectorHtml fuel accountId propertyId selectorHtml s
     = Ret (h, selectorHtml') s' →
     ∀ fuel' s'',
       getProfileSelectorHtml fuel' accountId propertyId selectorHtml' s''
       = Ret (h, selectorHtml') s'').
Proof.
  split.
  - intros fuel accountId selectorHtml s h selectorHtml' s' Hrun fuel' s''.
    destruct (getPropertySelectorHtml_cached _ _ _ _ _ _ _ Hrun).
    by apply getPropertySelectorHtml_hit.
  - intros fuel accountId propertyId selectorHtml s h selectorHtml' s' Hrun fuel' s''.
    destruct (getProfileSelectorHtml_cached _ _ _ _ _ _ _ _ Hrun).
    by apply getProfileSelectorHtml_hit.
Qed.

(** X11, an instance: the two selectors of the scenario response. *)
Lemma selector_markup_is_cached_witness :
  let s1 := final_state (buildAccountTree 2 (VObj 1%positive) (load scenario).2) in
  let h := VStr (select_markup PROPERTY_SELECTOR [option_markup (VStr "UA-1234-1") VUndefined]) in
  let c := <["1234" := h]> (∅ : gmap string value) in
  let s2 := final_state (getPropertySelectorHtml 2 "1234" ∅ s1) in
  let h' := VStr (select_markup PROFILE_SELECTOR
                    [option_markup (VStr "5678") (VStr "Main View")]) in
  let c' := <["1234UA-1234-1" := h']> c in
  let s3 := final_state (getProfileSelectorHtml 2 "1234" "UA-1234-1" c s2) in
  (getPropertySelectorHtml 2 "1234" ∅ s1 = Ret (h, c) s2 ∧
   ∀ fuel' s'', getPropertySelectorHtml fuel' "1234" c s'' = Ret (h, c) s'') ∧
  (getProfileSelectorHtml 2 "1234" "UA-1234-1" c s2 = Ret (h', c') s3 ∧
   ∀ fuel' s'', getProfileSelectorHtml fuel' "1234" "UA-1234-1" c' s'' = Ret (h', c') s'').
Proof.
  intros s1 h c s2 h' c' s3.
  assert (getPropertySelectorHtml 2 "1234" ∅ s1 = Ret (h, c) s2) as Hrun.
  { vm_compute. reflexivity. }
  assert (getProfileSelectorHtml 2 "1234" "UA-1234-1" c s2 = Ret (h', c') s3) as Hrun'.
  { vm_compute. reflexivity. }
  split.
  - split; [exact Hrun|].
    exact (proj1 selector_markup_is_cached 2 "1234" ∅ s1 h c s2 Hrun).
  - split; [exact Hrun'|].
    exact (proj2 selector_markup_is_cached 2 "1234" "UA-1234-1" c s2 h' c' s3 Hrun').
Defined.

(** X12.  The two selector functions share one cache, keyed by the Account
    identifier and by the concatenation of Account and Property identifier,
    with no separator.  When the concatenation of an Account and a Property
    identifier equals an Account identifier for which the property selector
    has been built, [getProfileSelectorHtml] returns the markup of that
    property selector, and adds no Profile to the tree; and the other way
    round. *)
Theorem selector_cache_keys_collide :
  (∀ fuel accountId selectorHtml s h selectorHtml' s',
     getPropertySelectorHtml fuel accountId selectorHtml s = Ret (h, selectorHtml') s' →
     ∀ a p fuel' s'', a +:+ p = accountId →
       getProfileSelectorHtml fuel' a p selectorHtml' s'' = Ret (h, selectorHtml') s'') ∧
  (∀ fuel accountId propertyId selectorHtml s h selectorHtml' s',
     getProfileSelectorHtml fuel accountId propertyId selectorHtml s
     = Ret (h, selectorHtml') s' →
     ∀ fuel' s'',
       getPropertySelectorHtml fuel' (accountId +:+ propertyId) selectorHtml' s''
       = Ret (h, selectorHtml') s'').
Proof.
  split.
  - intros fuel accountId selectorHtml s h selectorHtml' s' Hrun a p fuel' s'' <-.
    destruct (getPropertySelectorHtml_cached _ _ _ _ _ _ _ Hrun).
    by apply getProfileSelectorHtml_hit.
  - intros fuel accountId propertyId selectorHtml s h selectorHtml' s' Hrun fuel' s''.
    destruct (getProfileSelectorHtml_cached _ _ _ _ _ _ _ _ Hrun).
    by apply getPropertySelectorHtml_hit.
Qed.

(** X12, an instance: with the property selector of Account "1234" in the
    cache, the profile selector of Account "12", Property "34" is the
    property selector of "1234". *)
Lemma selector_cache_keys_collide_witness :
  let s1 := final_state (buildAccountTree 2 (VObj 1%positive) (load scenario).2) in
  let h := VStr (select_markup PROPERTY_SELECTOR [option_markup (VStr "UA-1234-1") VUndefined]) in
  let c := <["1234" := h]> (∅ : gmap string value) in
  let s2 := final_state (getPropertySelectorHtml 2 "1234" ∅ s1) in
  getPropertySelectorHtml 2 "1234" ∅ s1 = Ret (h, c) s2 ∧
  "12" +:+ "34" = "1234" ∧
  ∀ fuel' s'', getProfileSelectorHtml fuel' "12" "34" c s'' = Ret (h, c) s''.
Proof.
  intros s1 h c s2.
  assert (getPropertySelectorHtml 2 "1234" ∅ s1 = Ret (h, c) s2) as Hrun.
  { vm_compute. reflexivity. }
  split; [exact Hrun|]. split; [reflexivity|].
  intros fuel' s''.
  exact (proj1 selector_cache_keys_collide 2 "1234" ∅ s1 h c s2 Hrun "12" "34" fuel' s''
           eq_refl).
Defined.

(** X13.  The selector functions do not check the tree.  For identifiers
    and cache keys that name no member of [Object.prototype], and without
    markup in the cache, they raise a TypeError, with the store unchanged
    and nothing cached, when
    - the Account identifier is not in the tree (both functions);
    - the Account in the tree has no [webProperties] member
      ([getPropertySelectorHtml], at the first element read);
    - the Account object has no member named by the Property identifier:
      in particular when the profile selector is asked for before the
      property selector of the Account has been built;
    - that member has no [profiles] member (at the first element read). *)
Theorem selectors_throw_on_missing_entry :
  (∀ fuel accountId selectorHtml s,
     accountId ∉ Object_prototype →
     truthy (default VUndefined (selectorHtml !! accountId)) = false →
     nullish (default VUndefined (accountTree s !! accountId)) →
     getPropertySelectorHtml fuel accountId selectorHtml s = Throw TypeError s) ∧
  (∀ fuel accountId selectorHtml s la,
     accountId ∉ Object_prototype →
     truthy (default VUndefined (selectorHtml !! accountId)) = false →
     accountTree s !! accountId = Some (VObj la) →
     nullish (field (heap s) la "webProperties") →
     getPropertySelectorHtml (S fuel) accountId selectorHtml s = Throw TypeError s) ∧
  (∀ fuel accountId propertyId selectorHtml s,
     accountId ∉ Object_prototype → accountId +:+ propertyId ∉ Object_prototype →
     truthy (default VUndefined (selectorHtml !! (accountId +:+ propertyId))) = false →
     nullish (default VUndefined (accountTree s !! accountId)) →
     getProfileSelectorHtml fuel accountId propertyId selectorHtml s = Throw TypeError s) ∧
  (∀ fuel accountId propertyId selectorHtml s la,
     propertyId ∉ Object_prototype → accountId +:+ propertyId ∉ Object_prototype →
     truthy (default VUndefined (selectorHtml !! (accountId +:+ propertyId))) = false →
     accountTree s !! accountId = Some (VObj la) →
     nullish (field (heap s) la propertyId) →
     getProfileSelectorHtml fuel accountId propertyId selectorHtml s = Throw TypeError s) ∧
  (∀ fuel accountId propertyId selectorHtml s la lp,
     accountId +:+ propertyId ∉ Object_prototype →
     truthy (default VUndefined (selectorHtml !! (accountId +:+ propertyId))) = false →
     accountTree s !! accountId = Some (VObj la) →
     field (heap s) la propertyId = VObj lp →
     nullish (field (heap s) lp "profiles") →
     getProfileSelectorHtml (S fuel) accountId propertyId selectorHtml s = Throw TypeError s).
Proof.
  split; [|split; [|split; [|split]]].
  - intros fuel accountId selectorHtml s _ Hmiss Hnull.
    unfold getPropertySelectorHtml. rewrite Hmiss. unfold bind, get_accountTree.
    by destruct Hnull as [-> | ->].
  - intros fuel accountId selectorHtml s la _ Hmiss Htree Hnull.
    unfold getPropertySelectorHtml. rewrite Hmiss. unfold bind at 1. unfold get_accountTree.
    rewrite Htree. unfold bind at 1. change (default VUndefined (Some ?v)) with v.
    rewrite get_prop_obj. unfold bind at 1. cbn [for_each_fold]. unfold bind at 1.
    by destruct Hnull as [-> | ->].
  - intros fuel accountId propertyId selectorHtml s _ _ Hmiss Hnull.
    unfold getProfileSelectorHtml. rewrite Hmiss. unfold bind, get_accountTree.
    by destruct Hnull as [-> | ->].
  - intros fuel accountId propertyId selectorHtml s la _ _ Hmiss Htree Hnull.
    unfold getProfileSelectorHtml. rewrite Hmiss. unfold bind at 1. unfold get_accountTree.
    rewrite Htree. unfold bind at 1. change (default VUndefined (Some ?v)) with v.
    rewrite get_prop_obj. unfold bind at 1.
    by destruct Hnull as [-> | ->].
  - intros fuel accountId propertyId selectorHtml s la lp _ Hmiss Htree Hprop Hnull.
    unfold getProfileSelectorHtml. rewrite Hmiss. unfold bind at 1. unfold get_accountTree.
    rewrite Htree. unfold bind at 1. change (default VUndefined (Some ?v)) with v.
    rewrite get_prop_obj, Hprop. unfold bind at 1. rewrite get_prop_obj.
    unfold bind at 1. cbn [for_each_fold]. unfold bind at 1.
    by destruct Hnull as [-> | ->].
Qed.

(** X13, an instance: after [buildAccountTree] of the scenario response, an
    unknown Account, the profile selector asked for first, and the member
    [webProperties] taken for a Property; after [buildAccountTree] of
    [missing_webProperties], the Account without a Property sequence. *)
Lemma selectors_throw_on_missing_entry_witness :
  let s1 := final_state (buildAccountTree 2 (VObj 1%positive) (load scenario).2) in
  let s2 := final_state (buildAccountTree 4 (VObj 1%positive) (load missing_webProperties).2) in
  ("9999" ∉ Object_prototype) ∧ ("1234" ∉ Object_prototype) ∧
  ("UA-1234-1" ∉ Object_prototype) ∧
  ("9999" +:+ "UA-9999-1" ∉ Object_prototype) ∧
  ("1234" +:+ "UA-1234-1" ∉ Object_prototype) ∧
  ("1234" +:+ "webProperties" ∉ Object_prototype) ∧
  getPropertySelectorHtml 2 "9999" ∅ s1 = Throw TypeError s1 ∧
  getPropertySelectorHtml 2 "1234" ∅ s2 = Throw TypeError s2 ∧
  getProfileSelectorHtml 2 "9999" "UA-9999-1" ∅ s1 = Throw TypeError s1 ∧
  getProfileSelectorHtml 2 "1234" "UA-1234-1" ∅ s1 = Throw TypeError s1 ∧
  getProfileSelectorHtml 2 "1234" "webProperties" ∅ s1 = Throw TypeError s1.
Proof.
  intros s1 s2.
  destruct selectors_throw_on_missing_entry as (H1 & H2 & H3 & H4 & H5).
  assert ("9999" ∉ Object_prototype) as Hn1.
  { apply (bool_decide_unpack _). vm_compute. exact I. }
  assert ("1234" ∉ Object_prototype) as Hn2.
  { apply (bool_decide_unpack _). vm_compute. exact I. }
  assert ("UA-1234-1" ∉ Object_prototype) as Hn3.
  { apply (bool_decide_unpack _). vm_compute. exact I. }
  assert ("9999" +:+ "UA-9999-1" ∉ Object_prototype) as Hk1.
  { apply (bool_decide_unpack _). vm_compute. exact I. }
  assert ("1234" +:+ "UA-1234-1" ∉ Object_prototype) as Hk2.
  { apply (bool_decide_unpack _). vm_compute. exact I. }
  assert ("1234" +:+ "webProperties" ∉ Object_prototype) as Hk3.
  { apply (bool_decide_unpack _). vm_compute. exact I. }
  split; [exact Hn1|]. split; [exact Hn2|]. split; [exact Hn3|].
  split; [exact Hk1|]. split; [exact Hk2|]. split; [exact Hk3|].
  split; [|split; [|split; [|split]]].
  - apply (H1 2 "9999" ∅ s1 Hn1); [reflexivity|]. left. vm_compute. reflexivity.
  - apply (H2 1 "1234" ∅ s2 8%positive Hn2); [reflexivity| |left]; vm_compute; reflexivity.
  - apply (H3 2 "9999" "UA-9999-1" ∅ s1 Hn1 Hk1); [reflexivity|].
    left. vm_compute. reflexivity.
  - apply (H4 2 "1234" "UA-1234-1" ∅ s1 3%positive Hn3 Hk2); [reflexivity| |left];
      vm_compute; reflexivity.
  - apply (H5 1 "1234" "webProperties" ∅ s1 3%positive 4%positive Hk3);
      [reflexivity| | |left]; vm_compute; reflexivity.
Defined.

